(** * node-dingtalk: the client's credential cache, request primitive and
      request signer, embedded in Rocq

    The development follows [lib/client.js], [lib/api/message.js] and
    [lib/api/callback.js].  JavaScript values are modelled by [JsVal];
    asynchronous methods become state-passing functions over a [World]
    that carries the client instance's mutable fields, the clock and the
    record of HTTP requests handed to the transport.

    Conventions.
    - Strings are sequences of bytes; on ASCII text they coincide with
      JavaScript strings.
    - Numbers are integers ([Z]) or [NaN]; fractional values and the
      infinities are not represented.  Arithmetic on them is exact, as
      JavaScript's is on the integers up to 2^53; statements about a
      computed number say so.
    - A computation ends in [Return v], in [Throw e] (a JavaScript exception
      or a rejected promise), or in [Unmodelled]: the run left the fragment
      of JavaScript and of Node's libraries that is described here. *)

From Stdlib Require Import ZArith List String Ascii Bool Lia Arith.
From Stdlib Require Import Sorting.Sorted Sorting.Permutation.
From Stdlib Require Import Numbers.DecimalString.
Import ListNotations.

Set Warnings "-register-all".

Local Open Scope string_scope.
Local Open Scope list_scope.
Local Open Scope Z_scope.

(* ================================================================= *)
(** ** Strings *)

Module Str.

Definition code (c : ascii) : N := N_of_ascii c.

Definition is_char (c d : ascii) : bool := Ascii.eqb c d.

Definition in_range (lo hi : N) (c : ascii) : bool :=
  (N.leb lo (code c) && N.leb (code c) hi)%bool.

Definition is_digit : ascii -> bool := in_range 48 57.
Definition is_lower : ascii -> bool := in_range 97 122.
Definition is_upper : ascii -> bool := in_range 65 90.
Definition is_alnum (c : ascii) : bool :=
  (is_digit c || is_lower c || is_upper c)%bool.

(** Printable ASCII without the space: 0x21 .. 0x7E. *)
Definition is_graphic : ascii -> bool := in_range 33 126.

Fixpoint all (p : ascii -> bool) (s : string) : bool :=
  match s with
  | EmptyString => true
  | String c r => (p c && all p r)%bool
  end.

Fixpoint any (p : ascii -> bool) (s : string) : bool :=
  match s with
  | EmptyString => false
  | String c r => (p c || any p r)%bool
  end.

(** [span p s]: the longest prefix of [s] whose characters all fail [p],
    and what follows (which is empty or starts with a character
    satisfying [p]). *)
Fixpoint span (p : ascii -> bool) (s : string) : string * string :=
  match s with
  | EmptyString => (EmptyString, EmptyString)
  | String c r =>
      if p c then (EmptyString, s)
      else let '(a, b) := span p r in (String c a, b)
  end.

(** [s.split(sep)] for a one-character separator. *)
Fixpoint split (sep : ascii) (s : string) : list string :=
  match s with
  | EmptyString => [EmptyString]
  | String c r =>
      if is_char sep c then EmptyString :: split sep r
      else match split sep r with
           | [] => [String c EmptyString]
           | x :: xs => String c x :: xs
           end
  end.

(** [parts.join(sep)] *)
Fixpoint join (sep : string) (parts : list string) : string :=
  match parts with
  | [] => EmptyString
  | [x] => x
  | x :: xs => x ++ sep ++ join sep xs
  end.

Fixpoint concat_map (f : ascii -> string) (s : string) : string :=
  match s with
  | EmptyString => EmptyString
  | String c r => f c ++ concat_map f r
  end.

Definition starts_with (p s : string) : bool := String.prefix p s.

Fixpoint drop (n : nat) (s : string) : string :=
  match n, s with
  | O, _ => s
  | S n', String _ r => drop n' r
  | S _, EmptyString => EmptyString
  end.

(** [s.replace(pat, by)] with a string pattern: the first occurrence only.
    (Replacement patterns such as [$&] in [by] are not interpreted.) *)
Fixpoint replace_first (pat by_ s : string) : string :=
  if starts_with pat s then by_ ++ drop (String.length pat) s
  else match s with
       | EmptyString => EmptyString
       | String c r => String c (replace_first pat by_ r)
       end.

(** Decimal rendering of an integer, as [String(n)] prints a safe integer. *)
Definition of_Z (n : Z) : string := NilZero.string_of_int (Z.to_int n).

Definition hex_digit (n : N) : ascii :=
  if N.ltb n 10 then ascii_of_N (48 + n) else ascii_of_N (55 + n).

Definition hex_digit_lower (n : N) : ascii :=
  if N.ltb n 10 then ascii_of_N (48 + n) else ascii_of_N (87 + n).

Definition hex_value (c : ascii) : option N :=
  if is_digit c then Some (code c - 48)%N
  else if in_range 65 70 c then Some (code c - 55)%N
  else if in_range 97 102 c then Some (code c - 87)%N
  else None.

(** ["%XX"], upper-case hexadecimal. *)
Definition percent (c : ascii) : string :=
  String "%" (String (hex_digit (code c / 16)) (String (hex_digit (code c mod 16)) EmptyString)).

End Str.

(* ================================================================= *)
(** ** Outcomes *)

(** JavaScript numbers: the integers and [NaN]. *)
Inductive JsNum : Type :=
| Num (n : Z)
| NaN.

(** JavaScript values: primitives, arrays, and plain objects as
    insertion-ordered property lists with distinct keys. *)
Inductive JsVal : Type :=
| VUndef
| VNull
| VBool (b : bool)
| VNum (n : JsNum)
| VStr (s : string)
| VArr (items : list JsVal)
| VObj (props : list (string * JsVal)).

(** Exceptions raised by the code under study.  [DingTalkClientResponseError]
    stands for the [Error] object built in [Client.request]: its [name] is
    the constructor's name, its [code] and [data] are the arguments, its
    message is [`${url} got error: ${JSON.stringify(data)}`]. *)
Inductive JsError : Type :=
| AssertionError (message : string)
| TypeError
| DingTalkClientResponseError (url : string) (code : JsVal) (data : JsVal)
| TransportError (err : JsVal).

Definition err_name (e : JsError) : string :=
  match e with
  | AssertionError _ => "AssertionError"
  | TypeError => "TypeError"
  | DingTalkClientResponseError _ _ _ => "DingTalkClientResponseError"
  | TransportError _ => "Error"
  end.

Definition err_code (e : JsError) : JsVal :=
  match e with
  | DingTalkClientResponseError _ c _ => c
  | _ => VUndef
  end.

Definition err_data (e : JsError) : JsVal :=
  match e with
  | DingTalkClientResponseError _ _ d => d
  | _ => VUndef
  end.

Inductive Outcome (A : Type) : Type :=
| Return (a : A)
| Throw (e : JsError)
| Unmodelled.

Arguments Return {A} a.
Arguments Throw {A} e.
Arguments Unmodelled {A}.

Definition obind {A B} (x : Outcome A) (f : A -> Outcome B) : Outcome B :=
  match x with
  | Return a => f a
  | Throw e => Throw e
  | Unmodelled => Unmodelled
  end.

Declare Scope outcome_scope.
Delimit Scope outcome_scope with outcome.
Notation "'let?' x ':=' c 'in' k" := (obind c (fun x => k))
  (at level 10, x pattern, c at level 100, k at level 200) : outcome_scope.

Local Open Scope outcome_scope.

Fixpoint omap {A B} (f : A -> Outcome B) (l : list A) : Outcome (list B) :=
  match l with
  | [] => Return []
  | x :: r => let? y := f x in let? ys := omap f r in Return (y :: ys)
  end.

(* ================================================================= *)
(** ** JavaScript values and plain objects *)

Module Js.

(** [!!v] *)
Definition truthy (v : JsVal) : bool :=
  match v with
  | VUndef | VNull => false
  | VBool b => b
  | VNum (Num n) => negb (n =? 0)
  | VNum NaN => false
  | VStr s => negb (String.eqb s "")
  | VArr _ | VObj _ => true
  end.

(** [a || b] on already evaluated operands is [if truthy a then a else b];
    the code below evaluates [b] only when needed. *)

(** [v !== 0] *)
Definition strict_ne_zero (v : JsVal) : bool :=
  match v with
  | VNum (Num 0) => false
  | _ => true
  end.

Fixpoint lookup {A} (k : string) (props : list (string * A)) : option A :=
  match props with
  | [] => None
  | (k', v) :: r => if String.eqb k k' then Some v else lookup k r
  end.

Definition has_own {A} (k : string) (props : list (string * A)) : bool :=
  match lookup k props with Some _ => true | None => false end.

Fixpoint update {A} (k : string) (v : A) (props : list (string * A))
  : list (string * A) :=
  match props with
  | [] => [(k, v)]
  | (k', v') :: r =>
      if String.eqb k k' then (k', v) :: r else (k', v') :: update k v r
  end.

Fixpoint remove {A} (k : string) (props : list (string * A))
  : list (string * A) :=
  match props with
  | [] => []
  | (k', v') :: r =>
      if String.eqb k k' then r else (k', v') :: remove k r
  end.

(** Names that every ordinary object inherits from [Object.prototype]. *)
Definition object_prototype_members : list string :=
  [ "constructor"; "__defineGetter__"; "__defineSetter__"; "hasOwnProperty";
    "__lookupGetter__"; "__lookupSetter__"; "isPrototypeOf";
    "propertyIsEnumerable"; "toString"; "valueOf"; "__proto__";
    "toLocaleString" ].

Definition inherited (k : string) : bool :=
  existsb (String.eqb k) object_prototype_members.

(** Names that numbers and booleans inherit besides those. *)
Definition number_prototype_members : list string :=
  [ "toExponential"; "toFixed"; "toPrecision" ].

(** [v[k]] for a string key.  Reading a property of [undefined] or [null]
    throws; on a plain object an own property wins, an absent one is
    [undefined] unless the name is inherited from [Object.prototype] (a
    built-in function, which [JsVal] does not represent).  Numbers and
    booleans have no own properties.  Properties of strings and arrays
    are not modelled. *)
Definition get (v : JsVal) (k : string) : Outcome JsVal :=
  match v with
  | VUndef | VNull => Throw TypeError
  | VObj props =>
      match lookup k props with
      | Some x => Return x
      | None => if inherited k then Unmodelled else Return VUndef
      end
  | VBool _ | VNum _ =>
      if (inherited k || existsb (String.eqb k) number_prototype_members)%bool
      then Unmodelled else Return VUndef
  | VStr _ | VArr _ => Unmodelled
  end.

(** [v[k] = x] in strict mode, returning the updated object. *)
Definition set (v : JsVal) (k : string) (x : JsVal) : Outcome JsVal :=
  match v with
  | VUndef | VNull | VBool _ | VNum _ | VStr _ => Throw TypeError
  | VArr _ => Unmodelled
  | VObj props =>
      if String.eqb k "__proto__" then Unmodelled
      else Return (VObj (update k x props))
  end.

(** [delete v.k] on a plain object. *)
Definition delete (v : JsVal) (k : string) : JsVal :=
  match v with
  | VObj props => VObj (remove k props)
  | _ => v
  end.

(** *** Property order *)

Fixpoint digits_value (s : string) (acc : N) : N :=
  match s with
  | EmptyString => acc
  | String c r => digits_value r (10 * acc + (Str.code c - 48))%N
  end.

(** An array index is the canonical decimal form of an integer in
    [0, 2^32 - 2]. *)
Definition array_index (k : string) : option N :=
  match k with
  | EmptyString => None
  | String c r =>
      if (Str.all Str.is_digit k
          && (negb (Str.is_char "0" c) || String.eqb r "")
          && Nat.leb (String.length k) 10)%bool
      then let n := digits_value k 0 in
           if N.leb n 4294967294 then Some n else None
      else None
  end.

Fixpoint insert_index (x : N * string) (l : list (N * string))
  : list (N * string) :=
  match l with
  | [] => [x]
  | y :: r => if N.leb (fst x) (fst y) then x :: l else y :: insert_index x r
  end.

Fixpoint index_keys (ks : list string) : list (N * string) :=
  match ks with
  | [] => []
  | k :: r =>
      match array_index k with
      | Some n => insert_index (n, k) (index_keys r)
      | None => index_keys r
      end
  end.

Definition named_keys (ks : list string) : list string :=
  filter (fun k => match array_index k with Some _ => false | None => true end) ks.

(** [Object.keys(o)] on a property list: array indices in ascending
    numeric order, then the other names in insertion order. *)
Definition ordered_keys (ks : list string) : list string :=
  map snd (index_keys ks) ++ named_keys ks.

Definition own_keys {A} (props : list (string * A)) : list string :=
  ordered_keys (map fst props).

(** *** Conversions *)

Definition has_own_toString (props : list (string * JsVal)) : bool :=
  has_own "toString" props.

(** [String(n)].  A number is a double: the integers up to 2^53 in
    absolute value are all represented, and are printed with all their
    digits.  Above that bound only some integers are numbers, and they are
    printed with the fewest digits that identify them (2^60 as
    [1152921504606847000]): those are left out. *)
Definition num_to_string (n : JsNum) : Outcome string :=
  match n with
  | NaN => Return "NaN"
  | Num z => if Z.abs z <=? 2 ^ 53 then Return (Str.of_Z z) else Unmodelled
  end.

(** [`${v}`], [String(v)], and the conversion of a computed property
    key.  A plain object prints as [[object Object]] unless it shadows
    [toString] with an own property, which here can only hold a value that
    is not callable, so that the conversion throws. *)
Fixpoint to_string (v : JsVal) : Outcome string :=
  match v with
  | VUndef => Return "undefined"
  | VNull => Return "null"
  | VBool true => Return "true"
  | VBool false => Return "false"
  | VNum n => num_to_string n
  | VStr s => Return s
  | VArr items =>
      let elem (x : JsVal) : Outcome string :=
        match x with
        | VUndef | VNull => Return ""
        | _ => to_string x
        end in
      (fix go (l : list JsVal) : Outcome string :=
         match l with
         | [] => Return ""
         | [x] => elem x
         | x :: r => let? a := elem x in let? b := go r in Return (a ++ "," ++ b)%string
         end) items
  | VObj props =>
      if has_own_toString props then Throw TypeError
      else Return "[object Object]"
  end.

(** [Number(v)], for the operands this code can meet without parsing a
    numeric string. *)
Definition to_number (v : JsVal) : Outcome JsNum :=
  match v with
  | VUndef => Return NaN
  | VNull => Return (Num 0)
  | VBool b => Return (Num (if b then 1 else 0))
  | VNum n => Return n
  | VStr _ | VArr _ => Unmodelled
  | VObj props => if has_own_toString props then Throw TypeError else Return NaN
  end.

(** [a + b], [a - b] and [a * b] on numbers.  The result is the exact
    one.  JavaScript computes in doubles and rounds: the two agree when
    the operands and the exact result are integers of at most 2^53 in
    absolute value (see [exact_expiry] below), which is where statements
    about computed numbers are made. *)
Definition num_binop (f : Z -> Z -> Z) (a b : JsNum) : JsNum :=
  match a, b with
  | Num x, Num y => Num (f x y)
  | _, _ => NaN
  end.

Definition num_add := num_binop Z.add.
Definition num_sub := num_binop Z.sub.
Definition num_mul := num_binop Z.mul.

(** [a < b] on numbers: false as soon as one side is [NaN]. *)
Definition num_lt (a b : JsNum) : bool :=
  match a, b with
  | Num x, Num y => x <? y
  | _, _ => false
  end.

(** *** Object.assign *)

Fixpoint assign_props (target : JsVal) (ks : list string)
  (src : list (string * JsVal)) : Outcome JsVal :=
  match ks with
  | [] => Return target
  | k :: r =>
      match lookup k src with
      | Some x => let? t := set target k x in assign_props t r src
      | None => assign_props target r src
      end
  end.

(** One source of [Object.assign(target, source)]: [undefined], [null],
    numbers, booleans and the empty string contribute nothing; a plain
    object contributes its own properties in key order. *)
Definition assign1 (target source : JsVal) : Outcome JsVal :=
  match source with
  | VUndef | VNull | VBool _ | VNum _ => Return target
  | VStr s => if String.eqb s "" then Return target else Unmodelled
  | VArr _ => Unmodelled
  | VObj props => assign_props target (own_keys props) props
  end.

Fixpoint assign (target : JsVal) (sources : list JsVal) : Outcome JsVal :=
  match sources with
  | [] => Return target
  | s :: r => let? t := assign1 target s in assign t r
  end.

End Js.

(* ================================================================= *)
(** ** Node's [querystring] module *)

(** The functions below follow [lib/querystring.js] of Node 8 and later
    (the versions that run [async] functions), for the default separator
    ['&'], assignment ['='], decoder and [maxKeys]. *)

Module querystring.

(** [unescapeBuffer]: a ['%'] followed by two hexadecimal digits is
    replaced by the byte they denote.  What happens at a ['%'] that is
    not depends on the version of Node.  Since the rewrite of the
    function as an index loop, the ['%'] is copied and the scan goes on
    with the character behind it, which is read again: ["%%41"] gives
    ["%A"]. *)
Fixpoint unescapeBuffer (s : string) : string :=
  match s with
  | EmptyString => EmptyString
  | String c r =>
      if Str.is_char "%" c then
        match r with
        | String h (String l r') =>
            match Str.hex_value h, Str.hex_value l with
            | Some a, Some b => String (ascii_of_N (16 * a + b)) (unescapeBuffer r')
            | _, _ => String c (unescapeBuffer r)
            end
        | _ => String c (unescapeBuffer r)
        end
      else String c (unescapeBuffer r)
  end.

(** The state machine of Node 8 and before: the characters it has looked
    at behind a ['%'] are copied as they are, even a ['%'] among them, and
    the scan goes on behind them: ["%%41"] stays ["%%41"]. *)
Fixpoint unescapeBuffer_v8 (s : string) : string :=
  match s with
  | EmptyString => EmptyString
  | String c r =>
      if Str.is_char "%" c then
        match r with
        | String h (String l r' as t) =>
            match Str.hex_value h with
            | None => String c (String h (unescapeBuffer_v8 t))
            | Some a =>
                match Str.hex_value l with
                | None => String c (String h (String l (unescapeBuffer_v8 r')))
                | Some b => String (ascii_of_N (16 * a + b)) (unescapeBuffer_v8 r')
                end
            end
        | _ => String c r
        end
      else String c (unescapeBuffer_v8 r)
  end.

Definition is_ascii (c : ascii) : bool := N.ltb (Str.code c) 128.

(** [querystring.unescape]: [decodeURIComponent] with a fall-back to
    [unescapeBuffer] on malformed input.  The result is given where it
    does not depend on the version of Node, that is, where the two scans
    agree, and where it is ASCII: then [decodeURIComponent], if it does
    not throw, returns the same text.  A byte above 0x7F would need UTF-8
    decoding. *)
Definition unescape (s : string) : Outcome string :=
  let d := unescapeBuffer s in
  if (String.eqb d (unescapeBuffer_v8 s) && Str.all is_ascii d)%bool
  then Return d else Unmodelled.

Definition plus_to_space (s : string) : string :=
  Str.concat_map (fun c => if Str.is_char "+" c then " " else String c EmptyString) s.

(** What [parse] makes of a raw key or value: ['+'] becomes a space, then
    percent-escapes are decoded. *)
Definition decode (s : string) : Outcome string := unescape (plus_to_space s).

(** A segment [k=v] is cut at its first ['=']; without one the whole
    segment is the key and the value is empty. *)
Definition cut_segment (seg : string) : string * string :=
  let '(k, rest) := Str.span (Str.is_char "=") seg in
  (k, match rest with String _ v => v | EmptyString => EmptyString end).

(** [addKeyValue]: a repeated key collects its values in an array. *)
Definition addKeyValue (obj : list (string * JsVal)) (key value : string)
  : list (string * JsVal) :=
  match Js.lookup key obj with
  | None => Js.update key (VStr value) obj
  | Some (VArr l) => Js.update key (VArr (l ++ [VStr value])) obj
  | Some cur => Js.update key (VArr [cur; VStr value]) obj
  end.

Fixpoint parse_segments (segs : list string) (obj : list (string * JsVal))
  : Outcome (list (string * JsVal)) :=
  match segs with
  | [] => Return obj
  | seg :: r =>
      if String.eqb seg "" then parse_segments r obj
      else
        let '(k, v) := cut_segment seg in
        let? key := decode k in
        let? value := decode v in
        parse_segments r (addKeyValue obj key value)
  end.

Definition maxKeys : nat := 1000.

(** [querystring.parse(qs)]: the first [maxKeys] segments between ['&']
    are read, empty segments are skipped. *)
Definition parse (qs : string) : Outcome JsVal :=
  if String.eqb qs "" then Return (VObj [])
  else
    let? obj := parse_segments (firstn maxKeys (Str.split "&" qs)) [] in
    Return (VObj obj).

(** Characters [querystring.escape] leaves alone:
    [A-Z a-z 0-9 - _ . ! ~ * ' ( )]. *)
Definition noEscape (c : ascii) : bool :=
  (Str.is_alnum c || existsb (Str.is_char c)
     ["-"; "_"; "."; "!"; "~"; "*"; "'"; "("; ")"]%char)%bool.

Definition escape (s : string) : string :=
  Str.concat_map (fun c => if noEscape c then String c EmptyString else Str.percent c) s.

Definition stringifyPrimitive (v : JsVal) : Outcome string :=
  match v with
  | VStr s => Return s
  | VNum NaN => Return ""
  | VNum n => Js.num_to_string n
  | VBool true => Return "true"
  | VBool false => Return "false"
  | _ => Return ""
  end.

Fixpoint stringify_items (ks : string) (items : list JsVal) : Outcome string :=
  match items with
  | [] => Return ""
  | x :: r =>
      let? p := stringifyPrimitive x in
      let? rest := stringify_items ks r in
      Return (ks ++ escape p ++ (match r with [] => "" | _ => "&" end) ++ rest)%string
  end.

(** The text one key contributes, with the separator that follows it when
    it is not the last key.  An empty array contributes nothing, and the
    versions of Node differ on the separators around it. *)
Definition stringify_field (k : string) (v : JsVal) (last : bool) : Outcome string :=
  let ks := (escape k ++ "=")%string in
  let sep := if last then "" else "&" in
  match v with
  | VArr [] => Unmodelled
  | VArr items => let? f := stringify_items ks items in Return (f ++ sep)%string
  | _ => let? p := stringifyPrimitive v in Return (ks ++ escape p ++ sep)%string
  end.

Fixpoint stringify_fields (props : list (string * JsVal)) (ks : list string)
  : Outcome string :=
  match ks with
  | [] => Return ""
  | k :: r =>
      let v := match Js.lookup k props with Some x => x | None => VUndef end in
      let? f := stringify_field k v (match r with [] => true | _ => false end) in
      let? rest := stringify_fields props r in
      Return (f ++ rest)%string
  end.

(** [querystring.stringify(obj)]: the empty string unless [obj] is an
    object.  (An array argument would be listed by its indices.) *)
Definition stringify (obj : JsVal) : Outcome string :=
  match obj with
  | VObj props => stringify_fields props (Js.own_keys props)
  | VArr _ => Unmodelled
  | _ => Return ""
  end.

End querystring.

(* ================================================================= *)
(** ** Node's legacy [url] module *)

(** [Url.parse(url, true)] and [Url.format(obj)] of [lib/url.js], for
    absolute [http] and [https] URLs

      [scheme://hostname[:port][/path][?query][#fragment]]

    written in lower case, in printable ASCII without spaces, with a
    host name made of dot-separated labels of letters and digits, no
    user-info part and no backslash before the query.  On any other
    input [parse] answers [Unmodelled].  The fields [auth], [port],
    [hostname], [path] and [href] of Node's object are left out: [format]
    reads none of them when [host] is set and [auth] is null. *)

Module Url.

Record UrlObject : Type := {
  protocol : option string;
  slashes : bool;
  host : option string;
  hash : option string;
  search : option string;
  query : option JsVal;
  pathname : option string
}.

(** Characters [parse] always escapes in what follows the host: tab, line
    feed, carriage return, space, the double quote (code 34) and
    [' < > \ ^ ` { | }]. *)
Definition autoEscape (c : ascii) : bool :=
  existsb (Str.is_char c)
    [ "009"; "010"; "013"; " "; "034"; "'"; "<"; ">"; "\"; "^"; "`"; "{"; "|"; "}" ]%char.

Definition autoEscapeStr (s : string) : string :=
  Str.concat_map (fun c => if autoEscape c then Str.percent c else String c EmptyString) s.

Definition scheme (url : string) : option (string * string) :=
  if Str.starts_with "http://" url then Some ("http:", Str.drop 7 url)
  else if Str.starts_with "https://" url then Some ("https:", Str.drop 8 url)
  else None.

(** The first of ['/'], ['?'], ['#'] ends the host. *)
Definition host_end (c : ascii) : bool :=
  (Str.is_char "/" c || Str.is_char "?" c || Str.is_char "#" c)%bool.

Definition query_or_hash (c : ascii) : bool :=
  (Str.is_char "?" c || Str.is_char "#" c)%bool.

Definition label_char (c : ascii) : bool := (Str.is_digit c || Str.is_lower c)%bool.

Definition valid_label (l : string) : bool :=
  (negb (String.eqb l "") && Str.all label_char l
   && Nat.leb (String.length l) 63)%bool.

Definition valid_hostname (h : string) : bool :=
  (forallb valid_label (Str.split "." h) && Nat.leb (String.length h) 255)%bool.

(** Nothing, or a colon and one to five digits. *)
Definition valid_port (p : string) : bool :=
  match p with
  | EmptyString => true
  | String c digits =>
      (Str.is_char ":" c && negb (String.eqb digits "")
       && Str.all Str.is_digit digits && Nat.leb (String.length digits) 5)%bool
  end.

Definition nonempty (s : string) : option string :=
  if String.eqb s "" then None else Some s.

Definition parse (url : string) : Outcome UrlObject :=
  if negb (Str.all Str.is_graphic url) then Unmodelled else
  match scheme url with
  | None => Unmodelled
  | Some (proto, after_slashes) =>
      let '(hostport, rest) := Str.span host_end after_slashes in
      let '(hostname, port) := Str.span (Str.is_char ":") hostport in
      if negb (valid_hostname hostname && valid_port port) then Unmodelled else
      if Str.any (Str.is_char "\") (fst (Str.span query_or_hash rest)) then Unmodelled else
      let rest := autoEscapeStr rest in
      let '(before_hash, hash) := Str.span (Str.is_char "#") rest in
      let '(path, search) := Str.span (Str.is_char "?") before_hash in
      let? query :=
        match search with
        | EmptyString => Return (VObj [])
        | String _ qs => querystring.parse qs
        end in
      Return {| protocol := Some proto;
                slashes := true;
                host := Some hostport;
                hash := nonempty hash;
                search := nonempty search;
                query := Some query;
                pathname := Some (if String.eqb path "" then "/" else path) |}
  end.

Definition slashedProtocol (p : string) : bool :=
  existsb (String.eqb p)
    [ "http"; "http:"; "https"; "https:"; "ftp"; "ftp:"; "gopher"; "gopher:";
      "file"; "file:"; "ws"; "ws:"; "wss"; "wss:" ].

Definition or_empty (s : option string) : string :=
  match s with Some x => x | None => "" end.

Fixpoint ends_with_colon (s : string) : bool :=
  match s with
  | EmptyString => false
  | String c EmptyString => Str.is_char ":" c
  | String _ r => ends_with_colon r
  end.

Definition first_is (c : ascii) (s : string) : bool :=
  match s with String d _ => Str.is_char c d | EmptyString => false end.

Definition format (o : UrlObject) : Outcome string :=
  let protocol0 := or_empty (protocol o) in
  let pathname0 := or_empty (pathname o) in
  let hash0 := or_empty (hash o) in
  let host0 := or_empty (host o) in
  let? query :=
    match query o with
    | Some (VObj props) => querystring.stringify (VObj props)
    | Some (VArr _) => Unmodelled
    | _ => Return ""
    end in
  let search0 :=
    if negb (String.eqb (or_empty (search o)) "") then or_empty (search o)
    else if negb (String.eqb query "") then ("?" ++ query)%string
    else "" in
  let protocol1 :=
    if (negb (String.eqb protocol0 "") && negb (ends_with_colon protocol0))%bool
    then (protocol0 ++ ":")%string else protocol0 in
  let pathname1 :=
    Str.concat_map (fun c => if Str.is_char "#" c then "%23"
                             else if Str.is_char "?" c then "%3F"
                             else String c EmptyString) pathname0 in
  let '(host1, pathname2) :=
    if (slashes o || slashedProtocol protocol1)%bool then
      if (slashes o || negb (String.eqb host0 ""))%bool then
        (("//" ++ host0)%string,
         if (negb (String.eqb pathname1 "") && negb (first_is "/" pathname1))%bool
         then ("/" ++ pathname1)%string else pathname1)
      else if Str.starts_with "file" protocol1 then ("//", pathname1)
      else (host0, pathname1)
    else (host0, pathname1) in
  let search1 :=
    Str.concat_map (fun c => if Str.is_char "#" c then "%23" else String c EmptyString) search0 in
  let hash1 :=
    if (negb (String.eqb hash0 "") && negb (first_is "#" hash0))%bool
    then ("#" ++ hash0)%string else hash0 in
  let search2 :=
    if (negb (String.eqb search1 "") && negb (first_is "?" search1))%bool
    then ("?" ++ search1)%string else search1 in
  Return (protocol1 ++ host1 ++ pathname2 ++ search2 ++ hash1)%string.

End Url.

(* ================================================================= *)
(** ** [crypto.createHash('sha1')] *)

(** SHA-1 (FIPS 180-4) over the bytes of the string, with the digest in
    lower-case hexadecimal: [createHash('sha1').update(s, 'utf8').digest('hex')]. *)

Module crypto.

Definition w32 (x : Z) : Z := Z.land x 4294967295.

Definition rotl (n x : Z) : Z :=
  w32 (Z.lor (Z.shiftl x n) (Z.shiftr x (32 - n))).

Definition add32 (x y : Z) : Z := w32 (x + y).

Definition bytes_of (s : string) : list Z :=
  map (fun c => Z.of_N (Str.code c)) (list_ascii_of_string s).

(** Big-endian bytes of [x], [n] of them. *)
Fixpoint be_bytes (n : nat) (x : Z) : list Z :=
  match n with
  | O => []
  | S n' => Z.land (Z.shiftr x (8 * Z.of_nat n')) 255 :: be_bytes n' x
  end.

(** The message followed by 0x80, zeros up to 56 modulo 64, and the bit
    length on eight bytes. *)
Definition pad (msg : list Z) : list Z :=
  let len := Z.of_nat (List.length msg) in
  let zeros := Z.to_nat ((55 - len) mod 64) in
  msg ++ [128] ++ repeat 0 zeros ++ be_bytes 8 (8 * len).

Fixpoint words (fuel : nat) (bytes : list Z) : list Z :=
  match fuel, bytes with
  | S f, a :: b :: c :: d :: r =>
      (Z.shiftl a 24 + Z.shiftl b 16 + Z.shiftl c 8 + d) :: words f r
  | _, _ => []
  end.

Fixpoint blocks (fuel : nat) (ws : list Z) : list (list Z) :=
  match fuel, ws with
  | S f, _ :: _ => firstn 16 ws :: blocks f (skipn 16 ws)
  | _, _ => []
  end.

(** The message schedule: [W(t) = rotl 1 (W(t-3) xor W(t-8) xor W(t-14)
    xor W(t-16))] for [16 <= t < 80]. *)
Fixpoint schedule (n : nat) (w : list Z) : list Z :=
  match n with
  | O => w
  | S n' =>
      let t := List.length w in
      let at_ (k : nat) := nth (t - k) w 0 in
      schedule n' (w ++ [rotl 1 (Z.lxor (Z.lxor (at_ 3%nat) (at_ 8%nat))
                                        (Z.lxor (at_ 14%nat) (at_ 16%nat)))])
  end.

Definition State : Type := (Z * Z * Z * Z * Z)%type.

Definition f_k (t : nat) (b c d : Z) : Z * Z :=
  if Nat.ltb t 20 then
    (Z.lor (Z.land b c) (Z.land (Z.lxor b 4294967295) d), 1518500249)
  else if Nat.ltb t 40 then (Z.lxor (Z.lxor b c) d, 1859775393)
  else if Nat.ltb t 60 then
    (Z.lor (Z.lor (Z.land b c) (Z.land b d)) (Z.land c d), 2400959708)
  else (Z.lxor (Z.lxor b c) d, 3395469782).

Definition round (t : nat) (wt : Z) (s : State) : State :=
  let '(a, b, c, d, e) := s in
  let '(f, k) := f_k t b c d in
  let temp := add32 (add32 (add32 (add32 (rotl 5 a) f) e) k) wt in
  (temp, a, rotl 30 b, c, d).

Fixpoint rounds (t : nat) (w : list Z) (s : State) : State :=
  match w with
  | [] => s
  | wt :: r => rounds (S t) r (round t wt s)
  end.

Definition compress (h : State) (block : list Z) : State :=
  let '(h0, h1, h2, h3, h4) := h in
  let '(a, b, c, d, e) := rounds 0 (schedule 64 block) h in
  (add32 h0 a, add32 h1 b, add32 h2 c, add32 h3 d, add32 h4 e).

Definition init : State :=
  (1732584193, 4023233417, 2562383102, 271733878, 3285377520).

Definition sha1 (msg : list Z) : State :=
  let p := pad msg in
  let n := List.length p in
  fold_left compress (blocks n (words n p)) init.

Fixpoint hex_of (digits : nat) (x : Z) : string :=
  match digits with
  | O => EmptyString
  | S n =>
      String (Str.hex_digit_lower (Z.to_N (Z.land (Z.shiftr x (4 * Z.of_nat n)) 15)))
             (hex_of n x)
  end.

Definition sha1_hex (s : string) : string :=
  let '(h0, h1, h2, h3, h4) := sha1 (bytes_of s) in
  (hex_of 8 h0 ++ hex_of 8 h1 ++ hex_of 8 h2 ++ hex_of 8 h3 ++ hex_of 8 h4)%string.

(** *** SHA-256, HMAC and encodings *)

Definition rotr (n x : Z) : Z := rotl (32 - n) x.

(** The sixty-four round constants of SHA-256 (FIPS 180-4, section
    4.2.2), in decimal like those of SHA-1 above. *)
Definition K256 : list Z :=
  [
    1116352408; 1899447441; 3049323471; 3921009573;
    961987163; 1508970993; 2453635748; 2870763221;
    3624381080; 310598401; 607225278; 1426881987;
    1925078388; 2162078206; 2614888103; 3248222580;
    3835390401; 4022224774; 264347078; 604807628;
    770255983; 1249150122; 1555081692; 1996064986;
    2554220882; 2821834349; 2952996808; 3210313671;
    3336571891; 3584528711; 113926993; 338241895;
    666307205; 773529912; 1294757372; 1396182291;
    1695183700; 1986661051; 2177026350; 2456956037;
    2730485921; 2820302411; 3259730800; 3345764771;
    3516065817; 3600352804; 4094571909; 275423344;
    430227734; 506948616; 659060556; 883997877;
    958139571; 1322822218; 1537002063; 1747873779;
    1955562222; 2024104815; 2227730452; 2361852424;
    2428436474; 2756734187; 3204031479; 3329325298
  ].

(** [W(t) = s1 (W(t-2)) + W(t-7) + s0 (W(t-15)) + W(t-16)] for
    [16 <= t < 64]. *)
Fixpoint schedule256 (n : nat) (w : list Z) : list Z :=
  match n with
  | O => w
  | S n' =>
      let t := List.length w in
      let at_ (k : nat) := nth (t - k) w 0 in
      let s0 (x : Z) := Z.lxor (Z.lxor (rotr 7 x) (rotr 18 x)) (Z.shiftr x 3) in
      let s1 (x : Z) := Z.lxor (Z.lxor (rotr 17 x) (rotr 19 x)) (Z.shiftr x 10) in
      schedule256 n' (w ++ [add32 (add32 (add32 (s1 (at_ 2%nat)) (at_ 7%nat))
                                         (s0 (at_ 15%nat))) (at_ 16%nat)])
  end.

Definition State256 : Type := (Z * Z * Z * Z * Z * Z * Z * Z)%type.

Definition round256 (kt wt : Z) (s : State256) : State256 :=
  let '(a, b, c, d, e, f, g, h) := s in
  let S1 := Z.lxor (Z.lxor (rotr 6 e) (rotr 11 e)) (rotr 25 e) in
  let ch := Z.lxor (Z.land e f) (Z.land (Z.lxor e 4294967295) g) in
  let t1 := add32 (add32 (add32 (add32 h S1) ch) kt) wt in
  let S0 := Z.lxor (Z.lxor (rotr 2 a) (rotr 13 a)) (rotr 22 a) in
  let maj := Z.lxor (Z.lxor (Z.land a b) (Z.land a c)) (Z.land b c) in
  let t2 := add32 S0 maj in
  (add32 t1 t2, a, b, c, add32 d t1, e, f, g).

Fixpoint rounds256 (ks w : list Z) (s : State256) : State256 :=
  match ks, w with
  | kt :: ks', wt :: w' => rounds256 ks' w' (round256 kt wt s)
  | _, _ => s
  end.

Definition compress256 (hh : State256) (block : list Z) : State256 :=
  let '(h0, h1, h2, h3, h4, h5, h6, h7) := hh in
  let '(a, b, c, d, e, f, g, h) := rounds256 K256 (schedule256 48 block) hh in
  (add32 h0 a, add32 h1 b, add32 h2 c, add32 h3 d,
   add32 h4 e, add32 h5 f, add32 h6 g, add32 h7 h).

Definition init256 : State256 :=
  (1779033703, 3144134277, 1013904242, 2773480762,
   1359893119, 2600822924, 528734635, 1541459225).

(** The digests as bytes. *)
Definition sha256_bytes (msg : list Z) : list Z :=
  let p := pad msg in
  let n := List.length p in
  let '(h0, h1, h2, h3, h4, h5, h6, h7) :=
    fold_left compress256 (blocks n (words n p)) init256 in
  flat_map (be_bytes 4) [h0; h1; h2; h3; h4; h5; h6; h7].

Definition sha1_bytes (msg : list Z) : list Z :=
  let '(h0, h1, h2, h3, h4) := sha1 msg in
  flat_map (be_bytes 4) [h0; h1; h2; h3; h4].

(** HMAC (RFC 2104) for a hash with 64-byte blocks: a key longer than a
    block is hashed first, a shorter one is filled up with zeros. *)
Definition hmac (H : list Z -> list Z) (key msg : list Z) : list Z :=
  let k := if Nat.ltb 64 (List.length key) then H key else key in
  let k := k ++ repeat 0 (64 - List.length k) in
  H (map (Z.lxor 92) k ++ H (map (Z.lxor 54) k ++ msg)).

(** [digest('hex')] *)
Definition hex (bytes : list Z) : string :=
  string_of_list_ascii
    (flat_map (fun b => [Str.hex_digit_lower (Z.to_N (Z.shiftr b 4));
                         Str.hex_digit_lower (Z.to_N (Z.land b 15))]) bytes).

Definition base64_char (n : Z) : ascii :=
  let n := Z.to_N n in
  if N.ltb n 26 then ascii_of_N (65 + n)
  else if N.ltb n 52 then ascii_of_N (71 + n)
  else if N.ltb n 62 then ascii_of_N (n - 4)
  else if N.eqb n 62 then "+"%char else "/"%char.

(** [digest('base64')]: the standard alphabet, padded with ['=']. *)
Fixpoint base64 (bytes : list Z) : string :=
  match bytes with
  | [] => EmptyString
  | [a] =>
      String (base64_char (Z.shiftr a 2))
        (String (base64_char (Z.shiftl (Z.land a 3) 4)) "==")
  | [a; b] =>
      String (base64_char (Z.shiftr a 2))
        (String (base64_char (Z.lor (Z.shiftl (Z.land a 3) 4) (Z.shiftr b 4)))
           (String (base64_char (Z.shiftl (Z.land b 15) 2)) "="))
  | a :: b :: c :: r =>
      String (base64_char (Z.shiftr a 2))
        (String (base64_char (Z.lor (Z.shiftl (Z.land a 3) 4) (Z.shiftr b 4)))
           (String (base64_char (Z.lor (Z.shiftl (Z.land b 15) 2) (Z.shiftr c 6)))
              (String (base64_char (Z.land c 63)) (base64 r))))
  end.

(** [crypto.createHmac(hash, secret).update(str).digest(encoding)] for
    the hashes [sha1] and [sha256] and the encodings [hex] and [base64]. *)
Definition createHmac (hash secret str encoding : string) : Outcome string :=
  let? H := (if String.eqb hash "sha1" then Return sha1_bytes
             else if String.eqb hash "sha256" then Return sha256_bytes
             else Unmodelled) in
  let? enc := (if String.eqb encoding "hex" then Return hex
               else if String.eqb encoding "base64" then Return base64
               else Unmodelled) in
  Return (enc (hmac H (bytes_of secret) (bytes_of str))).

End crypto.

(* ================================================================= *)
(** ** The world of a client instance *)

(** A cached access token, [{ accessToken, expireTime }]. *)
Module AccessToken.

Record t : Type := new { accessToken : JsVal; expireTime : JsNum }.

(** Modelled from the spec: [lib/access-token.js] is not among the
    sources.  The spec's data model says a token is "considered valid
    while current time is before expireTime", and the credential cache
    "checks the stored token's validity (current time < expireTime)". *)
Definition isValid (now : Z) (tok : t) : bool :=
  Js.num_lt (Num now) (expireTime tok).

End AccessToken.

(** A cached ticket, [{ ticket, expireTime }]. *)
Module Ticket.

Record t : Type := new { ticket : JsVal; expireTime : JsNum }.

(** Modelled from the spec: [lib/ticket.js] is not among the sources.
    The spec gives a ticket "the same shape" and the same validity rule as
    a token: valid while the current time is before [expireTime]. *)
Definition isValid (now : Z) (tk : t) : bool :=
  Js.num_lt (Num now) (expireTime tk).

End Ticket.

(** The persistence hooks of a client: [getToken], [saveToken],
    [getTicketToken] and [saveTicketToken], over a backing store [S].
    Loading reads the store; saving changes it; either may fail. *)
Class Hooks (S : Type) : Type := {
  getToken : S -> Outcome (option AccessToken.t);
  saveToken : AccessToken.t -> S -> Outcome S;
  getTicketToken : string -> S -> Outcome (option Ticket.t);
  saveTicketToken : string -> Ticket.t -> S -> Outcome S
}.

(** The fields [this.store] and [this.ticketStore] behind the default
    hooks. *)
Record Memory : Type := {
  store : option AccessToken.t;
  ticketStore : list (string * Ticket.t)
}.

(** The hooks installed by the constructor and by [registerTicketHandle]
    when the caller passes none.  [this.ticketStore] is an ordinary
    object: a type named like a member of [Object.prototype] would reach
    that member. *)
#[export] Instance memory_hooks : Hooks Memory := {
  getToken m := Return (store m);
  saveToken token m :=
    Return {| store := Some token; ticketStore := ticketStore m |};
  getTicketToken type m :=
    match Js.lookup type (ticketStore m) with
    | Some tk => Return (Some tk)
    | None => if Js.inherited type then Unmodelled else Return None
    end;
  saveTicketToken type ticketToken m :=
    if String.eqb type "__proto__" then Unmodelled
    else Return {| store := store m;
                   ticketStore := Js.update type ticketToken (ticketStore m) |}
}.

(** [this.options] *)
Record Options : Type := {
  appkey : string;
  appsecret : string;
  host : string;
  proxy : option string;
  sso : bool;
  corpid : JsVal;
  requestOpts : JsVal;
  logger : bool
}.

Record Request : Type := { req_url : string; req_opts : JsVal }.

(** What [urllib.request] does with a request: it resolves to a response
    object or rejects. *)
Inductive HttpResult : Type :=
| HttpOk (response : JsVal)
| HttpFail (err : JsVal).

(** The surroundings of a run: the successive readings of the clock, and the
    remote service's answer to the n-th request. *)
Record Env : Type := {
  clock : nat -> Z;
  remote : nat -> Request -> HttpResult
}.

Inductive LogEntry : Type :=
| LogWarn (method : JsVal) (url : string) (status headers err : JsVal)
| LogInfo (method : JsVal) (url : string) (status headers result : JsVal).

(** The state a method call can change: how often the clock was read, the
    requests handed to the transport so far, the logger's lines and the
    backing store. *)
Record World (S : Type) : Type := {
  ticks : nat;
  sent : list Request;
  logged : list LogEntry;
  backing : S
}.

Arguments ticks {S} w.
Arguments sent {S} w.
Arguments logged {S} w.
Arguments backing {S} w.

Definition M (S A : Type) : Type := World S -> Outcome A * World S.

Definition ret {S A} (a : A) : M S A := fun w => (Return a, w).

Definition bind {S A B} (c : M S A) (k : A -> M S B) : M S B :=
  fun w =>
    match c w with
    | (Return a, w') => k a w'
    | (Throw e, w') => (Throw e, w')
    | (Unmodelled, w') => (Unmodelled, w')
    end.

Definition throw {S A} (e : JsError) : M S A := fun w => (Throw e, w).

(** A pure step that may throw. *)
Definition lift {S A} (x : Outcome A) : M S A := fun w => (x, w).

(** [try { c } catch (err) { h(err) }] *)
Definition try_catch {S A} (c : M S A) (h : JsError -> M S A) : M S A :=
  fun w =>
    match c w with
    | (Throw e, w') => h e w'
    | r => r
    end.

Declare Scope js_scope.
Delimit Scope js_scope with js.
Notation "x <- c ;; k" := (bind c (fun x => k))
  (at level 61, c at next level, right associativity) : js_scope.
Notation "c ;; k" := (bind c (fun _ => k))
  (at level 61, right associativity) : js_scope.

(** [assert(value, message)] *)
Definition assert {S} (value : JsVal) (message : string) : M S unit :=
  if Js.truthy value then ret tt else throw (AssertionError message).

Definition outcome {S A} (r : Outcome A * World S) : Outcome A := fst r.
Definition after {S A} (r : Outcome A * World S) : World S := snd r.

(* ================================================================= *)
(** ** [lib/client.js] *)

Module Client.

(** [_normalizeUrl(url)].  The keys come from [Object.keys], so each
    [originUrlObj.query[key]] reads an own property. *)
Definition _normalizeUrl (url : string) : Outcome string :=
  let? originUrlObj := Url.parse url in
  let query := match Url.query originUrlObj with Some q => q | None => VUndef end in
  let? keys :=
    match query with
    | VObj props => Return (Js.own_keys props)
    | VUndef | VNull => Throw TypeError
    | _ => Unmodelled
    end in
  let? result :=
    omap (fun key =>
            let? value := Js.get query key in
            let? v := Js.to_string value in
            Return (key ++ "=" ++ v)%string) keys in
  let queryStr := Str.join "&" result in
  let originUrlObj' :=
    {| Url.protocol := Url.protocol originUrlObj;
       Url.slashes := Url.slashes originUrlObj;
       Url.host := Url.host originUrlObj;
       Url.hash := None;
       Url.search := None;
       Url.query := None;
       Url.pathname := Url.pathname originUrlObj |} in
  let? formatted := Url.format originUrlObj' in
  Return (formatted ++ (if negb (String.eqb queryStr "") then "?" ++ queryStr else ""))%string.

(** [signatureHash(str, secret)] with its defaults [sha1] and [hex]; the
    secret is not used. *)
Definition signatureHash (str secret : string) : string := crypto.sha1_hex str.

(** [keys.sort()]: ascending by UTF-16 code units, which on ASCII keys is
    the order of the bytes. *)
Fixpoint sort_insert (k : string) (l : list string) : list string :=
  match l with
  | [] => [k]
  | x :: r => if String.leb k x then k :: l else x :: sort_insert k r
  end.

Fixpoint sort (l : list string) : list string :=
  match l with
  | [] => []
  | k :: r => sort_insert k (sort r)
  end.

Section Instance.

Context {Store : Type} {hooks : Hooks Store}.
Variable options : Options.
Variable env : Env.

Local Open Scope js_scope.

(** [Date.now()] and [new Date().getTime()] *)
Definition Date_now : M Store Z :=
  fun w => (Return (clock env (ticks w)),
            {| ticks := S (ticks w); sent := sent w;
               logged := logged w; backing := backing w |}).

Definition load {A} (hook : Store -> Outcome A) : M Store A :=
  fun w => (hook (backing w), w).

Definition save (hook : Store -> Outcome Store) : M Store unit :=
  fun w =>
    match hook (backing w) with
    | Return s => (Return tt, {| ticks := ticks w; sent := sent w;
                                 logged := logged w; backing := s |})
    | Throw e => (Throw e, w)
    | Unmodelled => (Unmodelled, w)
    end.

Definition log (entry : LogEntry) : M Store unit :=
  fun w => (Return tt, {| ticks := ticks w; sent := sent w;
                          logged := logged w ++ [entry]; backing := backing w |}).

(** [this.urllib.request(url, requestOpts)] *)
Definition urllib_request (url : string) (requestOpts : JsVal) : M Store JsVal :=
  fun w =>
    let rq := {| req_url := url; req_opts := requestOpts |} in
    let w' := {| ticks := ticks w; sent := sent w ++ [rq];
                 logged := logged w; backing := backing w |} in
    match remote env (List.length (sent w)) rq with
    | HttpOk response => (Return response, w')
    | HttpFail err => (Throw (TransportError err), w')
    end.

Definition or_GET (method : JsVal) : JsVal :=
  if Js.truthy method then method else VStr "GET".

(** [request(url, opts)] is written in three steps.  [prepare] is the
    first part of its body: the merged request options, the query string
    with the access token, the proxy.  The method called for a missing
    access token is a parameter.  The source updates the [params] object
    in place; here the updated copy is used from then on. *)
Definition prepare (getAccessToken : M Store JsVal) (url : string) (opts : JsVal)
  : M Store (string * JsVal) :=
  requestOpts <- lift (Js.assign (VObj [("dataType", VStr "json")])
                                 [requestOpts options; opts]) ;;
  p <- lift (Js.get requestOpts "params") ;;
  let params := if Js.truthy p then p else VObj [] in
  ignoreAccessToken <- lift (Js.get requestOpts "ignoreAccessToken") ;;
  params <- (if negb (Js.truthy ignoreAccessToken) then
               a <- lift (Js.get requestOpts "accessToken") ;;
               accessToken <- (if Js.truthy a then ret a else getAccessToken) ;;
               lift (Js.set params "access_token" accessToken)
             else ret params) ;;
  qs <- lift (querystring.stringify params) ;;
  let url := (url ++ "?" ++ qs)%string in
  let requestOpts :=
    Js.delete (Js.delete (Js.delete requestOpts "params") "ignoreAccessToken")
              "accessToken" in
  url <- match proxy options with
         | Some px =>
             if String.eqb px "" then ret url
             else if Str.any (Str.is_char "$") px then lift Unmodelled
             else ret (Str.replace_first (host options) px url)
         | None => ret url
         end ;;
  ret (url, requestOpts).

(** The [try] block around [this.urllib.request] and its [catch]. *)
Definition exchange (url : string) (requestOpts : JsVal) : M Store JsVal :=
  try_catch (urllib_request url requestOpts)
    (fun e =>
       match e with
       | TransportError err =>
           (if logger options then
              method <- lift (Js.get requestOpts "method") ;;
              status <- lift (Js.get err "status") ;;
              headers <- lift (Js.get err "headers") ;;
              log (LogWarn (or_GET method) url status headers err)
            else ret tt) ;;
           throw e
       | _ => throw e
       end).

(** From [const result = response.data] to the end: the response
    envelope is opened. *)
Definition unwrap (url : string) (requestOpts response : JsVal) : M Store JsVal :=
  result <- lift (Js.get response "data") ;;
  (if logger options then
     method <- lift (Js.get requestOpts "method") ;;
     status <- lift (Js.get response "status") ;;
     headers <- lift (Js.get response "headers") ;;
     log (LogInfo (or_GET method) url status headers result)
   else ret tt) ;;
  if Js.truthy result then
    errcode <- lift (Js.get result "errcode") ;;
    if Js.strict_ne_zero errcode
    then throw (DingTalkClientResponseError url errcode result)
    else ret result
  else ret response.

Definition request_with (getAccessToken : M Store JsVal) (url : string) (opts : JsVal)
  : M Store JsVal :=
  prepared <- prepare getAccessToken url opts ;;
  response <- exchange (fst prepared) (snd prepared) ;;
  unwrap (fst prepared) (snd prepared) response.

(** [get(api, params, opts)] *)
Definition get_with (getAccessToken : M Store JsVal) (api : string) (params opts : JsVal)
  : M Store JsVal :=
  assert (VStr api) "api path required" ;;
  let url := (host options ++ "/" ++ api)%string in
  o <- lift (Js.assign (VObj [("params", params)]) [opts]) ;;
  request_with getAccessToken url o.

(** [post(api, data, opts)] *)
Definition post_with (getAccessToken : M Store JsVal) (api : string) (data opts : JsVal)
  : M Store JsVal :=
  assert (VStr api) "api path required" ;;
  let url := (host options ++ "/" ++ api)%string in
  o <- lift (Js.assign (VObj [("method", VStr "POST"); ("contentType", VStr "json");
                              ("data", data)]) [opts]) ;;
  request_with getAccessToken url o.

(** The call [this.getAccessToken()] inside the request that fetches
    the access token itself.  That request carries [ignoreAccessToken:
    true], so the call is never made (lemma [gettoken_request_needs_no_token]). *)
Definition nested_getAccessToken : M Store JsVal := lift Unmodelled.

(** The second half of [getAccessToken()], from the comment that
    announces the fetch: the token is asked from the remote service, given
    its expiry time and saved. *)
Definition fetchAccessToken : M Store JsVal :=
  let appkey := appkey options in
  let appsecret := appsecret options in
  let '(url, data) :=
    if sso options
    then ("sso/gettoken", VObj [("corpid", VStr appkey); ("corpsecret", VStr appsecret)])
    else ("gettoken", VObj [("appkey", VStr appkey); ("appsecret", VStr appsecret)]) in
  response <- get_with nested_getAccessToken url data
                (VObj [("ignoreAccessToken", VBool true)]) ;;
  accessToken <- lift (Js.get response "access_token") ;;
  expires_in <- lift (Js.get response "expires_in") ;;
  now <- Date_now ;;
  n <- lift (Js.to_number expires_in) ;;
  let expireTime :=
    Js.num_add (Num now) (Js.num_mul (Js.num_sub n (Num 10)) (Num 1000)) in
  save (saveToken (AccessToken.new accessToken expireTime)) ;;
  ret accessToken.

(** [getAccessToken()] *)
Definition getAccessToken : M Store JsVal :=
  token <- load getToken ;;
  valid <- match token with
           | Some tok =>
               now <- Date_now ;;
               ret (AccessToken.isValid now
                      (AccessToken.new (AccessToken.accessToken tok)
                                       (AccessToken.expireTime tok)))
           | None => ret false
           end ;;
  match token, valid with
  | Some tok, true => ret (AccessToken.accessToken tok)
  | _, _ => fetchAccessToken
  end.

Definition request : string -> JsVal -> M Store JsVal := request_with getAccessToken.
Definition get : string -> JsVal -> JsVal -> M Store JsVal := get_with getAccessToken.
Definition post : string -> JsVal -> JsVal -> M Store JsVal := post_with getAccessToken.

(** The second half of [getJSApiTicket(type)]: the ticket is asked from
    the remote service, given its expiry time and saved. *)
Definition fetchJSApiTicket (type : string) : M Store JsVal :=
  response <- get "get_jsapi_ticket" (VObj [("type", VStr type)]) VUndef ;;
  ticket <- lift (Js.get response "ticket") ;;
  expires_in <- lift (Js.get response "expires_in") ;;
  now <- Date_now ;;
  n <- lift (Js.to_number expires_in) ;;
  let expireTime :=
    Js.num_add (Num now) (Js.num_mul (Js.num_sub n (Num 10)) (Num 1000)) in
  save (saveTicketToken type (Ticket.new ticket expireTime)) ;;
  ret ticket.

(** [getJSApiTicket(type)], for [type] a string or a falsy value. *)
Definition getJSApiTicket (type : JsVal) : M Store JsVal :=
  let type := if Js.truthy type then type else VStr "jsapi" in
  match type with
  | VStr ty =>
      ticketToken <- load (getTicketToken ty) ;;
      valid <- match ticketToken with
               | Some tk =>
                   now <- Date_now ;;
                   ret (Ticket.isValid now
                          (Ticket.new (Ticket.ticket tk) (Ticket.expireTime tk)))
               | None => ret false
               end ;;
      match ticketToken, valid with
      | Some tk, true => ret (Ticket.ticket tk)
      | _, _ => fetchJSApiTicket ty
      end
  | _ => lift Unmodelled
  end.

(** The object [getJSApiConfig] resolves to. *)
Record JSApiConfig : Type := {
  corpId : JsVal;
  timeStamp : JsVal;
  nonceStr : JsVal;
  signature : string
}.

(** [Object.keys(signObj).sort().map(key => `${key}=${signObj[key]}`)].
    Keys outside ASCII, which [sort] would compare by code units rather
    than by bytes, are left out. *)
Definition signContent (signObj : JsVal) : Outcome (list string) :=
  match signObj with
  | VObj props =>
      let keys := Js.own_keys props in
      if negb (forallb (Str.all querystring.is_ascii) keys) then Unmodelled else
      omap (fun key =>
              let? value := Js.get signObj key in
              let? v := Js.to_string value in
              Return (key ++ "=" ++ v)%string)
           (sort keys)
  | _ => Unmodelled
  end.

(** [getJSApiConfig(url, opts)] *)
Definition getJSApiConfig (url : string) (opts : JsVal) : M Store JSApiConfig :=
  ticket <- getJSApiTicket VUndef ;;
  t1 <- Date_now ;;
  stamp <- lift (Js.num_to_string (Num t1)) ;;
  t2 <- Date_now ;;
  nurl <- lift (_normalizeUrl url) ;;
  signObj <- lift (Js.assign
                     (VObj [("jsapi_ticket", ticket);
                            ("noncestr", VStr ("DingTalk#" ++ stamp));
                            ("timestamp", VNum (Num t2));
                            ("url", VStr nurl)])
                     [opts]) ;;
  content <- lift (signContent signObj) ;;
  let signature := crypto.sha1_hex (Str.join "&" content) in
  timestamp <- lift (Js.get signObj "timestamp") ;;
  noncestr <- lift (Js.get signObj "noncestr") ;;
  ret {| corpId := corpid options;
         timeStamp := timestamp;
         nonceStr := noncestr;
         signature := signature |}.

(** *** Login URLs and the calls of the login flow *)

(** The object literal the five URL builders start from.  [redirect_uri]
    stands for [this.options.redirect_uri]. *)
Definition login_params (redirect_uri : JsVal) (scope : string) : JsVal :=
  VObj [("response_type", VStr "code"); ("scope", VStr scope); ("state", VStr "STATE");
        ("appid", VStr (appkey options)); ("redirect_uri", redirect_uri)].

(** [`${this.options.host}/${path}?${querystring.stringify(params)}`]
    with [params = Object.assign({...}, query)] *)
Definition login_url (redirect_uri : JsVal) (scope path : string) (query : JsVal)
  : Outcome string :=
  let? params := Js.assign (login_params redirect_uri scope) [query] in
  let? qs := querystring.stringify params in
  Return (host options ++ "/" ++ path ++ "?" ++ qs)%string.

(** [getQRConnectUrl(query)] *)
Definition getQRConnectUrl (redirect_uri query : JsVal) : Outcome string :=
  login_url redirect_uri "snsapi_login" "connect/qrconnect" query.

(** [getIframeQRGotoUrl(query)] *)
Definition getIframeQRGotoUrl (redirect_uri query : JsVal) : Outcome string :=
  login_url redirect_uri "snsapi_login" "connect/oauth2/sns_authorize" query.

(** [getWebAuthUrl(query)] *)
Definition getWebAuthUrl (redirect_uri query : JsVal) : Outcome string :=
  login_url redirect_uri "snsapi_auth" "connect/oauth2/sns_authorize" query.

(** [getWebLoginUrl(query)] *)
Definition getWebLoginUrl (redirect_uri query : JsVal) : Outcome string :=
  login_url redirect_uri "snsapi_login" "connect/oauth2/sns_authorize" query.

(** [getSnsAuthorizeUrl(query)]: [query && query.loginTmpCode] is
    asserted first. *)
Definition getSnsAuthorizeUrl (redirect_uri query : JsVal) : Outcome string :=
  let? code := (if Js.truthy query then Js.get query "loginTmpCode" else Return query) in
  if Js.truthy code
  then login_url redirect_uri "snsapi_login" "connect/oauth2/sns_authorize" query
  else Throw (AssertionError "loginTmpCode required").

(** [getPersistentCode(accessToken, tmpAuthCode)] *)
Definition getPersistentCode (accessToken tmpAuthCode : JsVal) : M Store JsVal :=
  post "sns/get_persistent_code" (VObj [("tmp_auth_code", tmpAuthCode)])
       (VObj [("accessToken", accessToken)]).

(** [getSnsToken(accessToken, openid, persistentCode)] *)
Definition getSnsToken (accessToken openid persistentCode : JsVal) : M Store JsVal :=
  post "sns/get_sns_token"
       (VObj [("openid", openid); ("persistent_code", persistentCode)])
       (VObj [("accessToken", accessToken)]).

(** [getSnsUserInfo(accessToken, snsToken)] *)
Definition getSnsUserInfo (accessToken snsToken : JsVal) : M Store JsVal :=
  get "sns/getuserinfo" (VObj [("sns_token", snsToken)])
      (VObj [("accessToken", accessToken)]).

(** [getUserInfo(accessToken, userid)] *)
Definition getUserInfo (accessToken userid : JsVal) : M Store JsVal :=
  get "user/get" (VObj [("userid", userid)]) (VObj [("accessToken", accessToken)]).

(** [getSSOUserInfo(accessToken, code)] *)
Definition getSSOUserInfo (accessToken code : JsVal) : M Store JsVal :=
  get "sso/getuserinfo" (VObj [("code", code)]) (VObj [("accessToken", accessToken)]).

(** [signatureHmac(str, secret, hash, encoding)] *)
Definition signatureHmac (str secret hash encoding : string) : Outcome string :=
  crypto.createHmac hash secret str encoding.

(** [getuserinfo_bycode(tmp_auth_code)] *)
Definition getuserinfo_bycode (tmp_auth_code : JsVal) : M Store JsVal :=
  timestamp <- Date_now ;;
  stamp <- lift (Js.num_to_string (Num timestamp)) ;;
  signature <- lift (signatureHmac stamp (appsecret options) "sha256" "base64") ;;
  let params := VObj [("accessKey", VStr (appkey options));
                      ("timestamp", VNum (Num timestamp));
                      ("signature", VStr signature)] in
  post "sns/getuserinfo_bycode" (VObj [("tmp_auth_code", tmp_auth_code)])
       (VObj [("params", params); ("ignoreAccessToken", VBool true)]).

End Instance.

(** [new Client(options)] without hooks: the three required options are
    checked, and the in-memory stores start out empty. *)
Definition constructor (options : Options) : Outcome (World Memory) :=
  if String.eqb (appkey options) "" then Throw (AssertionError "options.appkey required")
  else if String.eqb (appsecret options) "" then Throw (AssertionError "options.appsecret required")
  else if String.eqb (host options) "" then Throw (AssertionError "options.host required")
  else Return {| ticks := 0; sent := []; logged := [];
                 backing := {| store := None; ticketStore := [] |} |}.

End Client.

(* ================================================================= *)
(** ** [lib/api/message.js] *)

Module Message.

Section Instance.

Context {Store : Type} {hooks : Hooks Store}.
Variable options : Options.
Variable env : Env.

Local Open Scope js_scope.

(** [a || b], where [b] is a property read *)
Definition or_else (a : JsVal) (b : M Store JsVal) : M Store JsVal :=
  if Js.truthy a then ret a else b.

(** [this.client.post] *)
Definition client_post : string -> JsVal -> JsVal -> M Store JsVal :=
  Client.post options env.

(** [send(opts)] *)
Definition send (opts : JsVal) : M Store JsVal :=
  touser <- lift (Js.get opts "touser") ;;
  target <- or_else touser (lift (Js.get opts "toparty")) ;;
  assert target "options touser or toparty required" ;;
  msgtype <- lift (Js.get opts "msgtype") ;;
  assert msgtype "options.msgtype required" ;;
  agentid <- lift (Js.get opts "agentid") ;;
  assert agentid "options.agentid required" ;;
  msgtype <- lift (Js.get opts "msgtype") ;;
  key <- lift (Js.to_string msgtype) ;;
  body <- lift (Js.get opts key) ;;
  msgtype <- lift (Js.get opts "msgtype") ;;
  name <- lift (Js.to_string msgtype) ;;
  assert body ("options." ++ name ++ " required") ;;
  client_post "message/send" opts VUndef.

(** [listMessageStatus(messageId)] *)
Definition listMessageStatus (messageId : JsVal) : M Store JsVal :=
  assert messageId "messageId required" ;;
  client_post "message/list_message_status" (VObj [("messageId", messageId)]) VUndef.

(** [sendMessage(opts)] *)
Definition sendMessage (opts : JsVal) : M Store JsVal :=
  agent_id <- lift (Js.get opts "agent_id") ;;
  assert agent_id "opts.agent_id required" ;;
  userid_list <- lift (Js.get opts "userid_list") ;;
  target <- or_else userid_list
              (dept_id_list <- lift (Js.get opts "dept_id_list") ;;
               or_else dept_id_list (lift (Js.get opts "to_all_user"))) ;;
  assert target "opts.userid_list or opts.dept_id_list or opts.to_all_user required" ;;
  msg <- lift (Js.get opts "msg") ;;
  assert msg "opts.msg required" ;;
  client_post "topapi/message/corpconversation/asyncsend_v2" opts VUndef.

(** [getSendProgress(opts)] *)
Definition getSendProgress (opts : JsVal) : M Store JsVal :=
  agent_id <- lift (Js.get opts "agent_id") ;;
  assert agent_id "opts.agent_id required" ;;
  task_id <- lift (Js.get opts "task_id") ;;
  assert task_id "opts.task_id required" ;;
  client_post "topapi/message/corpconversation/getsendprogress" opts VUndef.

(** [getSendResult(opts)] *)
Definition getSendResult (opts : JsVal) : M Store JsVal :=
  agent_id <- lift (Js.get opts "agent_id") ;;
  assert agent_id "opts.agent_id required" ;;
  task_id <- lift (Js.get opts "task_id") ;;
  assert task_id "opts.task_id required" ;;
  client_post "topapi/message/corpconversation/getsendresult" opts VUndef.

(** [recallMessage(opts)] *)
Definition recallMessage (opts : JsVal) : M Store JsVal :=
  agent_id <- lift (Js.get opts "agent_id") ;;
  assert agent_id "opts.agent_id required" ;;
  msg_task_id <- lift (Js.get opts "msg_task_id") ;;
  assert msg_task_id "opts.msg_task_id required" ;;
  client_post "topapi/message/corpconversation/recall" opts VUndef.

End Instance.

End Message.

(* ================================================================= *)
(** ** [lib/api/callback.js] *)

Module Callback.

Section Instance.

Context {Store : Type} {hooks : Hooks Store}.
Variable options : Options.
Variable env : Env.

(** [this.client.get] *)
Definition client_get : string -> JsVal -> JsVal -> M Store JsVal :=
  Client.get options env.

(** The four wrappers hand [opts] to [client.get] as the query object. *)
Definition register_call_back (opts : JsVal) : M Store JsVal :=
  client_get "call_back/register_call_back" opts VUndef.

Definition get_call_back (opts : JsVal) : M Store JsVal :=
  client_get "call_back/get_call_back" opts VUndef.

Definition update_call_back (opts : JsVal) : M Store JsVal :=
  client_get "call_back/update_call_back" opts VUndef.

Definition delete_call_back (opts : JsVal) : M Store JsVal :=
  client_get "call_back/delete_call_back" opts VUndef.

End Instance.

End Callback.

(* ================================================================= *)
(** ** Vocabulary of the statements *)

(** A stored expiry time that the reading [now] of the clock has reached.
    ([NaN] is no time at all: it is neither past nor future.) *)
Definition expired (expireTime : JsNum) (now : Z) : Prop :=
  forall e, expireTime = Num e -> e <= now.

(** The response body carries no [errcode]: an object without that
    field, or a number or boolean. *)
Definition errcode_absent (body : JsVal) : Prop :=
  match body with
  | VObj props => Js.lookup "errcode" props = None
  | VBool _ | VNum _ => True
  | _ => False
  end.

(** The payload [request] resolves to for a response it accepts. *)
Definition payload (response : JsVal) : JsVal :=
  match Js.get response "data" with
  | Return d => if Js.truthy d then d else response
  | _ => response
  end.

(** The URL after the proxy replacement at the end of [prepare]. *)
Definition proxied (options : Options) (url : string) : Outcome string :=
  match proxy options with
  | Some px =>
      if String.eqb px "" then Return url
      else if Str.any (Str.is_char "$") px then Unmodelled
      else Return (Str.replace_first (host options) px url)
  | None => Return url
  end.

(** The two token endpoints, with the credentials in the query string. *)
Definition gettoken_url (options : Options) : string :=
  (host options ++ "/" ++
   (if sso options
    then "sso/gettoken?corpid=" ++ querystring.escape (appkey options)
         ++ "&corpsecret=" ++ querystring.escape (appsecret options)
    else "gettoken?appkey=" ++ querystring.escape (appkey options)
         ++ "&appsecret=" ++ querystring.escape (appsecret options)))%string.

(** Two computations fail alike: with the same exception, or both
    outside the fragment. *)
Definition failed_as {A B} (x : Outcome A) (y : Outcome B) : Prop :=
  match x, y with
  | Throw e, Throw e' => e = e'
  | Unmodelled, Unmodelled => True
  | _, _ => False
  end.

(** The configured default request options merge into an object: they
    are absent, or a plain object. *)
Definition plain_requestOpts (options : Options) : Prop :=
  exists p, Js.assign1 (VObj [("dataType", VStr "json")]) (requestOpts options)
            = Return (VObj p).

(** The token endpoint, its parameters and the query string they make. *)
Definition gettoken_api (options : Options) : string :=
  if sso options then "sso/gettoken" else "gettoken".

Definition gettoken_data (options : Options) : list (string * JsVal) :=
  if sso options
  then [("corpid", VStr (appkey options)); ("corpsecret", VStr (appsecret options))]
  else [("appkey", VStr (appkey options)); ("appsecret", VStr (appsecret options))].

Definition gettoken_query (options : Options) : string :=
  (if sso options
   then "corpid=" ++ querystring.escape (appkey options)
        ++ "&corpsecret=" ++ querystring.escape (appsecret options)
   else "appkey=" ++ querystring.escape (appkey options)
        ++ "&appsecret=" ++ querystring.escape (appsecret options))%string.

(** The cache holds no token, or one whose expiry time has been reached;
    likewise for a ticket. *)
Definition stale_token (token : option AccessToken.t) (now : Z) : Prop :=
  match token with
  | Some tok => expired (AccessToken.expireTime tok) now
  | None => True
  end.

Definition stale_ticket (ticketToken : option Ticket.t) (now : Z) : Prop :=
  match ticketToken with
  | Some tk => expired (Ticket.expireTime tk) now
  | None => True
  end.

(** The world after the validity check: the clock has been read if
    there was a credential to check. *)
Definition checked {Store A} (credential : option A) (w : World Store) : World Store :=
  match credential with
  | Some _ => {| ticks := S (ticks w); sent := sent w; logged := logged w;
                 backing := backing w |}
  | None => w
  end.

(** A field is blank in an options object: absent, or present with a
    falsy value. *)
Definition blank (props : list (string * JsVal)) (field : string) : Prop :=
  match Js.lookup field props with
  | Some v => Js.truthy v = false
  | None => True
  end.

(** The call is rejected, and the world is as it was before: nothing was
    sent, read or saved. *)
Definition rejects_before_network {Store} (call : M Store JsVal) (w : World Store) : Prop :=
  exists e, call w = (Throw e, w).

(** The order of [keys.sort()] on ASCII keys. *)
Definition string_le (a b : string) : Prop := String.leb a b = true.

(** [{ ...base, ...opts }]: a property of [opts] wins over one of [base]. *)
Definition spread (base : list (string * JsVal)) (opts : JsVal) (k : string)
  : option JsVal :=
  match opts with
  | VObj o => match Js.lookup k o with Some v => Some v | None => Js.lookup k base end
  | _ => Js.lookup k base
  end.

(** One line of the text that is signed. *)
Definition sign_line (props : list (string * JsVal)) (key line : string) : Prop :=
  exists v s, Js.lookup key props = Some v /\ Js.to_string v = Return s /\
              line = (key ++ "=" ++ s)%string.

(** The record [getJSApiConfig] signs, before [opts] is spread over it. *)
Definition sign_base (ticket : JsVal) (stamp : string) (timestamp : Z) (nurl : string)
  : list (string * JsVal) :=
  [("jsapi_ticket", ticket); ("noncestr", VStr ("DingTalk#" ++ stamp));
   ("timestamp", VNum (Num timestamp)); ("url", VStr nurl)].

(** Every key of the record is ASCII text and every value has a string
    form. *)
Definition printable (props : list (string * JsVal)) : Prop :=
  forallb (Str.all querystring.is_ascii) (map fst props) = true /\
  forall k v, Js.lookup k props = Some v -> exists s, Js.to_string v = Return s.

(** What [autoEscapeStr] does to one character. *)
Definition esc (c : ascii) : string :=
  if Url.autoEscape c then Str.percent c else String c EmptyString.

(** Characters of an accepted host part: lower-case letters, digits,
    dots and the colon before the port. *)
Definition host_char (c : ascii) : bool :=
  (Url.label_char c || Str.is_char "." c || Str.is_char ":" c)%bool.

(** A URL cut into scheme, host, path, query (with its ['?']) and fragment
    (with its ['#']), each piece as [Url.parse] expects it. *)
Definition well_formed (sch hp path search hash : string) : bool :=
  ((String.eqb sch "http://" || String.eqb sch "https://")
   && Url.valid_hostname (fst (Str.span (Str.is_char ":") hp))
   && Url.valid_port (snd (Str.span (Str.is_char ":") hp))
   && Str.all Str.is_graphic (path ++ search ++ hash)
   && negb (Str.any Url.query_or_hash path)
   && negb (Str.any (Str.is_char "\") path)
   && (String.eqb path "" || Url.first_is "/" path)
   && (String.eqb search "" || Url.first_is "?" search)
   && negb (Str.any (Str.is_char "#") search)
   && (String.eqb hash "" || Url.first_is "#" hash))%bool.

(** The [protocol] field for a scheme prefix. *)
Definition proto_of (sch : string) : string :=
  if String.eqb sch "http://" then "http:" else "https:".

(** The query object [Url.parse] builds from the search part of a URL. *)
Definition parsed_query (search : string) : Outcome (list (string * JsVal)) :=
  match Url.autoEscapeStr search with
  | EmptyString => Return []
  | String _ qs =>
      if String.eqb qs "" then Return []
      else querystring.parse_segments
             (firstn querystring.maxKeys (Str.split "&" qs)) []
  end.

(** The text [_normalizeUrl] writes for a query object: one [key=value]
    per key, in key order, joined by ['&']. *)
Definition query_text (props : list (string * JsVal)) : Outcome string :=
  obind (omap (fun key =>
                 obind (Js.get (VObj props) key) (fun value =>
                 obind (Js.to_string value) (fun v =>
                 Return (key ++ "=" ++ v)%string)))
              (Js.own_keys props))
        (fun lines => Return (Str.join "&" lines)).

(** The path as [Url.format] prints it. *)
Definition pathname_of (path : string) : string :=
  if String.eqb (Url.autoEscapeStr path) "" then "/" else Url.autoEscapeStr path.




(** A pair written as [key=value]. *)
Definition entry_line (e : string * string) : string :=
  (fst e ++ "=" ++ snd e)%string.




(** What [querystring.escape] does to one character. *)
Definition escape_char (c : ascii) : string :=
  if querystring.noEscape c then String c EmptyString else Str.percent c.

(** A string as it reaches [querystring.parse] when the URL carries it
    percent-encoded. *)
Definition encoded (s : string) : string :=
  Url.autoEscapeStr (querystring.escape s).

(** A pair of ASCII strings. *)
Definition ascii_entry (e : string * string) : Prop :=
  Str.all querystring.is_ascii (fst e) = true /\
  Str.all querystring.is_ascii (snd e) = true.

(** A percent-encoded pair as it reaches [querystring.parse]. *)
Definition encoded_line (e : string * string) : string :=
  (encoded (fst e) ++ "=" ++ encoded (snd e))%string.

(** The query string that carries the pairs percent-encoded. *)
Definition encoded_query (l : list (string * string)) : string :=
  Str.join "&" (map (fun e => querystring.escape (fst e) ++ "="
                              ++ querystring.escape (snd e))%string l).

(** The names [request] keeps for itself. *)
Definition bookkeeping : list string := ["params"; "ignoreAccessToken"; "accessToken"].

(** What [request] hands to the transport of the merged options. *)
Definition transport_opts (merged : list (string * JsVal)) : JsVal :=
  Js.delete (Js.delete (Js.delete (VObj merged) "params") "ignoreAccessToken")
            "accessToken".

(** The query object of a request: [requestOpts.params || {}]. *)
Definition params_of (merged : list (string * JsVal)) : JsVal :=
  match Js.lookup "params" merged with
  | Some p => if Js.truthy p then p else VObj []
  | None => VObj []
  end.

(** Where a request goes once its token is known: the token is written
    into the query object, the query string is appended, the proxy is
    applied. *)
Definition target (options : Options) (url : string) (params token : JsVal)
  : Outcome string :=
  let? p := Js.set params "access_token" token in
  let? qs := querystring.stringify p in
  proxied options (url ++ "?" ++ qs).

(** A property of an answer, [undefined] when the answer lacks it. *)
Definition field (k : string) (props : list (string * JsVal)) : JsVal :=
  match Js.lookup k props with Some x => x | None => VUndef end.

(** [now + (expires_in - 10) * 1000] *)
Definition expiry (now : Z) (expires_in : JsNum) : JsNum :=
  Js.num_add (Num now) (Js.num_mul (Js.num_sub expires_in (Num 10)) (Num 1000)).

(** An integer [z] with [|z| <= 2^53]: up to there every integer is a
    double, so that an operation whose operands and exact result are in
    this range is carried out by JavaScript without rounding. *)
Definition safe (z : Z) : bool := Z.abs z <=? 2 ^ 53.

(** [now + (n - 10) * 1000] is computed without rounding: the clock
    reading, the declared lifetime, the product and the sum are safe
    integers (and then so is [n - 10]). *)
Definition exact_expiry (now n : Z) : bool :=
  (safe now && safe n && safe ((n - 10) * 1000) && safe (now + (n - 10) * 1000))%bool.

(** The configured default request options merge into the object [p]
    and leave the token handling alone: they set none of [params],
    [ignoreAccessToken] and [accessToken] to a truthy value. *)
Definition quiet_requestOpts (options : Options) (p : list (string * JsVal)) : Prop :=
  Js.assign1 (VObj [("dataType", VStr "json")]) (requestOpts options) = Return (VObj p) /\
  blank p "params" /\ blank p "ignoreAccessToken" /\ blank p "accessToken".

(** An object whose values are all strings. *)
Definition string_params (l : list (string * string)) : list (string * JsVal) :=
  map (fun e => (fst e, VStr (snd e))) l.

(** A property that is present with a truthy value. *)
Definition filled (props : list (string * JsVal)) (k : string) : Prop :=
  exists v, Js.lookup k props = Some v /\ Js.truthy v = true.

(** *** The query of a URL, read by hand

    What follows describes the query of a URL without Node's
    [querystring]: the statements about [_normalizeUrl] compare the code
    with it. *)

(** The text a raw key or value of a query stands for: ['+'] for a
    space, ['%'] and two hexadecimal digits, of either case, for the ASCII
    character with that code, any other ASCII character for itself.  A
    ['%'] that is not followed by two hexadecimal digits has no reading
    here, nor has a code above 0x7F. *)
Fixpoint clear_text (raw : string) : option string :=
  match raw with
  | EmptyString => Some EmptyString
  | String c r =>
      if Str.is_char "+" c then option_map (String " ") (clear_text r)
      else if Str.is_char "%" c then
        match r with
        | String h (String l r') =>
            match Str.hex_value h, Str.hex_value l with
            | Some a, Some b =>
                if N.ltb (16 * a + b) 128
                then option_map (String (ascii_of_N (16 * a + b))) (clear_text r')
                else None
            | _, _ => None
            end
        | _ => None
        end
      else if querystring.is_ascii c then option_map (String c) (clear_text r)
      else None
  end.

(** A segment [key=value] cut at its first ['=']; a segment without one
    is a key with the empty value. *)
Definition raw_pair (seg : string) : string * string :=
  (fst (Str.span (Str.is_char "=") seg),
   Str.drop 1 (snd (Str.span (Str.is_char "=") seg))).

(** The raw pairs of the search part of a URL: what stands between the
    ['&'] behind the ['?'], up to the thousandth ['&'], without the empty
    segments. *)
Definition raw_pairs (search : string) : list (string * string) :=
  map raw_pair
    (filter (fun seg => negb (String.eqb seg ""))
       (firstn querystring.maxKeys (Str.split "&" (Str.drop 1 search)))).

(** The pairs in clear, when every key and value has a reading. *)
Fixpoint clear_pairs (raw : list (string * string)) : option (list (string * string)) :=
  match raw with
  | [] => Some []
  | e :: r =>
      match clear_text (fst e), clear_text (snd e), clear_pairs r with
      | Some k, Some v, Some l => Some ((k, v) :: l)
      | _, _, _ => None
      end
  end.

(** The keys, each once, in the order of their first appearance. *)
Fixpoint first_keys (ks : list string) : list string :=
  match ks with
  | [] => []
  | k :: r => k :: filter (fun x => negb (String.eqb x k)) (first_keys r)
  end.

(** The values given to a key, in the order in which they appear. *)
Definition values_of (k : string) (pairs : list (string * string)) : list string :=
  map snd (filter (fun e => String.eqb (fst e) k) pairs).

(** The query [_normalizeUrl] writes for the pairs: one [key=value] per
    key, the values of a repeated key joined by [','], the keys as
    [Object.keys] lists them, the whole joined by ['&'] behind a ['?'];
    nothing at all when there is no pair. *)
Definition query_lines (pairs : list (string * string)) : list (string * string) :=
  map (fun k => (k, Str.join "," (values_of k pairs)))
      (Js.ordered_keys (first_keys (map fst pairs))).

Definition query_part (pairs : list (string * string)) : string :=
  match pairs with
  | [] => ""
  | _ => "?" ++ Str.join "&" (map entry_line (query_lines pairs))
  end.


(** The object [querystring.parse] builds for the pairs: a string for a
    key that appears once, an array of strings for a repeated key. *)
Definition value_of (vs : list string) : JsVal :=
  match vs with
  | [v] => VStr v
  | _ => VArr (map VStr vs)
  end.

Definition object_of (pairs : list (string * string)) : list (string * JsVal) :=
  map (fun k => (k, value_of (values_of k pairs))) (first_keys (map fst pairs)).

(** One pair read by [querystring.parse]. *)
Definition add_pair (obj : list (string * JsVal)) (e : string * string)
  : list (string * JsVal) :=
  querystring.addKeyValue obj (fst e) (snd e).

(** A small setting for concrete runs: default hooks, a clock that starts
    at 1000000 and advances by one per reading, and a remote service that
    answers the n-th request with the n-th entry of a script. *)
Module Example.

Definition options : Options :=
  {| appkey := "KEY"; appsecret := "SECRET"; host := "https://oapi.dingtalk.com";
     proxy := None; sso := false; corpid := VStr "corp";
     requestOpts := VUndef; logger := false |}.

Definition response (data : JsVal) : HttpResult :=
  HttpOk (VObj [("data", data); ("status", VNum (Num 200)); ("headers", VObj [])]).

Definition token_body : JsVal :=
  VObj [("errcode", VNum (Num 0)); ("access_token", VStr "TOK");
        ("expires_in", VNum (Num 7200))].

Definition ticket_body : JsVal :=
  VObj [("errcode", VNum (Num 0)); ("ticket", VStr "T");
        ("expires_in", VNum (Num 7200))].

Definition error_body : JsVal :=
  VObj [("errcode", VNum (Num 1)); ("errmsg", VStr "bad")].

Definition env (script : list HttpResult) : Env :=
  {| clock := fun n => 1000000 + Z.of_nat n;
     remote := fun n _ => nth n script (HttpFail VUndef) |}.

Definition fresh : World Memory :=
  {| ticks := 0; sent := []; logged := [];
     backing := {| store := None; ticketStore := [] |} |}.

(** A client whose cache holds the token [TOK] until [expireTime]. *)
Definition holding (expireTime : Z) : World Memory :=
  {| ticks := 0; sent := []; logged := [];
     backing := {| store := Some (AccessToken.new (VStr "TOK") (Num expireTime));
                   ticketStore := [] |} |}.

(** The same service, seen by a client whose clock starts later. *)
Definition later (script : list HttpResult) : Env :=
  {| clock := fun n => 2000000 + 7 * Z.of_nat n;
     remote := fun n _ => nth n script (HttpFail VUndef) |}.

(** A client whose cache holds the token [TOK] and the ticket [T]. *)
Definition ready : World Memory :=
  {| ticks := 5; sent := []; logged := [];
     backing := {| store := Some (AccessToken.new (VStr "TOK") (Num 9000000));
                   ticketStore := [("jsapi", Ticket.new (VStr "T") (Num 9000000))] |} |}.

Definition pinned : list (string * JsVal) :=
  [("noncestr", VStr "N"); ("timestamp", VNum (Num 1000))].

End Example.

(* ================================================================= *)
(** * Properties *)

(** ** SHA-1 *)

(** The digests of the empty message and of the one-block and two-block
    messages of FIPS 180. *)
Lemma sha1_known_answers :
  crypto.sha1_hex "" = "da39a3ee5e6b4b0d3255bfef95601890afd80709" /\
  crypto.sha1_hex "abc" = "a9993e364706816aba3e25717850c26c9cd0d89d" /\
  crypto.sha1_hex "abcdbcdecdefdefgefghfghighijhijkijkljklmklmnlmnomnopnopq"
  = "84983e441c3bd26ebaae4aa1f95129e5e54670f1".
Proof. repeat split; vm_compute; reflexivity. Qed.

(** ** Plain objects *)

Lemma get_own (props : list (string * JsVal)) (k : string) (v : JsVal) :
  Js.lookup k props = Some v -> Js.get (VObj props) k = Return v.
Proof. intros H. simpl. rewrite H. reflexivity. Qed.

Lemma get_plain (props : list (string * JsVal)) (k : string) :
  Js.inherited k = false ->
  Js.get (VObj props) k =
  Return (match Js.lookup k props with Some x => x | None => VUndef end).
Proof. intros H. simpl. destruct (Js.lookup k props); [reflexivity|]. now rewrite H. Qed.

Lemma set_object (props : list (string * JsVal)) (k : string) (x : JsVal) (t : JsVal) :
  Js.set (VObj props) k x = Return t -> exists props', t = VObj props'.
Proof.
  simpl. destruct (String.eqb k "__proto__"); [discriminate|].
  intros H. injection H as <-. eauto.
Qed.

Lemma assign_props_object (ks : list string) (src : list (string * JsVal)) :
  forall (props : list (string * JsVal)) (t : JsVal),
    Js.assign_props (VObj props) ks src = Return t -> exists props', t = VObj props'.
Proof.
  induction ks as [|k ks IH]; intros props t H; cbn [Js.assign_props] in H.
  - injection H as <-. eauto.
  - destruct (Js.lookup k src) as [x|]; [|eapply IH; eassumption].
    destruct (Js.set (VObj props) k x) as [t1| |] eqn:E; cbn [obind] in H;
      try discriminate.
    apply set_object in E as [p1 ->]. eapply IH; eassumption.
Qed.

Lemma assign1_object (props : list (string * JsVal)) (source t : JsVal) :
  Js.assign1 (VObj props) source = Return t -> exists props', t = VObj props'.
Proof.
  destruct source; simpl; intros H; try (injection H as <-; eauto); try discriminate.
  - destruct (String.eqb s ""); [injection H as <-; eauto | discriminate].
  - eapply assign_props_object; eauto.
Qed.

Lemma assign_object (sources : list JsVal) :
  forall (props : list (string * JsVal)) (t : JsVal),
    Js.assign (VObj props) sources = Return t -> exists props', t = VObj props'.
Proof.
  induction sources as [|s r IH]; intros props t H; cbn [Js.assign] in H.
  - injection H as <-. eauto.
  - destruct (Js.assign1 (VObj props) s) as [t1| |] eqn:E; cbn [obind] in H;
      try discriminate.
    apply assign1_object in E as [p1 ->]. eapply IH; eassumption.
Qed.

(** ** Runs *)

Lemma bind_Return {S A B} (c : M S A) (k : A -> M S B) (w w1 : World S) (a : A) :
  c w = (Return a, w1) -> bind c k w = k a w1.
Proof. intros H. unfold bind. now rewrite H. Qed.

Lemma bind_Throw {S A B} (c : M S A) (k : A -> M S B) (w w1 : World S) (e : JsError) :
  c w = (Throw e, w1) -> bind c k w = (Throw e, w1).
Proof. intros H. unfold bind. now rewrite H. Qed.

Lemma bind_Return_inv {S A B} (c : M S A) (k : A -> M S B) (w w' : World S) (b : B) :
  bind c k w = (Return b, w') ->
  exists a w1, c w = (Return a, w1) /\ k a w1 = (Return b, w').
Proof.
  unfold bind. destruct (c w) as [[a|e|] w1]; intros H; try discriminate. eauto.
Qed.

Lemma world_eta {S} (w : World S) :
  {| ticks := ticks w; sent := sent w; logged := logged w; backing := backing w |} = w.
Proof. now destruct w. Qed.

Lemma lift_Return_inv {S A} (x : Outcome A) (w w1 : World S) (a : A) :
  lift x w = (Return a, w1) -> x = Return a /\ w1 = w.
Proof. unfold lift. intros H. injection H as -> ->. auto. Qed.

Lemma ret_inv {S A} (x a : A) (w w1 : World S) :
  ret x w = (Return a, w1) -> x = a /\ w1 = w.
Proof. unfold ret. intros H. injection H as -> ->. auto. Qed.

(** The options handed to the transport are a plain object. *)
Lemma prepare_object {Store} (options : Options)
  (g : M Store JsVal) (url : string) (opts : JsVal) (w w1 : World Store)
  (u : string) (ro : JsVal) :
  Client.prepare options g url opts w = (Return (u, ro), w1) ->
  exists props, ro = VObj props.
Proof.
  unfold Client.prepare. intros H.
  apply bind_Return_inv in H as (r0 & w2 & H0 & H).
  apply lift_Return_inv in H0 as [H0 ->].
  apply assign_object in H0 as [p0 ->].
  apply bind_Return_inv in H as (? & ? & _ & H).
  apply bind_Return_inv in H as (? & ? & _ & H).
  apply bind_Return_inv in H as (? & ? & _ & H).
  apply bind_Return_inv in H as (? & ? & _ & H).
  apply bind_Return_inv in H as (? & ? & _ & H).
  apply ret_inv in H as [H _]. injection H as _ <-.
  simpl. eauto.
Qed.

Lemma get_data_object (response body : JsVal) (bprops : list (string * JsVal)) :
  Js.get response "data" = Return (VObj bprops) ->
  exists rprops, response = VObj rprops.
Proof.
  destruct response; simpl; try discriminate; eauto.
Qed.

(** The request options and the response are plain objects there, so the
    logger's arguments are all defined. *)
Lemma unwrap_body {Store} (options : Options)
  (url : string) (roprops rprops : list (string * JsVal)) (body : JsVal)
  (w : World Store) :
  Js.get (VObj rprops) "data" = Return body ->
  exists w',
    sent w' = sent w /\ backing w' = backing w /\ ticks w' = ticks w /\
    Client.unwrap options url (VObj roprops) (VObj rprops) w =
    (if Js.truthy body then
       match Js.get body "errcode" with
       | Return errcode =>
           if Js.strict_ne_zero errcode
           then Throw (DingTalkClientResponseError url errcode body)
           else Return body
       | Throw e => Throw e
       | Unmodelled => Unmodelled
       end
     else Return (VObj rprops), w').
Proof.
  intros Hd. unfold Client.unwrap.
  rewrite (bind_Return _ _ w w body) by (unfold lift; now rewrite Hd).
  destruct (logger options).
  - exists {| ticks := ticks w; sent := sent w;
              logged := logged w ++
                [LogInfo (Client.or_GET
                            match Js.lookup "method" roprops with
                            | Some x => x | None => VUndef end)
                         url
                         match Js.lookup "status" rprops with
                         | Some x => x | None => VUndef end
                         match Js.lookup "headers" rprops with
                         | Some x => x | None => VUndef end
                         body];
              backing := backing w |}.
    split; [reflexivity|]. split; [reflexivity|]. split; [reflexivity|].
    unfold bind at 1. unfold bind at 1. rewrite get_plain by reflexivity.
    unfold lift at 1. cbv beta iota.
    unfold bind at 1. rewrite get_plain by reflexivity.
    unfold lift at 1. cbv beta iota.
    unfold bind at 1. rewrite get_plain by reflexivity.
    unfold lift at 1. cbv beta iota.
    unfold Client.log. cbv beta iota.
    destruct (Js.truthy body); [|reflexivity].
    unfold bind, lift. destruct (Js.get body "errcode"); try reflexivity.
    destruct (Js.strict_ne_zero a); reflexivity.
  - exists w. split; [reflexivity|]. split; [reflexivity|]. split; [reflexivity|].
    unfold bind at 1. unfold ret at 1.
    destruct (Js.truthy body); [|reflexivity].
    unfold bind, lift. destruct (Js.get body "errcode"); try reflexivity.
    destruct (Js.strict_ne_zero a); reflexivity.
Qed.

(** What [request] does once its own HTTP call has been answered. *)
Lemma request_with_answered {Store} (options : Options) (env : Env)
  (g : M Store JsVal) (url : string) (opts : JsVal) (w w1 : World Store)
  (u : string) (ro : JsVal) (rprops : list (string * JsVal)) (body : JsVal) :
  Client.prepare options g url opts w = (Return (u, ro), w1) ->
  remote env (List.length (sent w1)) {| req_url := u; req_opts := ro |}
    = HttpOk (VObj rprops) ->
  Js.get (VObj rprops) "data" = Return body ->
  exists w',
    sent w' = sent w1 ++ [{| req_url := u; req_opts := ro |}] /\
    backing w' = backing w1 /\ ticks w' = ticks w1 /\
    Client.request_with options env g url opts w =
    (if Js.truthy body then
       match Js.get body "errcode" with
       | Return errcode =>
           if Js.strict_ne_zero errcode
           then Throw (DingTalkClientResponseError u errcode body)
           else Return body
       | Throw e => Throw e
       | Unmodelled => Unmodelled
       end
     else Return (VObj rprops), w').
Proof.
  intros Hp Hr Hd.
  destruct (prepare_object _ _ _ _ _ _ _ _ Hp) as [roprops ->].
  unfold Client.request_with.
  rewrite (bind_Return _ _ _ _ _ Hp). cbn [fst snd].
  unfold bind at 1. unfold Client.exchange, try_catch, Client.urllib_request.
  rewrite Hr.
  match goal with |- context [Client.unwrap options u (VObj roprops) (VObj rprops) ?w2] =>
    destruct (unwrap_body options u roprops rprops body w2 Hd)
      as (w' & Hs & Hb & Ht & Hu) end.
  exists w'. rewrite Hs, Hb, Ht. cbn [sent backing ticks].
  repeat (split; [reflexivity|]). exact Hu.
Qed.

(** C8: a response whose body carries a numeric status other than zero
    makes [request] throw the tagged error with that status as [code] and
    the whole body as [data]; with status zero the body is returned as it
    is. *)
Theorem request_envelope_status {Store} {hooks : Hooks Store}
  (options : Options) (env : Env) (url : string) (opts : JsVal)
  (w w1 : World Store) (u : string) (ro response : JsVal)
  (bprops : list (string * JsVal)) (c : Z) :
  Client.prepare options (Client.getAccessToken options env) url opts w
    = (Return (u, ro), w1) ->
  remote env (List.length (sent w1)) {| req_url := u; req_opts := ro |}
    = HttpOk response ->
  Js.get response "data" = Return (VObj bprops) ->
  Js.lookup "errcode" bprops = Some (VNum (Num c)) ->
  let r := Client.request options env url opts w in
  (c <> 0 ->
   exists e, outcome r = Throw e /\
             err_name e = "DingTalkClientResponseError" /\
             err_code e = VNum (Num c) /\ err_data e = VObj bprops) /\
  (c = 0 -> outcome r = Return (VObj bprops)).
Proof.
  intros Hp Hr Hd Hc r.
  destruct (get_data_object _ (VObj bprops) _ Hd) as [rprops ->].
  destruct (request_with_answered options env _ url opts w w1 u ro rprops _ Hp Hr Hd)
    as (w' & _ & _ & _ & Hrun).
  subst r. unfold Client.request. rewrite Hrun. cbn [Js.truthy outcome fst].
  rewrite (get_own _ _ _ Hc). split.
  - intros Hne. exists (DingTalkClientResponseError u (VNum (Num c)) (VObj bprops)).
    destruct c; try contradiction; simpl; auto.
  - intros ->. reflexivity.
Qed.

Lemma request_envelope_status_witness :
  exists e,
    outcome (Client.request Example.options (Example.env [Example.response Example.error_body])
               "https://oapi.dingtalk.com/user/get"
               (VObj [("accessToken", VStr "TOK")]) Example.fresh) = Throw e /\
    err_name e = "DingTalkClientResponseError" /\
    err_code e = VNum (Num 1) /\ err_data e = Example.error_body.
Proof.
  refine (proj1 (request_envelope_status (hooks := memory_hooks) Example.options
            (Example.env [Example.response Example.error_body])
            "https://oapi.dingtalk.com/user/get"
            (VObj [("accessToken", VStr "TOK")]) Example.fresh Example.fresh
            "https://oapi.dingtalk.com/user/get?access_token=TOK"
            (VObj [("dataType", VStr "json")])
            (VObj [("data", Example.error_body); ("status", VNum (Num 200));
                   ("headers", VObj [])])
            [("errcode", VNum (Num 1)); ("errmsg", VStr "bad")] 1
            _ _ _ _) _).
  - reflexivity.
  - reflexivity.
  - reflexivity.
  - reflexivity.
  - discriminate.
Defined.

Lemma errcode_absent_get (body : JsVal) :
  errcode_absent body -> Js.get body "errcode" = Return VUndef.
Proof.
  destruct body; simpl; try contradiction; try reflexivity.
  intros ->. reflexivity.
Qed.

(** C10: a truthy body without [errcode] makes [request] throw
    [DingTalkClientResponseError] (the test is [errcode !== 0], and
    [undefined !== 0]); with a falsy body, [request] returns the response
    object itself. *)
Theorem request_envelope_without_status {Store} {hooks : Hooks Store}
  (options : Options) (env : Env) (url : string) (opts : JsVal)
  (w w1 : World Store) (u : string) (ro : JsVal)
  (rprops : list (string * JsVal)) (body : JsVal) :
  Client.prepare options (Client.getAccessToken options env) url opts w
    = (Return (u, ro), w1) ->
  remote env (List.length (sent w1)) {| req_url := u; req_opts := ro |}
    = HttpOk (VObj rprops) ->
  Js.get (VObj rprops) "data" = Return body ->
  let r := Client.request options env url opts w in
  (Js.truthy body = true -> errcode_absent body ->
   exists e, outcome r = Throw e /\
             err_name e = "DingTalkClientResponseError" /\
             err_code e = VUndef /\ err_data e = body) /\
  (Js.truthy body = false -> outcome r = Return (VObj rprops)).
Proof.
  intros Hp Hr Hd r.
  destruct (request_with_answered options env _ url opts w w1 u ro rprops _ Hp Hr Hd)
    as (w' & _ & _ & _ & Hrun).
  subst r. unfold Client.request. rewrite Hrun. split.
  - intros Ht Ha. rewrite Ht, (errcode_absent_get _ Ha).
    exists (DingTalkClientResponseError u VUndef body). simpl. auto.
  - intros Hf. rewrite Hf. reflexivity.
Qed.

Lemma request_envelope_without_status_witness :
  (exists e,
     outcome (Client.request Example.options
                (Example.env [Example.response (VObj [("errmsg", VStr "ok")])])
                "https://oapi.dingtalk.com/user/get"
                (VObj [("accessToken", VStr "TOK")]) Example.fresh) = Throw e /\
     err_name e = "DingTalkClientResponseError" /\
     err_code e = VUndef /\ err_data e = VObj [("errmsg", VStr "ok")]) /\
  outcome (Client.request Example.options
             (Example.env [Example.response VNull])
             "https://oapi.dingtalk.com/user/get"
             (VObj [("accessToken", VStr "TOK")]) Example.fresh)
  = Return (VObj [("data", VNull); ("status", VNum (Num 200)); ("headers", VObj [])]).
Proof.
  split.
  - refine (proj1 (request_envelope_without_status (hooks := memory_hooks)
              Example.options
              (Example.env [Example.response (VObj [("errmsg", VStr "ok")])])
              "https://oapi.dingtalk.com/user/get"
              (VObj [("accessToken", VStr "TOK")]) Example.fresh Example.fresh
              "https://oapi.dingtalk.com/user/get?access_token=TOK"
              (VObj [("dataType", VStr "json")])
              [("data", VObj [("errmsg", VStr "ok")]); ("status", VNum (Num 200));
               ("headers", VObj [])]
              (VObj [("errmsg", VStr "ok")]) _ _ _) _ _);
      reflexivity.
  - refine (proj2 (request_envelope_without_status (hooks := memory_hooks)
              Example.options
              (Example.env [Example.response VNull])
              "https://oapi.dingtalk.com/user/get"
              (VObj [("accessToken", VStr "TOK")]) Example.fresh Example.fresh
              "https://oapi.dingtalk.com/user/get?access_token=TOK"
              (VObj [("dataType", VStr "json")])
              [("data", VNull); ("status", VNum (Num 200)); ("headers", VObj [])]
              VNull _ _ _) _);
      reflexivity.
Defined.

(** C2: a stored token whose [expireTime] lies after the current reading
    of the clock is returned as it is; no request is sent, nothing is
    logged, and the backing store is left alone.  Only the clock has been
    read once. *)
Theorem getAccessToken_cached {Store} {hooks : Hooks Store}
  (options : Options) (env : Env) (w : World Store)
  (tok : AccessToken.t) (e : Z) :
  getToken (backing w) = Return (Some tok) ->
  AccessToken.expireTime tok = Num e ->
  clock env (ticks w) < e ->
  Client.getAccessToken options env w =
  (Return (AccessToken.accessToken tok),
   {| ticks := S (ticks w); sent := sent w; logged := logged w;
      backing := backing w |}).
Proof.
  intros Hload He Hlt.
  unfold Client.getAccessToken, bind, Client.load. rewrite Hload.
  cbn. unfold AccessToken.isValid. cbn. rewrite He. cbn.
  destruct (Z.ltb_spec (clock env (ticks w)) e); [reflexivity | lia].
Qed.

Lemma getAccessToken_cached_witness :
  Client.getAccessToken Example.options (Example.env []) (Example.holding 2000000) =
  (Return (VStr "TOK"),
   {| ticks := 1; sent := []; logged := [];
      backing := backing (Example.holding 2000000) |}).
Proof.
  refine (getAccessToken_cached (hooks := memory_hooks) Example.options
            (Example.env []) (Example.holding 2000000)
            (AccessToken.new (VStr "TOK") (Num 2000000)) 2000000 _ _ _).
  - reflexivity.
  - reflexivity.
  - reflexivity.
Defined.

(** ** Fetching a token *)

Lemma lookup_update_same {A} (k : string) (v : A) (props : list (string * A)) :
  Js.lookup k (Js.update k v props) = Some v.
Proof.
  induction props as [|[k' v'] r IH]; simpl.
  - now rewrite String.eqb_refl.
  - destruct (String.eqb k k') eqn:E; simpl; rewrite E; auto.
Qed.

Lemma lookup_update_other {A} (k k' : string) (v : A) (props : list (string * A)) :
  k <> k' -> Js.lookup k (Js.update k' v props) = Js.lookup k props.
Proof.
  intros Hne. induction props as [|[k2 v2] r IH]; simpl.
  - destruct (String.eqb_spec k k'); [contradiction | reflexivity].
  - destruct (String.eqb_spec k' k2) as [->|]; simpl.
    + destruct (String.eqb_spec k k2); [contradiction | reflexivity].
    + now rewrite IH.
Qed.

Lemma assign_props_outcome (ks : list string) (src : list (string * JsVal)) :
  forall props, Js.assign_props (VObj props) ks src = Unmodelled \/
                exists props', Js.assign_props (VObj props) ks src = Return (VObj props').
Proof.
  induction ks as [|k ks IH]; intros props; cbn [Js.assign_props]; eauto.
  destruct (Js.lookup k src) as [x|]; [|apply IH].
  simpl. destruct (String.eqb k "__proto__"); simpl; auto.
Qed.

(** Copying into a plain object never throws. *)
Lemma assign1_outcome (props : list (string * JsVal)) (source : JsVal) :
  Js.assign1 (VObj props) source = Unmodelled \/
  exists props', Js.assign1 (VObj props) source = Return (VObj props').
Proof.
  destruct source; simpl; eauto.
  - destruct (String.eqb s ""); eauto.
  - apply assign_props_outcome.
Qed.

Lemma append_assoc (a b c : string) : ((a ++ b) ++ c = a ++ (b ++ c))%string.
Proof. induction a; simpl; congruence. Qed.

Lemma append_empty_r (a : string) : (a ++ "")%string = a.
Proof. induction a; simpl; congruence. Qed.

Lemma prefix_app (p s : string) : String.prefix p (p ++ s) = true.
Proof.
  induction p as [|c p IH]; simpl.
  - now destruct s.
  - destruct (Ascii.ascii_dec c c); [exact IH | contradiction].
Qed.

Lemma drop_app (p s : string) : Str.drop (String.length p) (p ++ s) = s.
Proof. induction p; simpl; auto. Qed.

Lemma replace_first_prefix (pat by_ s : string) :
  Str.replace_first pat by_ (pat ++ s) = (by_ ++ s)%string.
Proof.
  destruct pat as [|c pat]; simpl.
  - destruct s; simpl; reflexivity.
  - destruct (Ascii.ascii_dec c c) as [_|]; [|contradiction].
    rewrite prefix_app, drop_app. reflexivity.
Qed.

(** The request that fetches the access token carries [ignoreAccessToken:
    true]: preparing it needs no token, whatever method would provide
    one, and changes nothing. *)
Lemma gettoken_request_needs_no_token {Store} (options : Options)
  (g : M Store JsVal) (w : World Store) (api : string) (data : list (string * JsVal))
  (p : list (string * JsVal)) (qs : string) :
  Js.assign1 (VObj [("dataType", VStr "json")]) (requestOpts options) = Return (VObj p) ->
  querystring.stringify (VObj data) = Return qs ->
  Client.prepare options g (host options ++ "/" ++ api)
    (VObj [("params", VObj data); ("ignoreAccessToken", VBool true)]) w =
  (match proxied options (host options ++ "/" ++ api ++ "?" ++ qs) with
   | Return u =>
       Return (u, Js.delete (Js.delete (Js.delete
                 (VObj (Js.update "ignoreAccessToken" (VBool true)
                          (Js.update "params" (VObj data) p)))
                 "params") "ignoreAccessToken") "accessToken")
   | Throw e => Throw e
   | Unmodelled => Unmodelled
   end, w).
Proof.
  intros Ha Hq. unfold Client.prepare.
  unfold bind at 1. unfold lift at 1. cbn [Js.assign]. rewrite Ha. cbn [obind].
  change (Js.assign1 (VObj p) (VObj [("params", VObj data); ("ignoreAccessToken", VBool true)]))
    with (Return (VObj (Js.update "ignoreAccessToken" (VBool true)
                          (Js.update "params" (VObj data) p)))).
  cbn [obind].
  unfold bind at 1. unfold lift at 1. rewrite get_plain by reflexivity.
  rewrite lookup_update_other by discriminate. rewrite lookup_update_same.
  cbn [Js.truthy].
  unfold bind at 1. unfold lift at 1. rewrite get_plain by reflexivity.
  rewrite lookup_update_same. cbn [Js.truthy negb].
  unfold bind at 1. unfold ret at 1.
  unfold bind at 1. unfold lift at 1. rewrite Hq.
  unfold proxied.
  replace ((host options ++ "/" ++ api) ++ "?" ++ qs)%string
    with (host options ++ "/" ++ api ++ "?" ++ qs)%string
    by (rewrite !append_assoc; reflexivity).
  destruct (proxy options) as [px|]; [|reflexivity].
  destruct (String.eqb px ""); [reflexivity|].
  destruct (Str.any (Str.is_char "$") px); reflexivity.
Qed.

Ltac break_match :=
  match goal with
  | |- context [match ?x with _ => _ end] => destruct x eqn:?
  | H : context [match ?x with _ => _ end] |- _ => destruct x eqn:?
  end.

Ltac pair_inv :=
  repeat match goal with
         | H : (_, _) = (_, _) |- _ => inversion H; clear H; subst
         end.

Ltac run_cases :=
  repeat (first [ progress cbn [fst snd ticks sent logged backing] in *
                | break_match ]).

Lemma exchange_frame {Store} (options : Options) (env : Env) (u : string)
  (ro : JsVal) (w w' : World Store) (o : Outcome JsVal) :
  Client.exchange options env u ro w = (o, w') ->
  sent w' = sent w ++ [{| req_url := u; req_opts := ro |}] /\
  ticks w' = ticks w /\ backing w' = backing w /\
  forall v, o = Return v ->
            remote env (List.length (sent w)) {| req_url := u; req_opts := ro |} = HttpOk v.
Proof.
  unfold Client.exchange, try_catch, Client.urllib_request, bind, throw, lift, ret, Client.log.
  intros H. run_cases; pair_inv; cbn; repeat split; try congruence.
Qed.

Lemma unwrap_frame {Store} (options : Options) (u : string)
  (ro response : JsVal) (w w' : World Store) (o : Outcome JsVal) :
  Client.unwrap options u ro response w = (o, w') ->
  sent w' = sent w /\ ticks w' = ticks w /\ backing w' = backing w /\
  forall v, o = Return v -> v = payload response.
Proof.
  unfold Client.unwrap, payload, bind, throw, lift, ret, Client.log.
  intros H. run_cases; pair_inv; cbn; repeat split; try congruence.
Qed.

Lemma request_with_frame {Store} (options : Options) (env : Env)
  (g : M Store JsVal) (url : string) (opts : JsVal) (w w' : World Store)
  (o : Outcome JsVal) :
  Client.request_with options env g url opts w = (o, w') ->
  (exists o1, Client.prepare options g url opts w = (o1, w') /\ failed_as o1 o) \/
  exists u ro w1,
    Client.prepare options g url opts w = (Return (u, ro), w1) /\
    sent w' = sent w1 ++ [{| req_url := u; req_opts := ro |}] /\
    ticks w' = ticks w1 /\ backing w' = backing w1 /\
    forall v, o = Return v ->
      exists response,
        remote env (List.length (sent w1)) {| req_url := u; req_opts := ro |}
          = HttpOk response /\ v = payload response.
Proof.
  unfold Client.request_with. unfold bind at 1.
  destruct (Client.prepare options g url opts w) as [[[u ro]|e|] w1] eqn:Hp.
  - cbn [fst snd]. unfold bind at 1.
    destruct (Client.exchange options env u ro w1) as [[resp|e|] w2] eqn:He;
      apply exchange_frame in He as (Hs & Ht & Hb & Hr); intros H.
    + right. exists u, ro, w1. split; [reflexivity|].
      apply unwrap_frame in H as (Hs' & Ht' & Hb' & Hv).
      rewrite Hs', Ht', Hb'. repeat (split; [assumption|]).
      intros v ->. exists resp. split; [now apply Hr | now apply Hv].
    + right. exists u, ro, w1. inversion H; subst.
      repeat (split; [assumption || reflexivity|]). discriminate.
    + right. exists u, ro, w1. inversion H; subst.
      repeat (split; [assumption || reflexivity|]). discriminate.
  - intros H. inversion H; subst. left. exists (Throw e). split; [reflexivity|]. reflexivity.
  - intros H. inversion H; subst. left. exists Unmodelled. split; reflexivity.
Qed.

(** How the token request goes: either the options are outside the model
    and nothing happens, or exactly one request leaves, to [u]. *)
Lemma gettoken_get {Store} (options : Options) (env : Env)
  (g : M Store JsVal) (w w' : World Store) (api : string)
  (data : list (string * JsVal)) (qs : string) (o : Outcome JsVal) :
  api <> "" ->
  querystring.stringify (VObj data) = Return qs ->
  Client.get_with options env g api (VObj data)
    (VObj [("ignoreAccessToken", VBool true)]) w = (o, w') ->
  (o = Unmodelled /\ w' = w) \/
  exists u ro,
    proxied options (host options ++ "/" ++ api ++ "?" ++ qs) = Return u /\
    sent w' = sent w ++ [{| req_url := u; req_opts := ro |}] /\
    ticks w' = ticks w /\ backing w' = backing w /\
    forall v, o = Return v ->
      exists response,
        remote env (List.length (sent w)) {| req_url := u; req_opts := ro |}
          = HttpOk response /\ v = payload response.
Proof.
  intros Hapi Hq. unfold Client.get_with, assert.
  assert (Js.truthy (VStr api) = true) as ->.
  { simpl. destruct (String.eqb_spec api ""); [contradiction | reflexivity]. }
  unfold bind at 1. unfold ret at 1.
  unfold bind at 1. unfold lift at 1.
  change (Js.assign (VObj [("params", VObj data)]) [VObj [("ignoreAccessToken", VBool true)]])
    with (Return (A := JsVal) (VObj [("params", VObj data); ("ignoreAccessToken", VBool true)])).
  intros H. apply request_with_frame in H.
  destruct (assign1_outcome [("dataType", VStr "json")] (requestOpts options))
    as [Hu | [p Hp]].
  - left. destruct H as [(o1 & Hp & Hf) | (u & ro & w1 & Hp & _)];
      unfold Client.prepare, bind, lift in Hp; cbn [Js.assign] in Hp;
      rewrite Hu in Hp; cbn [obind] in Hp; inversion Hp; subst.
    destruct o; try contradiction. auto.
  - rewrite (gettoken_request_needs_no_token options g w api data p qs Hp Hq) in H.
    destruct (proxied options (host options ++ "/" ++ api ++ "?" ++ qs)) as [u0|e|] eqn:Hpx.
    + right. destruct H as [(o1 & Hp' & Hf) | (u & ro & w1 & Hp' & Hs & Ht & Hb & Hv)].
      * inversion Hp'; subst. contradiction.
      * inversion Hp'; subst. eexists u, _. split; [reflexivity|]. eauto.
    + unfold proxied in Hpx. destruct (proxy options) as [px|]; try discriminate.
      destruct (String.eqb px ""); try discriminate.
      destruct (Str.any (Str.is_char "$") px); discriminate.
    + left. destruct H as [(o1 & Hp' & Hf) | (u & ro & w1 & Hp' & _)];
        inversion Hp'; subst. destruct o; try contradiction. auto.
Qed.

Lemma gettoken_stringify (options : Options) :
  querystring.stringify (VObj (gettoken_data options)) = Return (gettoken_query options).
Proof.
  unfold gettoken_data, gettoken_query. destruct (sso options); cbn;
    rewrite ?append_empty_r, ?append_assoc; reflexivity.
Qed.

Lemma gettoken_url_eq (options : Options) :
  (host options ++ "/" ++ gettoken_api options ++ "?" ++ gettoken_query options)%string
  = gettoken_url options.
Proof.
  unfold gettoken_url, gettoken_api, gettoken_query. destruct (sso options); reflexivity.
Qed.

Lemma fetchAccessToken_unfold {Store} {hooks : Hooks Store} (options : Options) (env : Env) :
  Client.fetchAccessToken options env =
  bind (Client.get_with options env Client.nested_getAccessToken (gettoken_api options)
          (VObj (gettoken_data options)) (VObj [("ignoreAccessToken", VBool true)]))
    (fun response =>
     bind (lift (Js.get response "access_token")) (fun accessToken =>
     bind (lift (Js.get response "expires_in")) (fun expires_in =>
     bind (Client.Date_now env) (fun now =>
     bind (lift (Js.to_number expires_in)) (fun n =>
     bind (Client.save (saveToken (AccessToken.new accessToken
             (Js.num_add (Num now) (Js.num_mul (Js.num_sub n (Num 10)) (Num 1000))))))
          (fun _ => ret accessToken)))))).
Proof.
  unfold Client.fetchAccessToken, gettoken_api, gettoken_data.
  destruct (sso options); reflexivity.
Qed.

Lemma gettoken_api_nonempty (options : Options) : gettoken_api options <> "".
Proof. unfold gettoken_api. destruct (sso options); discriminate. Qed.

(** A refresh sends exactly one request, to the token endpoint, and what
    it returns is the [access_token] of the answer. *)
Lemma fetchAccessToken_frame {Store} {hooks : Hooks Store} (options : Options)
  (env : Env) (w w' : World Store) (o : Outcome JsVal) :
  Client.fetchAccessToken options env w = (o, w') ->
  (o = Unmodelled /\ sent w' = sent w) \/
  exists rq,
    proxied options (gettoken_url options) = Return (req_url rq) /\
    sent w' = sent w ++ [rq] /\
    forall v, o = Return v ->
      exists response,
        remote env (List.length (sent w)) rq = HttpOk response /\
        Js.get (payload response) "access_token" = Return v.
Proof.
  rewrite fetchAccessToken_unfold. unfold bind at 1.
  destruct (Client.get_with _ _ _ _ _ _ w) as [o1 w1] eqn:Hget.
  apply (gettoken_get options env _ w w1 _ _ _ o1 (gettoken_api_nonempty options)
           (gettoken_stringify options)) in Hget.
  rewrite gettoken_url_eq in Hget.
  destruct Hget as [[-> ->] | (u & ro & Hpx & Hs & Ht & Hb & Hv)].
  - intros H. inversion H; subst. auto.
  - intros H. right. exists {| req_url := u; req_opts := ro |}.
    split; [exact Hpx|].
    destruct o1 as [resp|e|].
    + destruct (Hv resp eq_refl) as (response & Hr & ->).
      unfold bind, lift, ret, Client.Date_now, Client.save in H.
      run_cases; pair_inv; cbn; split; try assumption; try congruence.
      all: intros v Hv'; inversion Hv'; subst; eauto.
    + inversion H; subst. split; [assumption | discriminate].
    + inversion H; subst. split; [assumption | discriminate].
Qed.

Lemma expired_not_lt (expireTime : JsNum) (now : Z) :
  expired expireTime now -> Js.num_lt (Num now) expireTime = false.
Proof.
  unfold expired. destruct expireTime as [e|]; simpl; [|reflexivity].
  intros H. specialize (H e eq_refl). apply Z.ltb_ge. exact H.
Qed.

Lemma getAccessToken_stale {Store} {hooks : Hooks Store} (options : Options)
  (env : Env) (w : World Store) (token : option AccessToken.t) :
  getToken (backing w) = Return token ->
  stale_token token (clock env (ticks w)) ->
  Client.getAccessToken options env w =
  Client.fetchAccessToken options env (checked token w).
Proof.
  intros Hload Hstale. unfold Client.getAccessToken.
  unfold bind at 1. unfold Client.load at 1. rewrite Hload.
  destruct token as [tok|]; cbn [stale_token checked] in *.
  - unfold bind at 1. unfold bind at 1. unfold Client.Date_now at 1.
    unfold ret at 1. unfold AccessToken.isValid. cbn [AccessToken.expireTime].
    rewrite (expired_not_lt _ _ Hstale). reflexivity.
  - unfold bind at 1. unfold ret at 1. reflexivity.
Qed.

Lemma getAccessToken_sends {Store} {hooks : Hooks Store} (options : Options)
  (env : Env) (w w' : World Store) (o : Outcome JsVal) :
  Client.getAccessToken options env w = (o, w') ->
  exists pre, sent w' = sent w ++ pre.
Proof.
  unfold Client.getAccessToken. unfold bind at 1. unfold Client.load at 1.
  destruct (getToken (backing w)) as [[tok|]| |].
  - unfold bind at 1. unfold bind at 1. unfold Client.Date_now at 1. unfold ret at 1.
    destruct (AccessToken.isValid _ _).
    + unfold ret. intros H. inversion H; subst. exists []. cbn. now rewrite app_nil_r.
    + intros H. apply fetchAccessToken_frame in H as [[_ Hs] | (rq & _ & Hs & _)].
      * exists []. rewrite Hs, app_nil_r. reflexivity.
      * exists [rq]. exact Hs.
  - unfold bind at 1. unfold ret at 1.
    intros H. apply fetchAccessToken_frame in H as [[_ Hs] | (rq & _ & Hs & _)].
    + exists []. rewrite Hs, app_nil_r. reflexivity.
    + exists [rq]. exact Hs.
  - intros H. inversion H; subst. exists []. now rewrite app_nil_r.
  - intros H. inversion H; subst. exists []. now rewrite app_nil_r.
Qed.

Lemma prepare_sends {Store} (options : Options) (g : M Store JsVal)
  (url : string) (opts : JsVal) (w w1 : World Store)
  (o : Outcome (string * JsVal)) :
  (forall w o w', g w = (o, w') -> exists pre, sent w' = sent w ++ pre) ->
  Client.prepare options g url opts w = (o, w1) ->
  exists pre, sent w1 = sent w ++ pre.
Proof.
  intros Hg. unfold Client.prepare.
  unfold bind at 1. unfold lift at 1.
  destruct (Js.assign _ _) as [ro| |]; [|intros H; inversion H; subst; exists []; now rewrite app_nil_r..].
  unfold bind at 1. unfold lift at 1.
  destruct (Js.get ro "params") as [p| |]; [|intros H; inversion H; subst; exists []; now rewrite app_nil_r..].
  unfold bind at 1. unfold lift at 1.
  destruct (Js.get ro "ignoreAccessToken") as [ig| |]; [|intros H; inversion H; subst; exists []; now rewrite app_nil_r..].
  unfold bind at 1.
  destruct (negb (Js.truthy ig)).
  - unfold bind at 1. unfold lift at 1.
    destruct (Js.get ro "accessToken") as [a| |]; [|intros H; inversion H; subst; exists []; now rewrite app_nil_r..].
    unfold bind at 1.
    destruct (Js.truthy a).
    + unfold ret at 1. unfold bind, lift, ret. intros H.
      run_cases; pair_inv; exists []; now rewrite app_nil_r.
    + destruct (g w) as [o1 w2] eqn:Hgw. apply Hg in Hgw as [pre Hpre].
      unfold bind, lift, ret. intros H.
      run_cases; pair_inv; exists pre; assumption.
  - unfold bind, lift, ret. intros H.
    run_cases; pair_inv; exists []; now rewrite app_nil_r.
Qed.

Lemma get_with_gettoken {Store} (options : Options) (env : Env)
  (g : M Store JsVal) (api : string) (data : JsVal) (w : World Store) :
  api <> "" ->
  Client.get_with options env g api data (VObj [("ignoreAccessToken", VBool true)]) w =
  Client.request_with options env g (host options ++ "/" ++ api)
    (VObj [("params", data); ("ignoreAccessToken", VBool true)]) w.
Proof.
  intros Hapi. unfold Client.get_with, assert.
  assert (Js.truthy (VStr api) = true) as ->.
  { simpl. destruct (String.eqb_spec api ""); [contradiction | reflexivity]. }
  reflexivity.
Qed.

(** When the service answers the token request with status 0, a token
    and a lifetime, the token is saved with its expiry time and returned. *)
Lemma fetchAccessToken_success {Store} {hooks : Hooks Store} (options : Options)
  (env : Env) (w : World Store) (u : string)
  (rprops bprops : list (string * JsVal)) (t : JsVal) (n : Z) (s' : Store) :
  plain_requestOpts options ->
  proxied options (gettoken_url options) = Return u ->
  (forall ro, remote env (List.length (sent w)) {| req_url := u; req_opts := ro |}
              = HttpOk (VObj rprops)) ->
  Js.lookup "data" rprops = Some (VObj bprops) ->
  Js.lookup "errcode" bprops = Some (VNum (Num 0)) ->
  Js.lookup "access_token" bprops = Some t ->
  Js.lookup "expires_in" bprops = Some (VNum (Num n)) ->
  saveToken (AccessToken.new t (Num (clock env (ticks w) + (n - 10) * 1000)))
    (backing w) = Return s' ->
  exists w',
    Client.fetchAccessToken options env w = (Return t, w') /\
    backing w' = s' /\ ticks w' = S (ticks w).
Proof.
  intros [p Hp] Hpx Hr Hd He Ht Hn Hs.
  rewrite fetchAccessToken_unfold. unfold bind at 1.
  rewrite get_with_gettoken by apply gettoken_api_nonempty.
  pose proof (gettoken_request_needs_no_token options
                (Client.nested_getAccessToken (Store := Store)) w
                (gettoken_api options) (gettoken_data options) p
                (gettoken_query options) Hp (gettoken_stringify options)) as Hprep.
  rewrite gettoken_url_eq, Hpx in Hprep.
  destruct (request_with_answered options env _ _ _ w w u _ rprops (VObj bprops)
              Hprep (Hr _) (get_own _ _ _ Hd)) as (w1 & Hs1 & Hb1 & Ht1 & Hrun).
  cbn [Js.truthy] in Hrun. rewrite (get_own _ _ _ He) in Hrun.
  cbn [Js.strict_ne_zero] in Hrun.
  rewrite Hrun.
  unfold bind at 1. unfold lift at 1. rewrite (get_own _ _ _ Ht).
  unfold bind at 1. unfold lift at 1. rewrite (get_own _ _ _ Hn).
  unfold bind at 1. unfold Client.Date_now at 1.
  unfold bind at 1. unfold lift at 1. cbn [Js.to_number].
  cbn [Js.num_sub Js.num_mul Js.num_add Js.num_binop].
  unfold bind at 1. unfold Client.save. cbn [backing].
  rewrite Hb1, Ht1, Hs. unfold ret.
  eexists. split; [reflexivity|]. cbn. auto.
Qed.

(** C3: when the stored token is absent or expired, [getAccessToken]
    sends exactly one request, to [gettoken] or, under the [sso] option,
    to [sso/gettoken]; and when the service answers with status 0, a
    token [t] and a lifetime [n] in seconds, the token saved through the
    hook expires at the reading of the clock made on arrival plus
    [(n - 10) * 1000] milliseconds, and [t] is returned.  The expiry time
    is stated where JavaScript computes it without rounding: for a clock
    reading, a lifetime and results that are integers of at most 2^53 in
    absolute value. *)
Theorem getAccessToken_refresh {Store} {hooks : Hooks Store} (options : Options)
  (env : Env) (w : World Store) (token : option AccessToken.t) :
  getToken (backing w) = Return token ->
  stale_token token (clock env (ticks w)) ->
  let r := Client.getAccessToken options env w in
  (outcome r <> Unmodelled ->
   exists rq, sent (after r) = sent w ++ [rq] /\
              proxied options (gettoken_url options) = Return (req_url rq)) /\
  (forall u rprops bprops t n s',
     plain_requestOpts options ->
     proxied options (gettoken_url options) = Return u ->
     (forall ro, remote env (List.length (sent w)) {| req_url := u; req_opts := ro |}
                 = HttpOk (VObj rprops)) ->
     Js.lookup "data" rprops = Some (VObj bprops) ->
     Js.lookup "errcode" bprops = Some (VNum (Num 0)) ->
     Js.lookup "access_token" bprops = Some t ->
     Js.lookup "expires_in" bprops = Some (VNum (Num n)) ->
     let fetch_time := clock env (ticks (checked token w)) in
     exact_expiry fetch_time n = true ->
     saveToken (AccessToken.new t (Num (fetch_time + (n - 10) * 1000))) (backing w)
       = Return s' ->
     outcome r = Return t /\ backing (after r) = s' /\
     exists rq, sent (after r) = sent w ++ [rq] /\ req_url rq = u).
Proof.
  intros Hload Hstale r.
  assert (Hr : r = Client.fetchAccessToken options env (checked token w)).
  { subst r. now apply getAccessToken_stale. }
  assert (Hsent : sent (checked token w) = sent w) by (destruct token; reflexivity).
  assert (Hback : backing (checked token w) = backing w) by (destruct token; reflexivity).
  assert (Hone : outcome r <> Unmodelled ->
    exists rq, sent (after r) = sent w ++ [rq] /\
               proxied options (gettoken_url options) = Return (req_url rq)).
  { intros Hne. rewrite Hr in *.
    destruct (Client.fetchAccessToken options env (checked token w)) as [o w'] eqn:Hf.
    apply fetchAccessToken_frame in Hf as [[-> _] | (rq & Hpx & Hs & _)].
    - now elim Hne.
    - exists rq. cbn [after snd]. rewrite Hs, Hsent. auto. }
  split; [exact Hone|].
  intros u rprops bprops t n s' Hplain Hpx Hrem Hd He Ht Hn fetch_time _ Hsave.
  destruct (fetchAccessToken_success options env (checked token w) u rprops bprops t n s'
              Hplain Hpx) as (w' & Hrun & Hb & _); try assumption.
  - rewrite Hsent. exact Hrem.
  - rewrite Hback. exact Hsave.
  - assert (Ho : outcome r = Return t) by (rewrite Hr, Hrun; reflexivity).
    split; [exact Ho|]. split; [rewrite Hr, Hrun; exact Hb|].
    destruct Hone as (rq & Hs & Hu); [rewrite Ho; discriminate|].
    exists rq. split; [exact Hs|]. rewrite Hpx in Hu. now injection Hu.
Qed.

Lemma getAccessToken_refresh_witness :
  let r := Client.getAccessToken Example.options
             (Example.env [Example.response Example.token_body])
             (Example.holding 500000) in
  outcome r = Return (VStr "TOK") /\
  backing (after r) =
    {| store := Some (AccessToken.new (VStr "TOK") (Num 8190001)); ticketStore := [] |} /\
  exists rq, sent (after r) = [rq] /\
             req_url rq = "https://oapi.dingtalk.com/gettoken?appkey=KEY&appsecret=SECRET".
Proof.
  refine (proj2 (getAccessToken_refresh (hooks := memory_hooks) Example.options
                   (Example.env [Example.response Example.token_body])
                   (Example.holding 500000)
                   (Some (AccessToken.new (VStr "TOK") (Num 500000))) _ _)
            "https://oapi.dingtalk.com/gettoken?appkey=KEY&appsecret=SECRET"
            [("data", Example.token_body); ("status", VNum (Num 200)); ("headers", VObj [])]
            [("errcode", VNum (Num 0)); ("access_token", VStr "TOK");
             ("expires_in", VNum (Num 7200))]
            (VStr "TOK") 7200 _ _ _ _ _ _ _ _ _ _).
  - reflexivity.
  - intros e H. injection H as <-. simpl. lia.
  - eexists. reflexivity.
  - reflexivity.
  - reflexivity.
  - reflexivity.
  - reflexivity.
  - reflexivity.
  - reflexivity.
  - reflexivity.
  - reflexivity.
Defined.

(** A ticket refresh ends with a request whose answer provides the ticket
    handed back. *)
Lemma fetchJSApiTicket_frame {Store} {hooks : Hooks Store} (options : Options)
  (env : Env) (ty : string) (w w' : World Store) (v : JsVal) :
  Client.fetchJSApiTicket options env ty w = (Return v, w') ->
  exists pre rq response,
    sent w' = sent w ++ pre ++ [rq] /\
    remote env (List.length (sent w ++ pre)) rq = HttpOk response /\
    Js.get (payload response) "ticket" = Return v.
Proof.
  unfold Client.fetchJSApiTicket. unfold bind at 1.
  destruct (Client.get _ _ _ _ _ w) as [o1 w1] eqn:Hget.
  unfold Client.get, Client.get_with, assert in Hget. cbn [Js.truthy String.eqb negb] in Hget.
  unfold bind at 1 in Hget. unfold ret at 1 in Hget.
  unfold bind at 1 in Hget. unfold lift at 1 in Hget.
  cbn [Js.assign Js.assign1 obind] in Hget.
  apply request_with_frame in Hget
    as [(o0 & Hp & Hf) | (u & ro & w0 & Hp & Hs & Ht & Hb & Hv)].
  - destruct o0, o1; try contradiction; intros H; inversion H.
  - destruct o1 as [resp| |]; try (intros H; inversion H; fail).
    destruct (Hv resp eq_refl) as (response & Hr & ->).
    apply prepare_sends in Hp as [pre Hpre];
      [|intros; eapply getAccessToken_sends; eassumption].
    intros H. exists pre, {| req_url := u; req_opts := ro |}, response.
    rewrite <- Hpre. split; [|split; [exact Hr|]].
    + unfold bind, lift, ret, Client.Date_now, Client.save in H.
      run_cases; pair_inv; cbn; rewrite Hs, Hpre, app_assoc; reflexivity.
    + unfold bind, lift, ret, Client.Date_now, Client.save in H.
      run_cases; pair_inv; reflexivity.
Qed.

Lemma getJSApiTicket_stale {Store} {hooks : Hooks Store} (options : Options)
  (env : Env) (w : World Store) (type : JsVal) (ty : string)
  (ticketToken : option Ticket.t) :
  (if Js.truthy type then type else VStr "jsapi") = VStr ty ->
  getTicketToken ty (backing w) = Return ticketToken ->
  stale_ticket ticketToken (clock env (ticks w)) ->
  Client.getJSApiTicket options env type w =
  Client.fetchJSApiTicket options env ty (checked ticketToken w).
Proof.
  intros Hty Hload Hstale. unfold Client.getJSApiTicket. rewrite Hty.
  unfold bind at 1. unfold Client.load at 1. rewrite Hload.
  destruct ticketToken as [tk|]; cbn [stale_ticket checked] in *.
  - unfold bind at 1. unfold bind at 1. unfold Client.Date_now at 1.
    unfold ret at 1. unfold Ticket.isValid. cbn [Ticket.expireTime].
    rewrite (expired_not_lt _ _ Hstale). reflexivity.
  - unfold bind at 1. unfold ret at 1. reflexivity.
Qed.

(** C1: a stored token or ticket that is absent, or whose [expireTime] the
    clock has reached, is not what [getAccessToken()] or
    [getJSApiTicket(type)] hands back: whenever either returns a value, a
    request has been sent in between, and the value is the [access_token],
    respectively the [ticket], of the answer to it. *)
Theorem expired_credentials_are_refreshed {Store} {hooks : Hooks Store}
  (options : Options) (env : Env) (w : World Store) :
  (forall token v w',
     getToken (backing w) = Return token ->
     stale_token token (clock env (ticks w)) ->
     Client.getAccessToken options env w = (Return v, w') ->
     exists rq response,
       sent w' = sent w ++ [rq] /\
       remote env (List.length (sent w)) rq = HttpOk response /\
       Js.get (payload response) "access_token" = Return v) /\
  (forall type ty ticketToken v w',
     (if Js.truthy type then type else VStr "jsapi") = VStr ty ->
     getTicketToken ty (backing w) = Return ticketToken ->
     stale_ticket ticketToken (clock env (ticks w)) ->
     Client.getJSApiTicket options env type w = (Return v, w') ->
     exists pre rq response,
       sent w' = sent w ++ pre ++ [rq] /\
       remote env (List.length (sent w ++ pre)) rq = HttpOk response /\
       Js.get (payload response) "ticket" = Return v).
Proof.
  split.
  - intros token v w' Hload Hstale Hrun.
    rewrite (getAccessToken_stale options env w token Hload Hstale) in Hrun.
    assert (Hsent : sent (checked token w) = sent w) by (destruct token; reflexivity).
    apply fetchAccessToken_frame in Hrun as [[Hu _] | (rq & _ & Hs & Hv)];
      [discriminate|].
    destruct (Hv v eq_refl) as (response & Hr & Hg).
    exists rq, response. rewrite <- Hsent. auto.
  - intros type ty ticketToken v w' Hty Hload Hstale Hrun.
    rewrite (getJSApiTicket_stale options env w type ty ticketToken Hty Hload Hstale) in Hrun.
    assert (Hsent : sent (checked ticketToken w) = sent w)
      by (destruct ticketToken; reflexivity).
    apply fetchJSApiTicket_frame in Hrun. rewrite Hsent in Hrun. exact Hrun.
Qed.

Lemma expired_credentials_are_refreshed_witness :
  exists rq response,
    [{| req_url := "https://oapi.dingtalk.com/gettoken?appkey=KEY&appsecret=SECRET";
        req_opts := VObj [("dataType", VStr "json")] |}]
    = sent (Example.holding 500000) ++ [rq] /\
    remote (Example.env [Example.response Example.token_body])
      (List.length (sent (Example.holding 500000))) rq = HttpOk response /\
    Js.get (payload response) "access_token" = Return (VStr "TOK").
Proof.
  refine (proj1 (expired_credentials_are_refreshed (hooks := memory_hooks)
                   Example.options (Example.env [Example.response Example.token_body])
                   (Example.holding 500000))
            (Some (AccessToken.new (VStr "TOK") (Num 500000))) (VStr "TOK")
            {| ticks := 2;
               sent := [{| req_url := "https://oapi.dingtalk.com/gettoken?appkey=KEY&appsecret=SECRET";
                           req_opts := VObj [("dataType", VStr "json")] |}];
               logged := [];
               backing := {| store := Some (AccessToken.new (VStr "TOK") (Num 8190001));
                             ticketStore := [] |} |} _ _ _).
  - reflexivity.
  - intros e H. injection H as <-. simpl. lia.
  - reflexivity.
Defined.

Lemma blank_falsy (props : list (string * JsVal)) (field : string) :
  blank props field ->
  Js.truthy (match Js.lookup field props with Some x => x | None => VUndef end) = false.
Proof. unfold blank. destruct (Js.lookup field props); auto. Qed.

Ltac reject_step :=
  first
    [ rewrite get_plain by reflexivity
    | match goal with
      | H : blank ?props ?f |- context [Js.lookup ?f ?props] =>
          rewrite (blank_falsy props f H)
      | |- context [Js.truthy ?v] => destruct (Js.truthy v) eqn:?
      end
    | progress cbv beta iota delta [bind lift ret throw assert Message.or_else] ].

Ltac reject := repeat reject_step; eauto.

(** C9, as the code has it: every wrapper of [lib/api/message.js] rejects
    a call in which a field it asserts is absent or falsy, before anything
    is sent and with the client untouched.  For [send] these are [touser]
    or [toparty], [msgtype], [agentid] and the body field that [msgtype]
    names; for [listMessageStatus] the message id; for [sendMessage]
    [agent_id], one of [userid_list], [dept_id_list], [to_all_user], and
    [msg]; for [getSendProgress] and [getSendResult] [agent_id] and
    [task_id]; for [recallMessage] [agent_id] and [msg_task_id].  The
    wrappers of [lib/api/callback.js] assert nothing (see
    [register_call_back_is_not_validated]). *)
Theorem message_wrappers_validate {Store} {hooks : Hooks Store}
  (options : Options) (env : Env) (w : World Store) (props : list (string * JsVal)) :
  ((blank props "touser" /\ blank props "toparty") \/ blank props "msgtype" \/
   blank props "agentid" \/
   (exists name, Js.lookup "msgtype" props = Some (VStr name) /\
                 Js.inherited name = false /\ blank props name) ->
   rejects_before_network (Message.send options env (VObj props)) w) /\
  (forall messageId, Js.truthy messageId = false ->
   rejects_before_network (Message.listMessageStatus options env messageId) w) /\
  (blank props "agent_id" \/
   (blank props "userid_list" /\ blank props "dept_id_list" /\ blank props "to_all_user") \/
   blank props "msg" ->
   rejects_before_network (Message.sendMessage options env (VObj props)) w) /\
  (blank props "agent_id" \/ blank props "task_id" ->
   rejects_before_network (Message.getSendProgress options env (VObj props)) w) /\
  (blank props "agent_id" \/ blank props "task_id" ->
   rejects_before_network (Message.getSendResult options env (VObj props)) w) /\
  (blank props "agent_id" \/ blank props "msg_task_id" ->
   rejects_before_network (Message.recallMessage options env (VObj props)) w).
Proof.
  unfold rejects_before_network.
  split; [|split; [|split; [|split; [|split]]]].
  - intros [[H1 H2] | [H | [H | (name & Hm & Hi & Hb)]]]; unfold Message.send.
    + reject.
    + reject.
    + reject.
    + rewrite !get_plain by reflexivity. rewrite Hm.
      repeat (cbv beta iota delta [bind lift ret throw assert Message.or_else];
              cbn [Js.to_string]).
      rewrite (get_plain props name Hi). rewrite (blank_falsy props name Hb).
      reject.
  - intros messageId Hf. unfold Message.listMessageStatus, assert, bind, throw.
    rewrite Hf. eauto.
  - intros [H | [(H1 & H2 & H3) | H]]; unfold Message.sendMessage; reject.
  - intros [H | H]; unfold Message.getSendProgress; reject.
  - intros [H | H]; unfold Message.getSendResult; reject.
  - intros [H | H]; unfold Message.recallMessage; reject.
Qed.

Lemma message_wrappers_validate_witness :
  rejects_before_network
    (Message.send Example.options (Example.env [])
       (VObj [("touser", VStr "manager01"); ("agentid", VNum (Num 1))]))
    Example.fresh.
Proof.
  refine (proj1 (message_wrappers_validate (hooks := memory_hooks) Example.options
                   (Example.env []) Example.fresh
                   [("touser", VStr "manager01"); ("agentid", VNum (Num 1))]) _).
  right. left. exact I.
Defined.

(** C9 fails for the callback wrappers: [register_call_back] called with
    an options object that has no field at all is not rejected; with a
    token in the cache, the request goes straight to the remote service. *)
Lemma register_call_back_is_not_validated :
  let call := Callback.register_call_back Example.options
                (Example.env [Example.response (VObj [("errcode", VNum (Num 0))])])
                (VObj []) in
  ~ rejects_before_network call (Example.holding 2000000) /\
  outcome (call (Example.holding 2000000)) = Return (VObj [("errcode", VNum (Num 0))]) /\
  sent (after (call (Example.holding 2000000))) =
  [{| req_url := "https://oapi.dingtalk.com/call_back/register_call_back?access_token=TOK";
      req_opts := VObj [("dataType", VStr "json")] |}].
Proof.
  split; [|split; reflexivity].
  intros [e H]. vm_compute in H. discriminate.
Qed.

(** ** Key order *)

Lemma insert_index_perm (x : N * string) (l : list (N * string)) :
  Permutation (Js.insert_index x l) (x :: l).
Proof.
  induction l as [|y r IH]; simpl; [reflexivity|].
  destruct (N.leb (fst x) (fst y)); [reflexivity|].
  rewrite IH. apply perm_swap.
Qed.

Lemma index_keys_perm (ks : list string) :
  Permutation (map snd (Js.index_keys ks))
    (filter (fun k => match Js.array_index k with Some _ => true | None => false end) ks).
Proof.
  induction ks as [|k r IH]; simpl; [reflexivity|].
  destruct (Js.array_index k) as [n|]; [|exact IH].
  rewrite (Permutation_map snd (insert_index_perm (n, k) (Js.index_keys r))).
  simpl. now constructor.
Qed.

Lemma partition_perm {A} (f g : A -> bool) (l : list A) :
  (forall x, g x = negb (f x)) ->
  Permutation (filter f l ++ filter g l) l.
Proof.
  intros Hg. induction l as [|a r IH]; simpl; [reflexivity|].
  rewrite (Hg a). destruct (f a); simpl.
  - now constructor.
  - rewrite <- Permutation_middle. now constructor.
Qed.

(** [Object.keys] lists every own property name once. *)
Lemma ordered_keys_perm (ks : list string) : Permutation (Js.ordered_keys ks) ks.
Proof.
  unfold Js.ordered_keys, Js.named_keys. rewrite index_keys_perm.
  apply partition_perm. intros k. now destruct (Js.array_index k).
Qed.

Lemma own_keys_In {A} (props : list (string * A)) (k : string) :
  In k (Js.own_keys props) <-> In k (map fst props).
Proof.
  unfold Js.own_keys. split; apply Permutation_in;
    [| symmetry]; apply ordered_keys_perm.
Qed.

Lemma forallb_own_keys {A} (p : string -> bool) (props : list (string * A)) :
  forallb p (Js.own_keys props) = forallb p (map fst props).
Proof.
  apply eq_true_iff_eq. rewrite !forallb_forall.
  split; intros H k Hk; apply H; now apply own_keys_In.
Qed.

Lemma sort_insert_perm (k : string) (l : list string) :
  Permutation (Client.sort_insert k l) (k :: l).
Proof.
  induction l as [|x r IH]; simpl; [reflexivity|].
  destruct (String.leb k x); [reflexivity|].
  rewrite IH. apply perm_swap.
Qed.

Lemma sort_perm (l : list string) : Permutation (Client.sort l) l.
Proof.
  induction l as [|k r IH]; simpl; [reflexivity|].
  rewrite sort_insert_perm. now constructor.
Qed.

Lemma sort_insert_sorted (k : string) (l : list string) :
  Sorted string_le l -> Sorted string_le (Client.sort_insert k l).
Proof.
  induction 1 as [|x r Hs IH Hhd]; simpl.
  - repeat constructor.
  - destruct (String.leb k x) eqn:E.
    + constructor; [now constructor | now constructor].
    + constructor; [exact IH|].
      assert (Hxk : string_le x k).
      { destruct (String.leb_total k x) as [H|H]; [congruence | exact H]. }
      destruct r as [|y r']; simpl; [now constructor|].
      destruct (String.leb k y); constructor; [exact Hxk|].
      now inversion Hhd.
Qed.

Lemma sort_sorted (l : list string) : Sorted string_le (Client.sort l).
Proof.
  induction l as [|k r IH]; simpl; [constructor | now apply sort_insert_sorted].
Qed.

(** ** Object.assign *)

Lemma lookup_update {A} (k k' : string) (v : A) (props : list (string * A)) :
  Js.lookup k (Js.update k' v props) =
  if String.eqb k k' then Some v else Js.lookup k props.
Proof.
  destruct (String.eqb_spec k k') as [->|Hne].
  - apply lookup_update_same.
  - now apply lookup_update_other.
Qed.

Lemma lookup_In {A} (k : string) (props : list (string * A)) (v : A) :
  Js.lookup k props = Some v -> In k (map fst props).
Proof.
  induction props as [|[k' v'] r IH]; simpl; [discriminate|].
  destruct (String.eqb_spec k k'); auto.
Qed.

Lemma keys_update {A} (k : string) (v v' : A) (p p' : list (string * A)) :
  map fst p = map fst p' ->
  map fst (Js.update k v p) = map fst (Js.update k v' p').
Proof.
  revert p'. induction p as [|[k1 v1] r IH]; intros [|[k2 v2] r'] H; simpl in *;
    try discriminate; [reflexivity|].
  injection H as <- Hr. destruct (String.eqb k k1); simpl; f_equal; auto.
Qed.

Lemma assign_props_lookup (ks : list string) (src : list (string * JsVal)) :
  forall p p' k,
    Js.assign_props (VObj p) ks src = Return (VObj p') ->
    Js.lookup k p' =
    match (if in_dec string_dec k ks then Js.lookup k src else None) with
    | Some v => Some v
    | None => Js.lookup k p
    end.
Proof.
  induction ks as [|k0 r IH]; intros p p' k H; cbn [Js.assign_props] in H.
  - injection H as <-. reflexivity.
  - destruct (Js.lookup k0 src) as [x|] eqn:Hx.
    + unfold Js.set in H. destruct (String.eqb k0 "__proto__"); [discriminate|].
      cbn [obind] in H. rewrite (IH _ _ k H), lookup_update.
      destruct (in_dec string_dec k r) as [Hin'|Hn'].
      * destruct (in_dec string_dec k (k0 :: r)) as [_|Hn];
          [|exfalso; apply Hn; now right].
        destruct (String.eqb_spec k k0) as [->|Hne].
        -- now rewrite Hx.
        -- reflexivity.
      * destruct (String.eqb_spec k k0) as [->|Hne].
        -- destruct (in_dec string_dec k0 (k0 :: r)) as [_|Hn];
             [|exfalso; apply Hn; now left].
           now rewrite Hx.
        -- destruct (in_dec string_dec k (k0 :: r)) as [[Hin|Hin]|_];
             [congruence | contradiction | reflexivity].
    + rewrite (IH _ _ k H).
      destruct (in_dec string_dec k (k0 :: r)) as [Hin|Hn];
        destruct (in_dec string_dec k r) as [Hin'|Hn']; try reflexivity.
      * destruct Hin as [->|Hin]; [|contradiction]. now rewrite Hx.
      * exfalso. apply Hn. now right.
Qed.

Lemma assign1_lookup (base : list (string * JsVal)) (opts : JsVal)
  (p' : list (string * JsVal)) (k : string) :
  Js.assign1 (VObj base) opts = Return (VObj p') ->
  Js.lookup k p' = spread base opts k.
Proof.
  destruct opts; simpl; intros H; try (injection H as <-; reflexivity); try discriminate.
  - destruct (String.eqb s ""); [injection H as <-; reflexivity | discriminate].
  - rewrite (assign_props_lookup _ _ _ _ k H).
    destruct (in_dec string_dec k (Js.own_keys props)) as [Hin|Hn]; [reflexivity|].
    destruct (Js.lookup k props) eqn:E; [|reflexivity].
    exfalso. apply Hn. apply own_keys_In. eapply lookup_In; eassumption.
Qed.

Lemma assign_props_keys (ks : list string) (src : list (string * JsVal)) :
  forall p1 p2 p1' p2',
    map fst p1 = map fst p2 ->
    Js.assign_props (VObj p1) ks src = Return (VObj p1') ->
    Js.assign_props (VObj p2) ks src = Return (VObj p2') ->
    map fst p1' = map fst p2'.
Proof.
  induction ks as [|k0 r IH]; intros p1 p2 p1' p2' Hk H1 H2;
    cbn [Js.assign_props] in H1, H2.
  - injection H1 as <-. injection H2 as <-. exact Hk.
  - destruct (Js.lookup k0 src) as [x|]; [|eauto].
    unfold Js.set in H1, H2. destruct (String.eqb k0 "__proto__"); [discriminate|].
    cbn [obind] in H1, H2. eapply IH; [|eassumption..]. now apply keys_update.
Qed.

Lemma assign1_keys (opts : JsVal) (p1 p2 p1' p2' : list (string * JsVal)) :
  map fst p1 = map fst p2 ->
  Js.assign1 (VObj p1) opts = Return (VObj p1') ->
  Js.assign1 (VObj p2) opts = Return (VObj p2') ->
  map fst p1' = map fst p2'.
Proof.
  intros Hk. destruct opts; simpl; intros H1 H2;
    try (injection H1 as <-; injection H2 as <-; exact Hk); try discriminate.
  - destruct (String.eqb s ""); [|discriminate].
    injection H1 as <-; injection H2 as <-; exact Hk.
  - eapply assign_props_keys; eassumption.
Qed.

Lemma omap_ext_in {A B} (f g : A -> Outcome B) (l : list A) :
  (forall x, In x l -> f x = g x) -> omap f l = omap g l.
Proof.
  induction l as [|a r IH]; intros H; simpl; [reflexivity|].
  rewrite (H a) by now left. rewrite IH; [reflexivity|].
  intros x Hx. apply H. now right.
Qed.

(** The signed text depends on the property names and on the values
    read under them, not on how the object came about. *)
Lemma signContent_ext (p1 p2 : list (string * JsVal)) :
  map fst p1 = map fst p2 ->
  (forall k, Js.lookup k p1 = Js.lookup k p2) ->
  Client.signContent (VObj p1) = Client.signContent (VObj p2).
Proof.
  intros Hk Hl. unfold Client.signContent, Js.own_keys. rewrite Hk.
  destruct (forallb _ _); [|reflexivity]. cbn [negb].
  apply omap_ext_in. intros k _. unfold Js.get. now rewrite Hl.
Qed.

Lemma In_lookup {A} (k : string) (props : list (string * A)) :
  In k (map fst props) -> exists v, Js.lookup k props = Some v.
Proof.
  induction props as [|[k' v'] r IH]; simpl; [contradiction|].
  destruct (String.eqb_spec k k') as [->|Hne]; [eauto|].
  intros [->|H]; [contradiction | auto].
Qed.

Lemma omap_Forall2 {A B} (f : A -> Outcome B) (l : list A) (r : list B) :
  omap f l = Return r -> Forall2 (fun x y => f x = Return y) l r.
Proof.
  revert r. induction l as [|a l IH]; intros r H; simpl in H.
  - injection H as <-. constructor.
  - destruct (f a) as [b| |] eqn:E; simpl in H; try discriminate.
    destruct (omap f l) as [bs| |]; simpl in H; try discriminate.
    injection H as <-. constructor; auto.
Qed.

Lemma omap_total {A B} (f : A -> Outcome B) (l : list A) :
  (forall x, In x l -> exists y, f x = Return y) -> exists r, omap f l = Return r.
Proof.
  induction l as [|a l IH]; intros H; simpl; [eauto|].
  destruct (H a) as [b Hb]; [now left|]. rewrite Hb. simpl.
  destruct IH as [r Hr]; [intros x Hx; apply H; now right|].
  rewrite Hr. simpl. eauto.
Qed.

Lemma signContent_lines (sprops : list (string * JsVal)) :
  printable sprops ->
  exists content,
    Client.signContent (VObj sprops) = Return content /\
    Forall2 (sign_line sprops) (Client.sort (Js.own_keys sprops)) content.
Proof.
  intros [Hascii Hp]. unfold Client.signContent.
  rewrite (forallb_own_keys _ sprops), Hascii. cbn [negb].
  assert (Hin : forall k, In k (Client.sort (Js.own_keys sprops)) ->
                          exists v, Js.lookup k sprops = Some v).
  { intros k Hk. apply In_lookup. apply own_keys_In.
    eapply Permutation_in; [apply sort_perm | exact Hk]. }
  destruct (omap_total
              (fun key => obind (Js.get (VObj sprops) key) (fun value =>
                          obind (Js.to_string value) (fun v =>
                          Return (key ++ "=" ++ v)%string)))
              (Client.sort (Js.own_keys sprops))) as [content Hc].
  { intros k Hk. destruct (Hin k Hk) as [v Hv]. destruct (Hp k v Hv) as [s Hs].
    rewrite (get_own _ _ _ Hv). simpl. rewrite Hs. simpl. eauto. }
  exists content. split; [exact Hc|].
  apply omap_Forall2 in Hc.
  clear Hp. induction Hc as [|k line ks lines Hk Hrest IH]; constructor.
  - destruct (Hin k) as [v Hv]; [now left|]. rewrite (get_own _ _ _ Hv) in Hk.
    simpl in Hk. destruct (Js.to_string v) as [s| |] eqn:Hs; simpl in Hk; try discriminate.
    injection Hk as <-. exists v, s. auto.
  - apply IH. intros k' Hk'. apply Hin. now right.
Qed.

(** C6: [getJSApiConfig(url, opts)] signs the record
    [{ jsapi_ticket, noncestr, timestamp, url: normalizeUrl(url), ...opts }]:
    its keys in ascending order, each as [key=value], joined by ['&'], go
    through SHA-1, and the result is [{ corpId, timeStamp, nonceStr,
    signature }] with the configured corp id, the [timestamp] and
    [noncestr] of the signed record, and the hexadecimal digest.  The
    digest is SHA-1: the function that is applied to the text gives the
    digests FIPS 180 lists for its test messages.  (The record is taken
    to have ASCII keys and values that print as strings; a number prints
    with all its digits up to 2^53.) *)
Theorem getJSApiConfig_signs {Store} {hooks : Hooks Store} (options : Options)
  (env : Env) (url : string) (opts : JsVal) (w w1 : World Store)
  (ticket : JsVal) (stamp nurl : string) (sprops : list (string * JsVal)) :
  Client.getJSApiTicket options env VUndef w = (Return ticket, w1) ->
  Js.num_to_string (Num (clock env (ticks w1))) = Return stamp ->
  Client._normalizeUrl url = Return nurl ->
  let base := sign_base ticket stamp (clock env (S (ticks w1))) nurl in
  Js.assign (VObj base) [opts] = Return (VObj sprops) ->
  printable sprops ->
  exists cfg w' keys content,
    Client.getJSApiConfig options env url opts w = (Return cfg, w') /\
    (forall k, Js.lookup k sprops = spread base opts k) /\
    Permutation keys (map fst sprops) /\ Sorted string_le keys /\
    Forall2 (sign_line sprops) keys content /\
    Client.signature cfg = crypto.sha1_hex (Str.join "&" content) /\
    Client.corpId cfg = corpid options /\
    Js.lookup "timestamp" sprops = Some (Client.timeStamp cfg) /\
    Js.lookup "noncestr" sprops = Some (Client.nonceStr cfg) /\
    crypto.sha1_hex "" = "da39a3ee5e6b4b0d3255bfef95601890afd80709" /\
    crypto.sha1_hex "abc" = "a9993e364706816aba3e25717850c26c9cd0d89d" /\
    crypto.sha1_hex "abcdbcdecdefdefgefghfghighijhijkijkljklmklmnlmnomnopnopq"
    = "84983e441c3bd26ebaae4aa1f95129e5e54670f1".
Proof.
  intros Hticket Hstamp Hurl base Hassign Hprint.
  destruct (signContent_lines sprops Hprint) as (content & Hc & Hlines).
  assert (Hspread : forall k, Js.lookup k sprops = spread base opts k).
  { intros k. cbn [Js.assign] in Hassign.
    destruct (Js.assign1 (VObj base) opts) as [t| |] eqn:E; cbn [obind] in Hassign;
      try discriminate.
    injection Hassign as ->. now apply assign1_lookup. }
  assert (Hts : exists v, Js.lookup "timestamp" sprops = Some v).
  { rewrite Hspread. unfold spread. destruct opts; simpl; eauto.
    destruct (Js.lookup "timestamp" props); eauto. }
  assert (Hns : exists v, Js.lookup "noncestr" sprops = Some v).
  { rewrite Hspread. unfold spread. destruct opts; simpl; eauto.
    destruct (Js.lookup "noncestr" props); eauto. }
  destruct Hts as [ts Hts]. destruct Hns as [ns Hns].
  eexists _, _, (Client.sort (Js.own_keys sprops)), content.
  split.
  { unfold Client.getJSApiConfig.
    rewrite (bind_Return _ _ _ _ _ Hticket).
    unfold bind at 1. unfold Client.Date_now at 1.
    unfold bind at 1. unfold lift at 1. rewrite Hstamp.
    unfold bind at 1. unfold Client.Date_now at 1. cbn [ticks].
    unfold bind at 1. unfold lift at 1. rewrite Hurl.
    unfold bind at 1. unfold lift at 1. fold (sign_base ticket stamp (clock env (S (ticks w1))) nurl).
    fold base. rewrite Hassign.
    unfold bind at 1. unfold lift at 1. rewrite Hc.
    unfold bind at 1. unfold lift at 1. rewrite (get_own _ _ _ Hts).
    unfold bind at 1. unfold lift at 1. rewrite (get_own _ _ _ Hns).
    unfold ret. reflexivity. }
  split; [exact Hspread|].
  split; [rewrite sort_perm; apply ordered_keys_perm|].
  split; [apply sort_sorted|].
  split; [exact Hlines|].
  cbn [Client.signature Client.corpId Client.timeStamp Client.nonceStr].
  split; [reflexivity|]. split; [reflexivity|].
  split; [exact Hts|]. split; [exact Hns|]. exact sha1_known_answers.
Qed.

(** What a returning run of [getJSApiConfig] has computed. *)
Lemma getJSApiConfig_Return_inv {Store} {hooks : Hooks Store} (options : Options)
  (env : Env) (url : string) (opts : JsVal) (w w1 w' : World Store)
  (ticket : JsVal) (cfg : Client.JSApiConfig) :
  Client.getJSApiTicket options env VUndef w = (Return ticket, w1) ->
  Client.getJSApiConfig options env url opts w = (Return cfg, w') ->
  exists stamp t2 nurl sprops content,
    Client._normalizeUrl url = Return nurl /\
    Js.assign1 (VObj (sign_base ticket stamp t2 nurl)) opts = Return (VObj sprops) /\
    Client.signContent (VObj sprops) = Return content /\
    Client.signature cfg = crypto.sha1_hex (Str.join "&" content) /\
    Js.get (VObj sprops) "timestamp" = Return (Client.timeStamp cfg) /\
    Js.get (VObj sprops) "noncestr" = Return (Client.nonceStr cfg).
Proof.
  intros Hticket Hrun. unfold Client.getJSApiConfig in Hrun.
  rewrite (bind_Return _ _ _ _ _ Hticket) in Hrun.
  unfold bind at 1 in Hrun. unfold Client.Date_now at 1 in Hrun.
  unfold bind at 1 in Hrun. unfold lift at 1 in Hrun.
  destruct (Js.num_to_string _) as [stamp| |]; try (inversion Hrun; fail).
  unfold bind at 1 in Hrun. unfold Client.Date_now at 1 in Hrun. cbn [ticks] in Hrun.
  unfold bind at 1 in Hrun. unfold lift at 1 in Hrun.
  destruct (Client._normalizeUrl url) as [nurl| |]; try (inversion Hrun; fail).
  unfold bind at 1 in Hrun. unfold lift at 1 in Hrun.
  cbn [Js.assign] in Hrun.
  fold (sign_base ticket stamp (clock env (S (ticks w1))) nurl) in Hrun.
  destruct (Js.assign1 _ opts) as [signObj| |] eqn:Ha; cbn [obind] in Hrun;
    try (inversion Hrun; fail).
  destruct (assign1_object _ _ _ Ha) as [sprops ->].
  unfold bind at 1 in Hrun. unfold lift at 1 in Hrun.
  destruct (Client.signContent (VObj sprops)) as [content| |] eqn:Hc;
    try (inversion Hrun; fail).
  unfold bind at 1 in Hrun. unfold lift at 1 in Hrun.
  destruct (Js.get (VObj sprops) "timestamp") as [ts| |] eqn:Hts;
    try (inversion Hrun; fail).
  unfold bind at 1 in Hrun. unfold lift at 1 in Hrun.
  destruct (Js.get (VObj sprops) "noncestr") as [ns| |] eqn:Hns;
    try (inversion Hrun; fail).
  unfold ret in Hrun. injection Hrun as <- _.
  exists stamp, (clock env (S (ticks w1))), nurl, sprops, content.
  cbn [Client.signature Client.timeStamp Client.nonceStr]. auto 10.
Qed.

(** C7: the signature is a function of the ticket, the URL and the
    options, once the options fix [noncestr] and [timestamp]: two calls
    that obtain the same ticket, in whatever client state, at whatever
    time, return the same [signature] (and the same [timeStamp] and
    [nonceStr]). *)
Theorem getJSApiConfig_deterministic
  {Store1 Store2} {hooks1 : Hooks Store1} {hooks2 : Hooks Store2}
  (options1 options2 : Options) (env1 env2 : Env)
  (url : string) (oprops : list (string * JsVal)) (ticket : JsVal)
  (w1 w1' w1'' : World Store1) (w2 w2' w2'' : World Store2)
  (cfg1 cfg2 : Client.JSApiConfig) :
  Js.has_own "noncestr" oprops = true ->
  Js.has_own "timestamp" oprops = true ->
  Client.getJSApiTicket options1 env1 VUndef w1 = (Return ticket, w1') ->
  Client.getJSApiTicket options2 env2 VUndef w2 = (Return ticket, w2') ->
  Client.getJSApiConfig options1 env1 url (VObj oprops) w1 = (Return cfg1, w1'') ->
  Client.getJSApiConfig options2 env2 url (VObj oprops) w2 = (Return cfg2, w2'') ->
  Client.signature cfg1 = Client.signature cfg2 /\
  Client.timeStamp cfg1 = Client.timeStamp cfg2 /\
  Client.nonceStr cfg1 = Client.nonceStr cfg2.
Proof.
  intros Hn Ht Ht1 Ht2 Hr1 Hr2.
  destruct (getJSApiConfig_Return_inv _ _ _ _ _ _ _ _ _ Ht1 Hr1)
    as (s1 & t1 & nurl & p1 & c1 & Hu1 & Ha1 & Hc1 & Hs1 & Hts1 & Hns1).
  destruct (getJSApiConfig_Return_inv _ _ _ _ _ _ _ _ _ Ht2 Hr2)
    as (s2 & t2 & nurl' & p2 & c2 & Hu2 & Ha2 & Hc2 & Hs2 & Hts2 & Hns2).
  rewrite Hu1 in Hu2. injection Hu2 as <-.
  assert (Hl : forall k, Js.lookup k p1 = Js.lookup k p2).
  { intros k. rewrite (assign1_lookup _ _ _ k Ha1), (assign1_lookup _ _ _ k Ha2).
    unfold spread. destruct (Js.lookup k oprops) eqn:E; [reflexivity|].
    unfold Js.has_own in Hn, Ht. simpl.
    destruct (String.eqb_spec k "jsapi_ticket"); [reflexivity|].
    destruct (String.eqb_spec k "noncestr") as [->|]; [now rewrite E in Hn|].
    destruct (String.eqb_spec k "timestamp") as [->|]; [now rewrite E in Ht|].
    reflexivity. }
  assert (Hk : map fst p1 = map fst p2).
  { eapply assign1_keys; [|exact Ha1|exact Ha2]. reflexivity. }
  rewrite (signContent_ext p1 p2 Hk Hl) in Hc1. rewrite Hc1 in Hc2. injection Hc2 as <-.
  unfold Js.get in Hts1, Hts2, Hns1, Hns2. rewrite Hl in Hts1, Hns1.
  rewrite Hts1 in Hts2. rewrite Hns1 in Hns2.
  split; [congruence|]. split; congruence.
Qed.

Lemma getJSApiConfig_signs_witness :
  exists cfg w' keys content,
    Client.getJSApiConfig Example.options
      (Example.env [Example.response Example.token_body;
                    Example.response Example.ticket_body])
      "https://a.com/p?x=1#frag" (VObj Example.pinned) Example.fresh = (Return cfg, w') /\
    keys = ["jsapi_ticket"; "noncestr"; "timestamp"; "url"] /\
    content = ["jsapi_ticket=T"; "noncestr=N"; "timestamp=1000";
               "url=https://a.com/p?x=1"] /\
    Client.signature cfg = crypto.sha1_hex (Str.join "&" content) /\
    Client.signature cfg = "aea7322b93c84b4052e59ded5130ee1fa42883c7" /\
    Client.corpId cfg = VStr "corp" /\
    Client.timeStamp cfg = VNum (Num 1000) /\
    Client.nonceStr cfg = VStr "N".
Proof.
  set (env := Example.env [Example.response Example.token_body;
                           Example.response Example.ticket_body]).
  set (sprops := [("jsapi_ticket", VStr "T"); ("noncestr", VStr "N");
                  ("timestamp", VNum (Num 1000)); ("url", VStr "https://a.com/p?x=1")]).
  set (w1 := after (Client.getJSApiTicket Example.options env VUndef Example.fresh)).
  assert (H1 : Client.getJSApiTicket Example.options env VUndef Example.fresh
               = (Return (VStr "T"), w1)) by reflexivity.
  assert (H2 : Js.num_to_string (Num (clock env (ticks w1))) = Return "1000002")
    by reflexivity.
  assert (H3 : Client._normalizeUrl "https://a.com/p?x=1#frag"
               = Return "https://a.com/p?x=1") by reflexivity.
  assert (H4 : Js.assign (VObj (sign_base (VStr "T") "1000002" (clock env (S (ticks w1)))
                                  "https://a.com/p?x=1")) [VObj Example.pinned]
               = Return (VObj sprops)) by reflexivity.
  assert (H5 : printable sprops).
  { split; [reflexivity|]. intros k v H. simpl in H.
    repeat match type of H with
           | (if ?b then _ else _) = _ => destruct b
           end; try discriminate; injection H as <-; eexists; reflexivity. }
  destruct (getJSApiConfig_signs (hooks := memory_hooks) Example.options env
              "https://a.com/p?x=1#frag" (VObj Example.pinned) Example.fresh w1
              (VStr "T") "1000002" "https://a.com/p?x=1" sprops H1 H2 H3 H4 H5)
    as (cfg & w' & keys & content & Hrun & _).
  exists cfg, w', ["jsapi_ticket"; "noncestr"; "timestamp"; "url"],
    ["jsapi_ticket=T"; "noncestr=N"; "timestamp=1000"; "url=https://a.com/p?x=1"].
  split; [exact Hrun|]. split; [reflexivity|]. split; [reflexivity|].
  vm_compute in Hrun. injection Hrun as <- _.
  repeat split; vm_compute; reflexivity.
Defined.

Lemma getJSApiConfig_deterministic_witness :
  Client.signature
    {| Client.corpId := VStr "corp"; Client.timeStamp := VNum (Num 1000);
       Client.nonceStr := VStr "N";
       Client.signature := "6ff96a838625b083d1c776fbd99d99f43476bebe" |}
  = Client.signature
      {| Client.corpId := VStr "corp"; Client.timeStamp := VNum (Num 1000);
         Client.nonceStr := VStr "N";
         Client.signature :=
           Client.signature
             match outcome (Client.getJSApiConfig Example.options (Example.later [])
                              "https://a.com/p" (VObj Example.pinned) Example.ready) with
             | Return cfg => cfg
             | _ => {| Client.corpId := VUndef; Client.timeStamp := VUndef;
                       Client.nonceStr := VUndef; Client.signature := "" |}
             end |}.
Proof.
  refine (proj1 (getJSApiConfig_deterministic (hooks1 := memory_hooks)
                   (hooks2 := memory_hooks)
                   Example.options Example.options
                   (Example.env [Example.response Example.token_body;
                                 Example.response Example.ticket_body])
                   (Example.later [])
                   "https://a.com/p" Example.pinned (VStr "T")
                   Example.fresh
                   (after (Client.getJSApiTicket Example.options
                             (Example.env [Example.response Example.token_body;
                                           Example.response Example.ticket_body])
                             VUndef Example.fresh))
                   (after (Client.getJSApiConfig Example.options
                             (Example.env [Example.response Example.token_body;
                                           Example.response Example.ticket_body])
                             "https://a.com/p" (VObj Example.pinned) Example.fresh))
                   Example.ready
                   (after (Client.getJSApiTicket Example.options (Example.later [])
                             VUndef Example.ready))
                   (after (Client.getJSApiConfig Example.options (Example.later [])
                             "https://a.com/p" (VObj Example.pinned) Example.ready))
                   _ _ _ _ _ _ _ _)).
  - reflexivity.
  - reflexivity.
  - reflexivity.
  - reflexivity.
  - vm_compute. reflexivity.
  - vm_compute. reflexivity.
Defined.

(** ** Scanning strings *)

Lemma all_app (p : ascii -> bool) (a b : string) :
  Str.all p (a ++ b) = (Str.all p a && Str.all p b)%bool.
Proof. induction a as [|c a IH]; simpl; [reflexivity|]. now rewrite IH, andb_assoc. Qed.

Lemma any_app (p : ascii -> bool) (a b : string) :
  Str.any p (a ++ b) = (Str.any p a || Str.any p b)%bool.
Proof. induction a as [|c a IH]; simpl; [reflexivity|]. now rewrite IH, orb_assoc. Qed.

Lemma all_impl (p q : ascii -> bool) (s : string) :
  (forall c, p c = true -> q c = true) -> Str.all p s = true -> Str.all q s = true.
Proof.
  intros H. induction s as [|c s IH]; simpl; [reflexivity|].
  intros Hs. apply andb_true_iff in Hs as [Hc Hs]. now rewrite (H c Hc), IH.
Qed.

Lemma any_false_all (p : ascii -> bool) (s : string) :
  Str.any p s = false <-> Str.all (fun c => negb (p c)) s = true.
Proof.
  induction s as [|c s IH]; simpl; [tauto|].
  rewrite orb_false_iff, andb_true_iff, negb_true_iff. tauto.
Qed.

Lemma span_eq (p : ascii -> bool) (s : string) :
  (fst (Str.span p s) ++ snd (Str.span p s))%string = s.
Proof.
  induction s as [|c s IH]; simpl; [reflexivity|].
  destruct (p c); [reflexivity|].
  destruct (Str.span p s) as [a b]. simpl in *. now rewrite IH.
Qed.

Lemma span_fst (p : ascii -> bool) (s : string) :
  Str.any p (fst (Str.span p s)) = false.
Proof.
  induction s as [|c s IH]; simpl; [reflexivity|].
  destruct (p c) eqn:E; [reflexivity|].
  destruct (Str.span p s) as [a b]. simpl in *. now rewrite E.
Qed.

Lemma span_snd (p : ascii -> bool) (s : string) :
  match snd (Str.span p s) with
  | EmptyString => True
  | String c _ => p c = true
  end.
Proof.
  induction s as [|c s IH]; simpl; [exact I|].
  destruct (p c) eqn:E; [exact E|].
  destruct (Str.span p s) as [a b]. exact IH.
Qed.

(** [span] stops exactly where the first character satisfying [p] is. *)
Lemma span_app (p : ascii -> bool) (a b : string) :
  Str.any p a = false ->
  match b with EmptyString => True | String c _ => p c = true end ->
  Str.span p (a ++ b) = (a, b).
Proof.
  intros Ha Hb. induction a as [|c a IH]; simpl in *.
  - destruct b as [|c b]; [reflexivity|]. simpl. now rewrite Hb.
  - apply orb_false_iff in Ha as [Hc Ha]. rewrite Hc, (IH Ha). reflexivity.
Qed.

Lemma span_none (p : ascii -> bool) (s : string) :
  Str.any p s = false -> Str.span p s = (s, "").
Proof.
  intros H. rewrite <- (append_empty_r s) at 1. now apply span_app.
Qed.

Lemma concat_map_app (f : ascii -> string) (a b : string) :
  Str.concat_map f (a ++ b) = (Str.concat_map f a ++ Str.concat_map f b)%string.
Proof. induction a as [|c a IH]; simpl; [reflexivity|]. now rewrite IH, append_assoc. Qed.

Lemma concat_map_id (f : ascii -> string) (s : string) :
  (forall c, In c (list_ascii_of_string s) -> f c = String c "") ->
  Str.concat_map f s = s.
Proof.
  induction s as [|c s IH]; simpl; intros H; [reflexivity|].
  rewrite (H c) by now left. simpl. rewrite IH; auto.
Qed.

Lemma all_In (p : ascii -> bool) (s : string) :
  Str.all p s = true <-> forall c, In c (list_ascii_of_string s) -> p c = true.
Proof.
  induction s as [|c s IH]; simpl.
  - split; [contradiction | reflexivity].
  - rewrite andb_true_iff, IH. split.
    + intros [Hc Hs] d Hd. destruct Hd as [Hd|Hd]; [now subst d | auto].
    + intros H. split; [apply H; now left | intros d Hd; apply H; now right].
Qed.

Lemma prefix_eq (p s : string) :
  String.prefix p s = true -> s = (p ++ Str.drop (String.length p) s)%string.
Proof.
  revert s. induction p as [|c p IH]; intros s; simpl.
  - reflexivity.
  - destruct s as [|d s]; [discriminate|].
    simpl. destruct (Ascii.ascii_dec c d) as [e|]; [|discriminate].
    intros H. subst d. f_equal. now apply IH.
Qed.

(** ** Characters *)

Lemma autoEscapeStr_eq (s : string) : Url.autoEscapeStr s = Str.concat_map esc s.
Proof. reflexivity. Qed.

Ltac each_char c := destruct c as [[] [] [] [] [] [] [] []]; try reflexivity; try discriminate.

(** Escaping neither removes nor introduces a separator. *)
Lemma esc_separator (x c : ascii) :
  In x ["#"; "?"; "&"; "="; "+"; "\"; ","]%char ->
  Str.is_char x c = true -> Url.autoEscape c = false \/ x = "\"%char.
Proof.
  intros Hx Hc. apply Ascii.eqb_eq in Hc. subst c.
  simpl in Hx. repeat destruct Hx as [<-|Hx]; auto; contradiction.
Qed.

Lemma any_percent (x c : ascii) :
  In x ["#"; "?"; "&"; "="; "+"; "\"; "/"]%char ->
  Str.any (Str.is_char x) (Str.percent c) = false.
Proof.
  intros Hx. simpl in Hx.
  repeat destruct Hx as [<-|Hx]; try contradiction; each_char c.
Qed.

Lemma any_esc (x c : ascii) :
  In x ["#"; "?"; "&"; "="; "+"]%char ->
  Str.any (Str.is_char x) (esc c) = Str.is_char x c.
Proof.
  intros Hx. simpl in Hx.
  repeat destruct Hx as [<-|Hx]; try contradiction; each_char c.
Qed.

Lemma any_autoEscapeStr (x : ascii) (s : string) :
  In x ["#"; "?"; "&"; "="; "+"]%char ->
  Str.any (Str.is_char x) (Url.autoEscapeStr s) = Str.any (Str.is_char x) s.
Proof.
  intros Hx. rewrite autoEscapeStr_eq.
  induction s as [|c s IH]; simpl; [reflexivity|].
  now rewrite any_app, IH, any_esc.
Qed.

Lemma esc_backslash_free (c : ascii) : Str.any (Str.is_char "\") (esc c) = false \/ c = "\"%char.
Proof. each_char c; auto. Qed.




Lemma unescape_esc (c : ascii) (r : string) :
  Str.is_char "%" c = false ->
  querystring.unescapeBuffer (esc c ++ r) = String c (querystring.unescapeBuffer r).
Proof. intros H. each_char c. Qed.


Lemma unescape_v8_esc (c : ascii) (r : string) :
  Str.is_char "%" c = false ->
  querystring.unescapeBuffer_v8 (esc c ++ r)
  = String c (querystring.unescapeBuffer_v8 r).
Proof. intros H. each_char c. Qed.


Lemma plus_to_space_id (s : string) :
  Str.any (Str.is_char "+") s = false -> querystring.plus_to_space s = s.
Proof.
  intros H. unfold querystring.plus_to_space. apply concat_map_id.
  intros c Hc. apply any_false_all in H.
  rewrite all_In in H. specialize (H c Hc). apply negb_true_iff in H. now rewrite H.
Qed.


(** ** The shape of a URL *)

Lemma host_char_facts (c : ascii) :
  host_char c = true -> Str.is_graphic c = true /\ Url.host_end c = false.
Proof. each_char c; auto. Qed.

Lemma digit_label (c : ascii) : Str.is_digit c = true -> Url.label_char c = true.
Proof. unfold Url.label_char. now intros ->. Qed.

Lemma split_all (p : ascii -> bool) (sep : ascii) (s : string) :
  forallb (Str.all p) (Str.split sep s) = true ->
  Str.all (fun c => p c || Str.is_char sep c)%bool s = true.
Proof.
  induction s as [|c s IH]; simpl; [reflexivity|].
  destruct (Str.is_char sep c) eqn:E.
  - simpl. intros H. rewrite orb_true_r. simpl. auto.
  - destruct (Str.split sep s) as [|x xs]; simpl in *.
    + intros H. rewrite !andb_true_iff in H. destruct H as [[Hc _] _].
      rewrite Hc. simpl. auto.
    + intros H. rewrite !andb_true_iff in H. destruct H as [[Hc Hx] Hxs].
      rewrite Hc. simpl. apply IH. now rewrite Hx.
Qed.

Lemma valid_hostname_chars (h : string) :
  Url.valid_hostname h = true -> Str.all host_char h = true.
Proof.
  unfold Url.valid_hostname. intros H. apply andb_true_iff in H as [H _].
  assert (H' : forallb (Str.all Url.label_char) (Str.split "." h) = true).
  { rewrite forallb_forall in *. intros l Hl. specialize (H l Hl).
    unfold Url.valid_label in H. rewrite !andb_true_iff in H. tauto. }
  apply split_all in H'. eapply all_impl; [|exact H'].
  intros c Hc. unfold host_char. apply orb_true_iff in Hc as [-> | ->]; simpl; auto.
  now rewrite orb_true_r.
Qed.

Lemma valid_port_chars (p : string) :
  Url.valid_port p = true -> Str.all host_char p = true.
Proof.
  destruct p as [|c d]; [reflexivity|].
  unfold Url.valid_port. rewrite !andb_true_iff. intros [[[Hc _] Hd] _].
  cbn [Str.all]. apply andb_true_iff. split.
  - unfold host_char. now rewrite Hc, orb_true_r.
  - eapply all_impl; [|exact Hd]. intros x Hx. unfold host_char.
    now rewrite (digit_label x Hx).
Qed.

Lemma first_is_spec (x : ascii) (s : string) :
  Url.first_is x s = true -> exists r, s = String x r.
Proof.
  destruct s as [|c r]; simpl; [discriminate|].
  intros H. apply Ascii.eqb_eq in H. subst. eauto.
Qed.

Lemma empty_or_first (x : ascii) (s : string) :
  (String.eqb s "" || Url.first_is x s)%bool = true ->
  s = "" \/ exists r, s = String x r.
Proof.
  intros H. apply orb_true_iff in H as [H|H].
  - left. now apply String.eqb_eq.
  - right. now apply first_is_spec.
Qed.

Lemma query_or_hash_parts (c : ascii) :
  Url.query_or_hash c = false ->
  Str.is_char "?" c = false /\ Str.is_char "#" c = false.
Proof. unfold Url.query_or_hash. apply orb_false_iff. Qed.

Lemma any_or (p q : ascii -> bool) (s : string) :
  Str.any (fun c => p c || q c)%bool s = (Str.any p s || Str.any q s)%bool.
Proof.
  induction s as [|c s IH]; simpl; [reflexivity|]. rewrite IH.
  destruct (p c), (q c), (Str.any p s), (Str.any q s); reflexivity.
Qed.

Lemma esc_first (x : ascii) (r : string) :
  In x ["#"; "?"; "/"]%char ->
  Url.autoEscapeStr (String x r) = String x (Url.autoEscapeStr r).
Proof. intros Hx. simpl in Hx. repeat destruct Hx as [<-|Hx]; try contradiction; reflexivity. Qed.

Lemma autoEscapeStr_app (a b : string) :
  Url.autoEscapeStr (a ++ b) = (Url.autoEscapeStr a ++ Url.autoEscapeStr b)%string.
Proof. apply concat_map_app. Qed.

Lemma autoEscapeStr_empty (s : string) : Url.autoEscapeStr s = "" -> s = "".
Proof.
  destruct s as [|c s]; [reflexivity|]. rewrite autoEscapeStr_eq. simpl.
  unfold esc. destruct (Url.autoEscape c); discriminate.
Qed.

Lemma parse_well_formed (sch hp path search hash : string) :
  well_formed sch hp path search hash = true ->
  Url.parse (sch ++ hp ++ path ++ search ++ hash) =
  obind (match Url.autoEscapeStr search with
         | EmptyString => Return (VObj [])
         | String _ qs => querystring.parse qs
         end)
    (fun query =>
       Return {| Url.protocol := Some (proto_of sch);
                 Url.slashes := true;
                 Url.host := Some hp;
                 Url.hash := Url.nonempty (Url.autoEscapeStr hash);
                 Url.search := Url.nonempty (Url.autoEscapeStr search);
                 Url.query := Some query;
                 Url.pathname :=
                   Some (if String.eqb (Url.autoEscapeStr path) "" then "/"
                         else Url.autoEscapeStr path) |}).
Proof.
  unfold well_formed. rewrite !andb_true_iff, !negb_true_iff.
  intros [[[[[[[[[Hsch Hh] Hp] Hg] Hqh] Hbs] Hpath] Hsearch] Hns] Hhash].
  assert (Hhp : Str.all host_char hp = true).
  { rewrite <- (span_eq (Str.is_char ":") hp), all_app.
    now rewrite (valid_hostname_chars _ Hh), (valid_port_chars _ Hp). }
  assert (Hhg : Str.all Str.is_graphic hp = true).
  { eapply all_impl; [|exact Hhp]. intros c Hc. now apply host_char_facts. }
  assert (Hhe : Str.any Url.host_end hp = false).
  { apply any_false_all. eapply all_impl; [|exact Hhp].
    intros c Hc. apply negb_true_iff. now apply host_char_facts. }
  apply empty_or_first in Hpath, Hsearch, Hhash.
  assert (Hrest : match (path ++ search ++ hash)%string with
                  | EmptyString => True
                  | String c _ => Url.host_end c = true
                  end).
  { destruct Hpath as [->|[r ->]]; [|reflexivity].
    destruct Hsearch as [->|[r ->]]; [|reflexivity].
    destruct Hhash as [->|[r ->]]; [exact I | reflexivity]. }
  assert (Htail : match (search ++ hash)%string with
                  | EmptyString => True
                  | String c _ => Url.query_or_hash c = true
                  end).
  { destruct Hsearch as [->|[r ->]]; [|reflexivity].
    destruct Hhash as [->|[r ->]]; [exact I | reflexivity]. }
  assert (Hpq : Str.any (Str.is_char "?") path = false /\
                Str.any (Str.is_char "#") path = false).
  { unfold Url.query_or_hash in Hqh. rewrite any_or in Hqh.
    now apply orb_false_iff in Hqh. }
  destruct Hpq as [Hpq Hph].
  unfold Url.parse.
  assert (Hall : Str.all Str.is_graphic (sch ++ hp ++ path ++ search ++ hash) = true).
  { rewrite !all_app in *. rewrite Hhg. apply andb_true_iff in Hg as [-> Hg].
    apply andb_true_iff in Hg as [-> ->].
    apply orb_true_iff in Hsch as [E|E]; apply String.eqb_eq in E; subst sch; reflexivity. }
  rewrite Hall. cbn [negb].
  assert (Hscheme : Url.scheme (sch ++ hp ++ path ++ search ++ hash)
                    = Some (proto_of sch, (hp ++ path ++ search ++ hash)%string)).
  { unfold Url.scheme, Str.starts_with.
    apply orb_true_iff in Hsch as [E|E]; apply String.eqb_eq in E; subst sch.
    - rewrite prefix_app. change 7%nat with (String.length "http://").
      now rewrite drop_app.
    - replace (String.prefix "http://" ("https://" ++ hp ++ path ++ search ++ hash))
        with false by reflexivity.
      rewrite prefix_app. change 8%nat with (String.length "https://").
      now rewrite drop_app. }
  rewrite Hscheme.
  rewrite (span_app Url.host_end hp _ Hhe Hrest).
  rewrite (surjective_pairing (Str.span (Str.is_char ":") hp)).
  rewrite Hh, Hp. cbn [andb negb].
  rewrite (span_app Url.query_or_hash path _ Hqh Htail). cbn [fst]. rewrite Hbs.
  rewrite !autoEscapeStr_app, <- append_assoc.
  assert (H1 : Str.span (Str.is_char "#")
                 ((Url.autoEscapeStr path ++ Url.autoEscapeStr search)
                  ++ Url.autoEscapeStr hash)
               = ((Url.autoEscapeStr path ++ Url.autoEscapeStr search)%string,
                  Url.autoEscapeStr hash)).
  { apply span_app.
    - rewrite any_app, !any_autoEscapeStr by (simpl; auto). now rewrite Hph, Hns.
    - destruct Hhash as [->|[r ->]]; [exact I|].
      rewrite esc_first by (simpl; auto). reflexivity. }
  rewrite H1.
  assert (H2 : Str.span (Str.is_char "?")
                 (Url.autoEscapeStr path ++ Url.autoEscapeStr search)
               = (Url.autoEscapeStr path, Url.autoEscapeStr search)).
  { apply span_app.
    - rewrite any_autoEscapeStr by (simpl; auto). exact Hpq.
    - destruct Hsearch as [->|[r ->]]; [exact I|].
      rewrite esc_first by (simpl; auto). reflexivity. }
  rewrite H2. reflexivity.
Qed.

Lemma pathname_of_facts (path : string) :
  (String.eqb path "" || Url.first_is "/" path)%bool = true ->
  Str.any Url.query_or_hash path = false ->
  Url.first_is "/" (pathname_of path) = true /\
  Str.any (Str.is_char "?") (pathname_of path) = false /\
  Str.any (Str.is_char "#") (pathname_of path) = false.
Proof.
  intros Hp Hq. unfold Url.query_or_hash in Hq. rewrite any_or in Hq.
  apply orb_false_iff in Hq as [Hq Hh]. unfold pathname_of.
  apply empty_or_first in Hp as [->|[r ->]]; [simpl; auto|].
  rewrite <- (any_autoEscapeStr "?"%char) in Hq by (simpl; auto).
  rewrite <- (any_autoEscapeStr "#"%char) in Hh by (simpl; auto).
  rewrite esc_first in * by (simpl; auto). cbn [String.eqb Url.first_is]. auto.
Qed.

(** What [_normalizeUrl] makes of a well-formed URL: scheme, host and
    path stay (the path escaped, or ["/"] when there is none), the
    fragment goes, and the query is written again from its decoded
    pairs. *)
Lemma normalizeUrl_well_formed (sch hp path search hash : string) :
  well_formed sch hp path search hash = true ->
  Client._normalizeUrl (sch ++ hp ++ path ++ search ++ hash) =
  obind (parsed_query search) (fun props =>
  obind (query_text props) (fun qs =>
  Return (sch ++ hp ++ pathname_of path
          ++ (if String.eqb qs "" then "" else "?" ++ qs))%string)).
Proof.
  intros Hwf. unfold Client._normalizeUrl. rewrite (parse_well_formed _ _ _ _ _ Hwf).
  unfold well_formed in Hwf. rewrite !andb_true_iff, !negb_true_iff in Hwf.
  destruct Hwf as [[[[[[[[[Hsch _] _] _] Hqh] _] Hpath] _] _] _].
  destruct (pathname_of_facts path Hpath Hqh) as (Hf & Hq & Hh).
  assert (Hquery :
    match Url.autoEscapeStr search with
    | EmptyString => Return (VObj [])
    | String _ qs => querystring.parse qs
    end = obind (parsed_query search) (fun props => Return (VObj props))).
  { unfold parsed_query, querystring.parse.
    destruct (Url.autoEscapeStr search) as [|c qs]; [reflexivity|].
    destruct (String.eqb qs ""); reflexivity. }
  rewrite Hquery. destruct (parsed_query search) as [props| |]; try reflexivity.
  cbn [obind Url.query Url.protocol Url.slashes Url.host Url.pathname].
  unfold query_text.
  destruct (omap _ (Js.own_keys props)) as [lines| |]; try reflexivity.
  cbn [obind]. unfold Url.format.
  cbn [Url.query Url.protocol Url.slashes Url.host Url.pathname Url.search Url.hash
       Url.or_empty obind String.eqb negb orb andb].
  fold (pathname_of path).
  assert (Hid : Str.concat_map
                  (fun c => if Str.is_char "#" c then "%23"
                            else if Str.is_char "?" c then "%3F"
                            else String c "") (pathname_of path) = pathname_of path).
  { apply concat_map_id. intros c Hc.
    apply any_false_all in Hq, Hh. rewrite all_In in Hq, Hh.
    specialize (Hq c Hc). specialize (Hh c Hc).
    apply negb_true_iff in Hq, Hh. now rewrite Hq, Hh. }
  rewrite Hid, Hf.
  assert (Hne : String.eqb (pathname_of path) "" = false).
  { destruct (pathname_of path); [discriminate | reflexivity]. }
  rewrite Hne. cbn [negb andb].
  apply orb_true_iff in Hsch as [E|E]; apply String.eqb_eq in E; subst sch;
    cbn; rewrite ?append_empty_r; destruct (String.eqb (Str.join "&" lines) "");
    cbn; rewrite ?append_empty_r, ?append_assoc; reflexivity.
Qed.

Lemma scheme_inv (url proto rest : string) :
  Url.scheme url = Some (proto, rest) ->
  exists sch, (String.eqb sch "http://" || String.eqb sch "https://")%bool = true /\
              url = (sch ++ rest)%string.
Proof.
  unfold Url.scheme, Str.starts_with.
  destruct (String.prefix "http://" url) eqn:E1.
  - intros H. injection H as _ <-. exists "http://". split; [reflexivity|].
    now apply prefix_eq in E1.
  - destruct (String.prefix "https://" url) eqn:E2; [|discriminate].
    intros H. injection H as _ <-. exists "https://". split; [reflexivity|].
    now apply prefix_eq in E2.
Qed.

Lemma span_first (p q : ascii -> bool) (s : string) :
  (forall c, p c = true -> q c = true) ->
  match s with EmptyString => True | String c _ => q c = true end ->
  match snd (Str.span p s) with
  | EmptyString => True
  | String c _ => p c = true
  end /\
  (fst (Str.span p s) = "" \/
   exists c r, fst (Str.span p s) = String c r /\ p c = false /\ q c = true).
Proof.
  intros Hpq Hs. split; [apply span_snd|].
  destruct s as [|c s]; simpl; [auto|].
  destruct (p c) eqn:E; [auto|].
  destruct (Str.span p s) as [a b]. right. exists c, a. auto.
Qed.

(** Every URL that [Url.parse] accepts is made of well-formed pieces. *)
Lemma parse_decompose (url : string) (o : Url.UrlObject) :
  Url.parse url = Return o ->
  exists sch hp path search hash,
    url = (sch ++ hp ++ path ++ search ++ hash)%string /\
    well_formed sch hp path search hash = true.
Proof.
  unfold Url.parse.
  destruct (Str.all Str.is_graphic url) eqn:Hg; [|discriminate]. cbn [negb].
  destruct (Url.scheme url) as [[proto after]|] eqn:Hs; [|discriminate].
  destruct (Str.span Url.host_end after) as [hp rest] eqn:Hhp.
  destruct (Str.span (Str.is_char ":") hp) as [h p] eqn:Hh.
  destruct (Url.valid_hostname h && Url.valid_port p)%bool eqn:Hv; [|discriminate].
  cbn [negb].
  destruct (Str.any (Str.is_char "\") (fst (Str.span Url.query_or_hash rest))) eqn:Hb;
    [discriminate|].
  intros _.
  apply scheme_inv in Hs as (sch & Hsch & ->).
  pose proof (span_eq Url.host_end after) as E1. rewrite Hhp in E1. cbn [fst snd] in E1.
  pose proof (span_snd Url.host_end after) as R1. rewrite Hhp in R1. cbn [snd] in R1.
  set (path := fst (Str.span Url.query_or_hash rest)) in *.
  set (tail := snd (Str.span Url.query_or_hash rest)).
  set (search := fst (Str.span (Str.is_char "#") tail)).
  set (hash := snd (Str.span (Str.is_char "#") tail)).
  assert (E2 : rest = (path ++ tail)%string) by (symmetry; apply span_eq).
  assert (E3 : tail = (search ++ hash)%string) by (symmetry; apply span_eq).
  exists sch, hp, path, search, hash. split.
  { rewrite <- E3, <- E2, E1. reflexivity. }
  unfold well_formed. rewrite Hh. cbn [fst snd].
  apply andb_true_iff in Hv as [-> ->]. rewrite Hsch, Hb. cbn [andb negb].
  assert (Hgr : Str.all Str.is_graphic (path ++ search ++ hash) = true).
  { rewrite <- E3, <- E2. rewrite <- E1, !all_app in Hg.
    apply andb_true_iff in Hg as [_ Hg]. now apply andb_true_iff in Hg as [_ Hg]. }
  rewrite Hgr. unfold path at 1. rewrite span_fst. cbn [andb negb].
  assert (Hpath : (String.eqb path "" || Url.first_is "/" path)%bool = true).
  { destruct (span_first Url.query_or_hash Url.host_end rest) as [_ [E|(c & r & E & Hc & Hq)]].
    - intros c. unfold Url.host_end, Url.query_or_hash.
      destruct (Str.is_char "/" c); auto.
    - exact R1.
    - fold path in E. now rewrite E.
    - fold path in E. rewrite E. cbn [String.eqb Url.first_is orb].
      unfold Url.host_end, Url.query_or_hash in *.
      destruct (Str.is_char "/" c); [reflexivity|]. cbn [orb] in Hq. congruence. }
  rewrite Hpath. cbn [andb].
  pose proof (span_snd Url.query_or_hash rest) as R2. fold tail in R2.
  assert (Hsearch : (String.eqb search "" || Url.first_is "?" search)%bool = true).
  { unfold search. destruct tail as [|c t]; [reflexivity|].
    cbn [Str.span]. destruct (Str.is_char "#" c) eqn:E; [reflexivity|].
    destruct (Str.span (Str.is_char "#") t). cbn [fst String.eqb Url.first_is orb].
    unfold Url.query_or_hash in R2. rewrite E, orb_false_r in R2. exact R2. }
  rewrite Hsearch. unfold search at 1. rewrite span_fst. cbn [andb negb].
  pose proof (span_snd (Str.is_char "#") tail) as R3. fold hash in R3.
  destruct hash as [|c t]; [reflexivity|]. cbn [String.eqb Url.first_is orb]. exact R3.
Qed.

(** ** Splitting and joining *)

Lemma split_nonempty (sep : ascii) (s : string) : Str.split sep s <> [].
Proof.
  induction s as [|c s IH]; simpl; [discriminate|].
  destruct (Str.is_char sep c); [discriminate|].
  destruct (Str.split sep s); discriminate.
Qed.

Lemma split_no_sep (sep : ascii) (s : string) :
  Str.any (Str.is_char sep) s = false -> Str.split sep s = [s].
Proof.
  induction s as [|c s IH]; simpl; [reflexivity|].
  intros H. apply orb_false_iff in H as [Hc Hs]. rewrite Hc, (IH Hs). reflexivity.
Qed.

Lemma split_app (sep : ascii) (a b : string) :
  Str.any (Str.is_char sep) a = false ->
  Str.split sep (a ++ String sep b) = a :: Str.split sep b.
Proof.
  induction a as [|c a IH]; simpl.
  - intros _. now rewrite Ascii.eqb_refl.
  - intros H. apply orb_false_iff in H as [Hc Ha]. rewrite Hc, (IH Ha). reflexivity.
Qed.

Lemma split_join (sep : ascii) (parts : list string) :
  parts <> [] ->
  Forall (fun x => Str.any (Str.is_char sep) x = false) parts ->
  Str.split sep (Str.join (String sep "") parts) = parts.
Proof.
  intros Hne Hall. induction Hall as [|x r Hx Hr IH]; [contradiction|].
  destruct r as [|y r'].
  - simpl. now apply split_no_sep.
  - change (Str.join (String sep "") (x :: y :: r'))
      with (x ++ String sep (Str.join (String sep "") (y :: r')))%string.
    rewrite (split_app sep x _ Hx), IH; [reflexivity | discriminate].
Qed.

Lemma split_prefix (sep : ascii) (a b : string) :
  Str.any (Str.is_char sep) a = false ->
  Str.split sep (a ++ b) =
  match Str.split sep b with
  | [] => [a]
  | x :: xs => (a ++ x)%string :: xs
  end.
Proof.
  induction a as [|c a IH]; simpl.
  - intros _. destruct (Str.split sep b) eqn:E; [now apply split_nonempty in E | reflexivity].
  - intros H. apply orb_false_iff in H as [Hc Ha]. rewrite Hc, (IH Ha).
    destruct (Str.split sep b); reflexivity.
Qed.

Lemma esc_amp : esc "&" = "&".
Proof. reflexivity. Qed.

(** Escaping commutes with cutting at a separator that it leaves alone. *)
Lemma split_autoEscapeStr (s : string) :
  Str.split "&" (Url.autoEscapeStr s) = map Url.autoEscapeStr (Str.split "&" s).
Proof.
  rewrite autoEscapeStr_eq. induction s as [|c s IH]; [reflexivity|].
  cbn [Str.concat_map Str.split].
  destruct (Str.is_char "&" c) eqn:E.
  - apply Ascii.eqb_eq in E. subst c. rewrite esc_amp.
    change (Str.split "&" ("&" ++ Str.concat_map esc s))
      with ("" :: Str.split "&" (Str.concat_map esc s)).
    rewrite IH. reflexivity.
  - assert (Hc : Str.any (Str.is_char "&") (esc c) = false)
      by (rewrite any_esc; [exact E | simpl; auto]).
    rewrite (split_prefix "&" _ _ Hc), IH.
    destruct (Str.split "&" s) as [|x xs] eqn:Es; [now apply split_nonempty in Es|].
    reflexivity.
Qed.

Lemma span_autoEscapeStr (s : string) :
  Str.span (Str.is_char "=") (Url.autoEscapeStr s) =
  (Url.autoEscapeStr (fst (Str.span (Str.is_char "=") s)),
   Url.autoEscapeStr (snd (Str.span (Str.is_char "=") s))).
Proof.
  pose proof (span_eq (Str.is_char "=") s) as E.
  pose proof (span_fst (Str.is_char "=") s) as F.
  pose proof (span_snd (Str.is_char "=") s) as G.
  destruct (Str.span (Str.is_char "=") s) as [a b]. cbn [fst snd] in *.
  rewrite <- E, autoEscapeStr_app. apply span_app.
  - rewrite any_autoEscapeStr; [exact F | simpl; auto].
  - destruct b as [|c b]; [exact I|].
    apply Ascii.eqb_eq in G. subst c. reflexivity.
Qed.

(** ** Queries without escapes *)



Lemma cut_segment_autoEscapeStr (seg : string) :
  querystring.cut_segment (Url.autoEscapeStr seg) =
  (Url.autoEscapeStr (fst (querystring.cut_segment seg)),
   Url.autoEscapeStr (snd (querystring.cut_segment seg))).
Proof.
  unfold querystring.cut_segment. rewrite span_autoEscapeStr.
  pose proof (span_snd (Str.is_char "=") seg) as G.
  destruct (Str.span (Str.is_char "=") seg) as [k rest]. cbn [fst snd] in *.
  destruct rest as [|c v]; [reflexivity|].
  apply Ascii.eqb_eq in G. subst c. reflexivity.
Qed.

Lemma autoEscapeStr_eqb_empty (s : string) :
  String.eqb (Url.autoEscapeStr s) "" = String.eqb s "".
Proof.
  destruct (String.eqb_spec s "") as [->|Hne]; [reflexivity|].
  destruct (String.eqb_spec (Url.autoEscapeStr s) "") as [E|]; [|reflexivity].
  now apply autoEscapeStr_empty in E.
Qed.


Lemma update_absent {A} (k : string) (v : A) (obj : list (string * A)) :
  Js.lookup k obj = None -> Js.update k v obj = obj ++ [(k, v)].
Proof.
  induction obj as [|[k' v'] r IH]; simpl; [reflexivity|].
  destruct (String.eqb k k'); [discriminate|]. intros H. now rewrite IH.
Qed.


(** ** Key order is stable *)










(** ** Writing a query and reading it back *)

Lemma omap_map {A B C} (f : B -> Outcome C) (g : A -> B) (h : A -> C) (l : list A) :
  (forall x, In x l -> f (g x) = Return (h x)) ->
  omap f (map g l) = Return (map h l).
Proof.
  induction l as [|a r IH]; intros H; simpl; [reflexivity|].
  rewrite (H a) by now left. simpl. rewrite IH; [reflexivity|].
  intros x Hx. apply H. now right.
Qed.

Lemma autoEscapeStr_join (parts : list string) :
  Url.autoEscapeStr (Str.join "&" parts) = Str.join "&" (map Url.autoEscapeStr parts).
Proof.
  induction parts as [|x r IH]; [reflexivity|].
  destruct r as [|y r']; [reflexivity|].
  change (Str.join "&" (x :: y :: r')) with (x ++ "&" ++ Str.join "&" (y :: r'))%string.
  rewrite !autoEscapeStr_app, IH. reflexivity.
Qed.






Lemma join_lines_nonempty (e : string * string) (r : list (string * string)) :
  String.eqb (Str.join "&" (map entry_line (e :: r))) "" = false.
Proof.
  cbn [map]. destruct (map entry_line r); cbn [Str.join]; unfold entry_line;
    destruct (fst e); reflexivity.
Qed.


Lemma lookup_pairs (l : list (string * string)) (e : string * string) :
  NoDup (map fst l) -> In e l ->
  Js.lookup (fst e) (map (fun e => (fst e, VStr (snd e))) l) = Some (VStr (snd e)).
Proof.
  induction l as [|[k s] r IH]; intros Hnd Hin; [contradiction|].
  inversion Hnd as [|? ? Hk Hr]; subst. simpl.
  destruct Hin as [<-|Hin].
  - simpl. now rewrite String.eqb_refl.
  - destruct (String.eqb_spec (fst e) k) as [E|_]; [|now apply IH].
    exfalso. apply Hk. rewrite <- E. now apply in_map.
Qed.


(** ** Normalizing twice *)









Lemma well_formed_parts (sch hp path search hash : string) :
  well_formed sch hp path search hash = true ->
  ((String.eqb sch "http://" || String.eqb sch "https://")
   && Url.valid_hostname (fst (Str.span (Str.is_char ":") hp))
   && Url.valid_port (snd (Str.span (Str.is_char ":") hp)))%bool = true /\
  Str.all Str.is_graphic path = true /\
  Str.all Str.is_graphic search = true /\
  Str.any Url.query_or_hash path = false /\
  (String.eqb path "" || Url.first_is "/" path)%bool = true /\
  (String.eqb search "" || Url.first_is "?" search)%bool = true /\
  Str.any (Str.is_char "#") search = false.
Proof.
  unfold well_formed. rewrite !all_app, !andb_true_iff, !negb_true_iff. tauto.
Qed.


(** ** Percent-encoded queries *)

Lemma escape_eq (s : string) : querystring.escape s = Str.concat_map escape_char s.
Proof. reflexivity. Qed.

(** A percent-encoded character, as it reaches [querystring.parse]. *)
Lemma unescape_escape_char (c : ascii) (r : string) :
  querystring.unescapeBuffer (Url.autoEscapeStr (escape_char c) ++ r)
  = String c (querystring.unescapeBuffer r).
Proof. each_char c. Qed.

Lemma any_escape_char (x c : ascii) :
  In x ["#"; "?"; "&"; "="; "+"]%char ->
  Str.any (Str.is_char x) (Url.autoEscapeStr (escape_char c)) = false.
Proof.
  intros Hx. simpl in Hx.
  repeat destruct Hx as [<-|Hx]; try contradiction; each_char c.
Qed.

Lemma escape_char_graphic (c : ascii) :
  Str.all Str.is_graphic (escape_char c) = true.
Proof. each_char c. Qed.

Lemma any_escape_raw (x c : ascii) :
  In x ["#"; "?"; "&"; "="; "+"]%char ->
  Str.any (Str.is_char x) (escape_char c) = false.
Proof.
  intros Hx. simpl in Hx.
  repeat destruct Hx as [<-|Hx]; try contradiction; each_char c.
Qed.

Lemma any_encoded (x : ascii) (s : string) :
  In x ["#"; "?"; "&"; "="; "+"]%char ->
  Str.any (Str.is_char x) (encoded s) = false.
Proof.
  intros Hx. unfold encoded. rewrite escape_eq.
  induction s as [|c s IH]; [reflexivity|].
  cbn [Str.concat_map]. now rewrite autoEscapeStr_app, any_app, any_escape_char, IH.
Qed.

Lemma any_escape (x : ascii) (s : string) :
  In x ["#"; "?"; "&"; "="; "+"]%char ->
  Str.any (Str.is_char x) (querystring.escape s) = false.
Proof.
  intros Hx. rewrite escape_eq.
  induction s as [|c s IH]; [reflexivity|].
  cbn [Str.concat_map]. now rewrite any_app, any_escape_raw, IH.
Qed.

Lemma escape_graphic (s : string) :
  Str.all Str.is_graphic (querystring.escape s) = true.
Proof.
  rewrite escape_eq. induction s as [|c s IH]; [reflexivity|].
  cbn [Str.concat_map]. now rewrite all_app, escape_char_graphic, IH.
Qed.

Lemma unescapeBuffer_encoded (s : string) :
  querystring.unescapeBuffer (encoded s) = s.
Proof.
  unfold encoded. rewrite escape_eq.
  induction s as [|c s IH]; [reflexivity|].
  cbn [Str.concat_map]. now rewrite autoEscapeStr_app, unescape_escape_char, IH.
Qed.

Lemma unescape_v8_escape_char (c : ascii) (r : string) :
  querystring.unescapeBuffer_v8 (Url.autoEscapeStr (escape_char c) ++ r)
  = String c (querystring.unescapeBuffer_v8 r).
Proof. each_char c. Qed.

Lemma unescapeBuffer_v8_encoded (s : string) :
  querystring.unescapeBuffer_v8 (encoded s) = s.
Proof.
  unfold encoded. rewrite escape_eq.
  induction s as [|c s IH]; [reflexivity|].
  cbn [Str.concat_map]. now rewrite autoEscapeStr_app, unescape_v8_escape_char, IH.
Qed.

(** Decoding undoes percent-encoding, on ASCII text. *)
Lemma decode_encoded (s : string) :
  Str.all querystring.is_ascii s = true -> querystring.decode (encoded s) = Return s.
Proof.
  intros Ha. unfold querystring.decode, querystring.unescape.
  rewrite plus_to_space_id by (apply any_encoded; simpl; auto 10).
  now rewrite unescapeBuffer_encoded, unescapeBuffer_v8_encoded, String.eqb_refl, Ha.
Qed.

Lemma parse_segments_encoded (l : list (string * string)) :
  Forall ascii_entry l ->
  forall obj,
    NoDup (map fst obj ++ map fst l) ->
    querystring.parse_segments (map encoded_line l) obj
    = Return (obj ++ map (fun e => (fst e, VStr (snd e))) l).
Proof.
  induction 1 as [|[k s] r (Hk & Hs) Hr IH]; intros obj Hnd;
    cbn [map querystring.parse_segments].
  - now rewrite app_nil_r.
  - cbn [fst snd] in *.
    change (encoded_line (k, s)) with (encoded k ++ "=" ++ encoded s)%string.
    assert (Hne : String.eqb (encoded k ++ "=" ++ encoded s) "" = false).
    { destruct (encoded k); reflexivity. }
    rewrite Hne.
    assert (Hcut : querystring.cut_segment (encoded k ++ "=" ++ encoded s)
                   = (encoded k, encoded s)).
    { unfold querystring.cut_segment. rewrite span_app; [reflexivity | | reflexivity].
      apply any_encoded. simpl; auto. }
    rewrite Hcut, (decode_encoded k Hk), (decode_encoded s Hs). cbn [obind].
    assert (Hnew : Js.lookup k obj = None).
    { destruct (Js.lookup k obj) eqn:E; [|reflexivity].
      apply lookup_In in E. apply NoDup_remove_2 in Hnd.
      exfalso. apply Hnd. apply in_or_app. now left. }
    unfold querystring.addKeyValue. rewrite Hnew, (update_absent _ _ _ Hnew).
    rewrite IH.
    + now rewrite <- app_assoc.
    + rewrite map_app. cbn. rewrite <- app_assoc. exact Hnd.
Qed.

Lemma join_all (p : ascii -> bool) (sep : string) (parts : list string) :
  Str.all p sep = true ->
  Forall (fun x => Str.all p x = true) parts ->
  Str.all p (Str.join sep parts) = true.
Proof.
  intros Hsep. induction 1 as [|x r Hx Hr IH]; [reflexivity|].
  destruct r as [|y r']; [exact Hx|].
  change (Str.join sep (x :: y :: r')) with (x ++ sep ++ Str.join sep (y :: r'))%string.
  now rewrite !all_app, Hx, Hsep, IH.
Qed.

Lemma join_any (p : ascii -> bool) (sep : string) (parts : list string) :
  Str.any p sep = false ->
  Forall (fun x => Str.any p x = false) parts ->
  Str.any p (Str.join sep parts) = false.
Proof.
  intros Hsep. induction 1 as [|x r Hx Hr IH]; [reflexivity|].
  destruct r as [|y r']; [exact Hx|].
  change (Str.join sep (x :: y :: r')) with (x ++ sep ++ Str.join sep (y :: r'))%string.
  now rewrite !any_app, Hx, Hsep, IH.
Qed.

Lemma encoded_query_facts (l : list (string * string)) :
  Str.all Str.is_graphic (encoded_query l) = true /\
  Str.any (Str.is_char "#") (encoded_query l) = false.
Proof.
  unfold encoded_query. split.
  - apply join_all; [reflexivity|]. apply Forall_forall. intros x Hx.
    apply in_map_iff in Hx as (e & <- & _).
    now rewrite !all_app, !escape_graphic.
  - apply join_any; [reflexivity|]. apply Forall_forall. intros x Hx.
    apply in_map_iff in Hx as (e & <- & _).
    rewrite !any_app, !any_escape by (simpl; auto). reflexivity.
Qed.

Lemma parsed_query_encoded (l : list (string * string)) :
  Forall ascii_entry l -> NoDup (map fst l) ->
  (List.length l <= querystring.maxKeys)%nat ->
  parsed_query ("?" ++ encoded_query l) =
  Return (map (fun e => (fst e, VStr (snd e))) l).
Proof.
  intros Hall Hnd Hlen. unfold parsed_query.
  change ("?" ++ encoded_query l)%string with (String "?" (encoded_query l)).
  rewrite esc_first by (simpl; auto).
  destruct l as [|e r]; [reflexivity|].
  assert (Hne : String.eqb (Url.autoEscapeStr (encoded_query (e :: r))) "" = false).
  { rewrite autoEscapeStr_eqb_empty. unfold encoded_query. cbn [map].
    destruct (map _ r); cbn [Str.join]; destruct (querystring.escape (fst e)); reflexivity. }
  rewrite Hne. unfold encoded_query.
  rewrite autoEscapeStr_join, map_map.
  rewrite (map_ext _ encoded_line)
    by (intros x; unfold encoded_line, encoded; now rewrite !autoEscapeStr_app).
  rewrite split_join.
  - rewrite firstn_all2 by (rewrite length_map; exact Hlen).
    rewrite (parse_segments_encoded _ Hall []); [reflexivity | exact Hnd].
  - discriminate.
  - apply Forall_forall. intros x Hx. apply in_map_iff in Hx as (y & <- & Hy).
    unfold encoded_line. rewrite !any_app, !any_encoded by (simpl; auto). reflexivity.
Qed.

(** ** Queries in clear *)

Lemma plus_to_space_app (a b : string) :
  querystring.plus_to_space (a ++ b)
  = (querystring.plus_to_space a ++ querystring.plus_to_space b)%string.
Proof. apply concat_map_app. Qed.

Lemma plus_to_space_esc (c : ascii) :
  Str.is_char "+" c = false -> querystring.plus_to_space (esc c) = esc c.
Proof. intros H. each_char c. Qed.

Lemma hex_char_facts (h : ascii) (a : N) :
  Str.hex_value h = Some a ->
  esc h = String h "" /\ Str.is_char "+" h = false /\ Str.is_char "%" h = false.
Proof. each_char h; auto. Qed.

(** What reaches the decoder for a raw text: the text escaped by
    [Url.parse], with its ['+'] turned into spaces. *)
Lemma decoder_input_cons (c : ascii) (r : string) :
  querystring.plus_to_space (Url.autoEscapeStr (String c r))
  = (querystring.plus_to_space (esc c)
     ++ querystring.plus_to_space (Url.autoEscapeStr r))%string.
Proof.
  rewrite autoEscapeStr_eq. cbn [Str.concat_map]. now rewrite plus_to_space_app.
Qed.

Lemma clear_text_decoded (n : nat) :
  forall raw s,
    (String.length raw <= n)%nat -> clear_text raw = Some s ->
    let input := querystring.plus_to_space (Url.autoEscapeStr raw) in
    querystring.unescapeBuffer input = s /\
    querystring.unescapeBuffer_v8 input = s /\
    Str.all querystring.is_ascii s = true.
Proof.
  induction n as [|n IH]; intros raw s Hlen Hc input; subst input.
  - destruct raw; [|simpl in Hlen; lia]. injection Hc as <-. auto.
  - destruct raw as [|c r]; [injection Hc as <-; auto|].
    cbn [String.length] in Hlen. rewrite decoder_input_cons.
    cbn [clear_text] in Hc.
    destruct (Str.is_char "+" c) eqn:Eplus.
    { apply Ascii.eqb_eq in Eplus. subst c.
      destruct (clear_text r) as [s'|] eqn:Er; [|discriminate].
      injection Hc as <-.
      destruct (IH r s' ltac:(lia) Er) as (H1 & H2 & H3).
      change (querystring.plus_to_space (esc "+")) with " ".
      cbn [append querystring.unescapeBuffer querystring.unescapeBuffer_v8
           Str.is_char Ascii.eqb Bool.eqb Str.all].
      rewrite H1, H2, H3. auto. }
    destruct (Str.is_char "%" c) eqn:Epct.
    { apply Ascii.eqb_eq in Epct. subst c.
      destruct r as [|h [|l r']]; try discriminate.
      destruct (Str.hex_value h) as [a|] eqn:Eh; [|discriminate].
      destruct (Str.hex_value l) as [b|] eqn:El; [|discriminate].
      set (byte := (16 * a + b)%N) in *.
      destruct (N.ltb byte 128) eqn:Elt; [|discriminate].
      destruct (clear_text r') as [s'|] eqn:Er; [|discriminate].
      injection Hc as <-.
      cbn [String.length] in Hlen.
      destruct (IH r' s' ltac:(lia) Er) as (H1 & H2 & H3).
      destruct (hex_char_facts h a Eh) as (Hh1 & Hh2 & Hh3).
      destruct (hex_char_facts l b El) as (Hl1 & Hl2 & Hl3).
      rewrite !decoder_input_cons.
      rewrite (plus_to_space_esc h Hh2), (plus_to_space_esc l Hl2), Hh1, Hl1.
      change (querystring.plus_to_space (esc "%")) with "%".
      cbn [append querystring.unescapeBuffer querystring.unescapeBuffer_v8
           Str.is_char Ascii.eqb Bool.eqb].
      rewrite Eh, El, H1, H2. cbn [Str.all]. rewrite H3.
      split; [reflexivity|]. split; [reflexivity|].
      unfold querystring.is_ascii, Str.code.
      rewrite N_ascii_embedding by (apply N.ltb_lt in Elt; lia).
      now rewrite Elt. }
    destruct (querystring.is_ascii c) eqn:Easc; [|discriminate].
    destruct (clear_text r) as [s'|] eqn:Er; [|discriminate].
    injection Hc as <-.
    destruct (IH r s' ltac:(lia) Er) as (H1 & H2 & H3).
    rewrite (plus_to_space_esc c Eplus).
    rewrite (unescape_esc c _ Epct), (unescape_v8_esc c _ Epct), H1, H2.
    cbn [Str.all]. now rewrite Easc, H3.
Qed.

(** Decoding gives the reading of the raw text. *)
Lemma decode_clear_text (raw s : string) :
  clear_text raw = Some s -> querystring.decode (Url.autoEscapeStr raw) = Return s.
Proof.
  intros H.
  destruct (clear_text_decoded (String.length raw) raw s (Nat.le_refl _) H)
    as (H1 & H2 & H3).
  unfold querystring.decode, querystring.unescape.
  now rewrite H1, H2, String.eqb_refl, H3.
Qed.

Lemma raw_pair_cut (seg : string) : raw_pair seg = querystring.cut_segment seg.
Proof.
  unfold raw_pair, querystring.cut_segment.
  destruct (Str.span (Str.is_char "=") seg) as [k rest]. cbn [fst snd].
  destruct rest; reflexivity.
Qed.

Lemma parse_segments_clear (segs : list string) :
  forall pairs obj,
    clear_pairs (map raw_pair (filter (fun seg => negb (String.eqb seg "")) segs))
    = Some pairs ->
    querystring.parse_segments (map Url.autoEscapeStr segs) obj
    = Return (fold_left add_pair pairs obj).
Proof.
  induction segs as [|seg r IH]; intros pairs obj H.
  - injection H as <-. reflexivity.
  - cbn [map querystring.parse_segments filter] in *.
    rewrite autoEscapeStr_eqb_empty.
    destruct (String.eqb seg ""); cbn [negb] in H; [now apply IH|].
    cbn [map clear_pairs] in H. rewrite raw_pair_cut in H.
    rewrite cut_segment_autoEscapeStr.
    destruct (clear_text (fst (querystring.cut_segment seg))) as [k|] eqn:Ek;
      [|discriminate].
    destruct (clear_text (snd (querystring.cut_segment seg))) as [v|] eqn:Ev;
      [|discriminate].
    destruct (clear_pairs _) as [l|] eqn:El; [|discriminate].
    injection H as <-.
    rewrite (decode_clear_text _ _ Ek), (decode_clear_text _ _ Ev). cbn [obind].
    cbn [fold_left]. apply IH. reflexivity.
Qed.

(** ** Repeated keys *)

Lemma values_of_app (k : string) (p q : list (string * string)) :
  values_of k (p ++ q) = values_of k p ++ values_of k q.
Proof. unfold values_of. now rewrite filter_app, map_app. Qed.

Lemma values_of_absent (k : string) (p : list (string * string)) :
  ~ In k (map fst p) -> values_of k p = [].
Proof.
  unfold values_of. induction p as [|e r IH]; intros H; [reflexivity|].
  cbn [filter]. destruct (String.eqb_spec (fst e) k) as [E|_].
  - exfalso. apply H. left. exact E.
  - apply IH. intros Hin. apply H. now right.
Qed.

Lemma values_of_present (k : string) (p : list (string * string)) :
  In k (map fst p) -> values_of k p <> [].
Proof.
  unfold values_of. induction p as [|e r IH]; intros H; [contradiction|].
  cbn [filter]. destruct (String.eqb_spec (fst e) k) as [E|Hne]; [discriminate|].
  apply IH. destruct H as [H|H]; [contradiction | exact H].
Qed.

Lemma first_keys_snoc (ks : list string) (k : string) :
  first_keys (ks ++ [k]) =
  if existsb (String.eqb k) ks then first_keys ks else first_keys ks ++ [k].
Proof.
  induction ks as [|a ks IH]; [reflexivity|].
  cbn [app first_keys existsb]. rewrite IH.
  destruct (existsb (String.eqb k) ks).
  - now rewrite orb_true_r.
  - rewrite orb_false_r, filter_app. cbn [filter].
    destruct (String.eqb k a); cbn [negb]; [now rewrite app_nil_r | reflexivity].
Qed.

Lemma first_keys_In (ks : list string) (k : string) :
  In k (first_keys ks) <-> In k ks.
Proof.
  induction ks as [|a ks IH]; [reflexivity|].
  cbn [first_keys In]. rewrite filter_In, IH, negb_true_iff.
  destruct (String.eqb_spec k a) as [->|Hne].
  - split; auto.
  - split; [intros [H|[H _]] | intros [H|H]]; auto.
Qed.

Lemma first_keys_NoDup (ks : list string) : NoDup (first_keys ks).
Proof.
  induction ks as [|a ks IH]; cbn [first_keys]; constructor.
  - rewrite filter_In, String.eqb_refl. intros [_ H]. discriminate.
  - now apply NoDup_filter.
Qed.


Lemma existsb_In (k : string) (ks : list string) :
  existsb (String.eqb k) ks = true <-> In k ks.
Proof.
  rewrite existsb_exists. split.
  - intros (x & Hx & E). apply String.eqb_eq in E. now subst.
  - intros H. exists k. split; [exact H | apply String.eqb_refl].
Qed.

Lemma lookup_listed (f : string -> JsVal) (ks : list string) (k : string) :
  Js.lookup k (map (fun x => (x, f x)) ks) =
  if existsb (String.eqb k) ks then Some (f k) else None.
Proof.
  induction ks as [|a ks IH]; [reflexivity|].
  cbn [map Js.lookup existsb]. destruct (String.eqb_spec k a) as [->|_]; [reflexivity|].
  exact IH.
Qed.

Lemma update_listed (f g : string -> JsVal) (ks : list string) (k : string) :
  NoDup ks -> In k ks -> (forall x, x <> k -> g x = f x) ->
  Js.update k (g k) (map (fun x => (x, f x)) ks) = map (fun x => (x, g x)) ks.
Proof.
  intros Hnd Hin Hg. induction Hnd as [|a r Ha Hr IH]; [contradiction|].
  cbn [map Js.update]. destruct (String.eqb_spec k a) as [->|Hne].
  - f_equal. apply map_ext_in. intros x Hx. rewrite Hg; [reflexivity|].
    intros ->. contradiction.
  - rewrite (Hg a) by congruence. f_equal. apply IH.
    destruct Hin as [->|Hin]; [contradiction | exact Hin].
Qed.

Lemma value_of_snoc (vs : list string) (v : string) :
  vs <> [] ->
  value_of (vs ++ [v]) =
  match value_of vs with
  | VArr l => VArr (l ++ [VStr v])
  | cur => VArr [cur; VStr v]
  end.
Proof.
  destruct vs as [|x [|y r]]; [contradiction | reflexivity |]. intros _.
  cbn [value_of app]. destruct (r ++ [v]) eqn:E.
  - destruct r; discriminate.
  - rewrite <- E. cbn [map]. now rewrite map_app.
Qed.

(** Reading one more pair extends the object to that of the longer list
    of pairs. *)
Lemma add_pair_snoc (p : list (string * string)) (e : string * string) :
  add_pair (object_of p) e = object_of (p ++ [e]).
Proof.
  destruct e as [k v]. unfold add_pair, querystring.addKeyValue. cbn [fst snd].
  assert (Hl : Js.lookup k (object_of p) =
               if existsb (String.eqb k) (map fst p)
               then Some (value_of (values_of k p)) else None).
  { unfold object_of. rewrite lookup_listed.
    destruct (existsb (String.eqb k) (first_keys (map fst p))) eqn:E1;
      destruct (existsb (String.eqb k) (map fst p)) eqn:E2; try reflexivity; exfalso.
    - apply (proj1 (existsb_In _ _)), (proj1 (first_keys_In _ _)),
        (proj2 (existsb_In _ _)) in E1. congruence.
    - apply (proj1 (existsb_In _ _)), (proj2 (first_keys_In _ _)),
        (proj2 (existsb_In _ _)) in E2. congruence. }
  assert (Hkeys : first_keys (map fst (p ++ [(k, v)])) =
                  if existsb (String.eqb k) (map fst p)
                  then first_keys (map fst p) else first_keys (map fst p) ++ [k]).
  { rewrite map_app. cbn [map fst]. apply first_keys_snoc. }
  assert (Hother : forall x, x <> k -> values_of x (p ++ [(k, v)]) = values_of x p).
  { intros x Hx. rewrite values_of_app. unfold values_of at 2. cbn [filter fst].
    destruct (String.eqb_spec k x) as [->|_]; [contradiction|]. apply app_nil_r. }
  assert (Hk : values_of k (p ++ [(k, v)]) = values_of k p ++ [v]).
  { rewrite values_of_app. unfold values_of at 2. cbn [filter fst].
    now rewrite String.eqb_refl. }
  rewrite Hl. destruct (existsb (String.eqb k) (map fst p)) eqn:E.
  - assert (Hin : In k (map fst p)) by now apply existsb_In.
    pose proof (value_of_snoc (values_of k p) v (values_of_present k p Hin)) as Hv.
    assert (Hupd : Js.update k (value_of (values_of k (p ++ [(k, v)])))
                     (object_of p) = object_of (p ++ [(k, v)])).
    { unfold object_of. rewrite Hkeys.
      apply (update_listed (fun x => value_of (values_of x p))
               (fun x => value_of (values_of x (p ++ [(k, v)])))).
      - apply first_keys_NoDup.
      - now apply first_keys_In.
      - intros x Hx. now rewrite Hother. }
    rewrite <- Hupd, Hk, Hv.
    destruct (value_of (values_of k p)); reflexivity.
  - assert (Hout : ~ In k (map fst p)).
    { intros H. apply existsb_In in H. congruence. }
    rewrite (update_absent _ _ _ Hl).
    unfold object_of. rewrite Hkeys, map_app. cbn [map].
    rewrite Hk, (values_of_absent k p Hout). cbn [app value_of].
    f_equal. apply map_ext_in. intros x Hx. rewrite Hother; [reflexivity|].
    intros ->. apply Hout. now apply first_keys_In.
Qed.

Lemma fold_add_pair (l : list (string * string)) :
  forall p, fold_left add_pair l (object_of p) = object_of (p ++ l).
Proof.
  induction l as [|e r IH]; intros p; cbn [fold_left].
  - now rewrite app_nil_r.
  - rewrite add_pair_snoc, IH, <- app_assoc. reflexivity.
Qed.

(** How an array of strings prints. *)
Lemma to_string_strings (vs : list string) :
  Js.to_string (VArr (map VStr vs)) = Return (Str.join "," vs).
Proof.
  induction vs as [|x r IH]; [reflexivity|].
  destruct r as [|y r']; [reflexivity|].
  change (Str.join "," (x :: y :: r')) with (x ++ "," ++ Str.join "," (y :: r'))%string.
  cbn [map Js.to_string] in *. rewrite IH. reflexivity.
Qed.

Lemma to_string_value_of (vs : list string) :
  Js.to_string (value_of vs) = Return (Str.join "," vs).
Proof.
  destruct vs as [|x [|y r]]; [reflexivity | reflexivity |].
  apply (to_string_strings (x :: y :: r)).
Qed.

Lemma own_keys_object_of (pairs : list (string * string)) :
  Js.own_keys (object_of pairs) = Js.ordered_keys (first_keys (map fst pairs)).
Proof.
  unfold Js.own_keys, object_of. rewrite map_map. cbn [fst]. now rewrite map_id.
Qed.

(** The text written for the object of the pairs. *)
Lemma query_text_object_of (pairs : list (string * string)) :
  query_text (object_of pairs)
  = Return (Str.join "&" (map entry_line (query_lines pairs))).
Proof.
  unfold query_text. rewrite own_keys_object_of.
  unfold query_lines. rewrite map_map.
  rewrite <- (map_id (Js.ordered_keys (first_keys (map fst pairs)))) at 1.
  rewrite (omap_map _ (fun k => k)
             (fun k => entry_line (k, Str.join "," (values_of k pairs)))).
  - reflexivity.
  - intros k Hk.
    assert (Hin : In k (first_keys (map fst pairs))).
    { eapply Permutation_in; [apply ordered_keys_perm | exact Hk]. }
    assert (Hl : Js.lookup k (object_of pairs) = Some (value_of (values_of k pairs))).
    { unfold object_of. rewrite lookup_listed.
      now rewrite (proj2 (existsb_In k _) Hin). }
    rewrite (get_own _ _ _ Hl). cbn [obind]. rewrite to_string_value_of. reflexivity.
Qed.

Lemma query_lines_nonempty (e : string * string) (r : list (string * string)) :
  query_lines (e :: r) <> [].
Proof.
  unfold query_lines. intros H. apply (f_equal (@List.length _)) in H.
  rewrite length_map, (Permutation_length (ordered_keys_perm _)) in H.
  discriminate.
Qed.

Lemma query_part_eq (pairs : list (string * string)) :
  query_part pairs =
  let qs := Str.join "&" (map entry_line (query_lines pairs)) in
  if String.eqb qs "" then "" else ("?" ++ qs)%string.
Proof.
  destruct pairs as [|e r]; [reflexivity|]. cbn zeta.
  pose proof (query_lines_nonempty e r) as Hne.
  unfold query_part. destruct (query_lines (e :: r)) as [|x xs]; [contradiction|].
  now rewrite join_lines_nonempty.
Qed.

(** The query object of a URL whose keys and values have a reading. *)
Lemma parsed_query_clear (search : string) (pairs : list (string * string)) :
  (String.eqb search "" || Url.first_is "?" search)%bool = true ->
  clear_pairs (raw_pairs search) = Some pairs ->
  parsed_query search = Return (object_of pairs).
Proof.
  intros Hf Hc. unfold parsed_query.
  apply empty_or_first in Hf as [->|[body ->]].
  - vm_compute in Hc. injection Hc as <-. reflexivity.
  - rewrite esc_first by (simpl; auto). rewrite autoEscapeStr_eqb_empty.
    destruct (String.eqb_spec body "") as [->|Hne].
    + vm_compute in Hc. injection Hc as <-. reflexivity.
    + rewrite split_autoEscapeStr, firstn_map.
      unfold raw_pairs in Hc. cbn [Str.drop] in Hc.
      rewrite (parse_segments_clear _ pairs [] Hc).
      change (@nil (string * JsVal)) with (object_of []).
      now rewrite fold_add_pair.
Qed.

(** What [_normalizeUrl] returns for a well-formed URL whose query has a
    reading: scheme, host and path stay, the fragment goes, and the query is
    written from the pairs in clear. *)
Lemma normalizeUrl_pairs (sch hp path search hash : string)
  (pairs : list (string * string)) :
  well_formed sch hp path search hash = true ->
  clear_pairs (raw_pairs search) = Some pairs ->
  Client._normalizeUrl (sch ++ hp ++ path ++ search ++ hash) =
  Return (sch ++ hp ++ pathname_of path ++ query_part pairs)%string.
Proof.
  intros Hwf Hc. rewrite (normalizeUrl_well_formed _ _ _ _ _ Hwf).
  destruct (well_formed_parts _ _ _ _ _ Hwf) as (_ & _ & _ & _ & _ & Hs & _).
  rewrite (parsed_query_clear search pairs Hs Hc). cbn [obind].
  rewrite query_text_object_of. cbn [obind]. now rewrite query_part_eq.
Qed.

(** C5: [_normalizeUrl] drops the fragment and writes the query again as
    its decoded [key=value] pairs joined by ['&'].  For the URL of the
    example this gives the query [x=1].  In general, for a well-formed
    URL (absolute, [http] or [https], scheme and host in lower case,
    printable ASCII without white space) whose query has a reading (a
    ['+'] is a space, a ['%'] starts the escape of an ASCII character, any
    other character, reserved or not, stands for itself): scheme, host
    and path stay, the fragment goes, and the query is one [key=value]
    per key in clear, with the values of a repeated key joined by [','],
    in the order of [Object.keys].  Without a query the URL comes out
    without its fragment. *)
Theorem normalizeUrl_strips_fragment_and_decodes_query :
  Client._normalizeUrl "https://a.com/p?x=1#frag" = Return "https://a.com/p?x=1" /\
  (forall (sch hp path search hash : string) (pairs : list (string * string)),
     well_formed sch hp path search hash = true ->
     clear_pairs (raw_pairs search) = Some pairs ->
     Client._normalizeUrl (sch ++ hp ++ path ++ search ++ hash) =
     Return (sch ++ hp ++ pathname_of path ++ query_part pairs)%string) /\
  (forall (sch hp path hash : string),
     well_formed sch hp path "" hash = true ->
     Client._normalizeUrl (sch ++ hp ++ path ++ hash) =
     Return (sch ++ hp ++ pathname_of path)%string).
Proof.
  split; [reflexivity|]. split.
  - apply normalizeUrl_pairs.
  - intros sch hp path hash Hwf.
    pose proof (normalizeUrl_pairs sch hp path "" hash [] Hwf eq_refl) as H.
    cbn [append query_part] in H. now rewrite append_empty_r in H.
Qed.

Lemma normalizeUrl_strips_fragment_and_decodes_query_witness :
  Client._normalizeUrl
    "http://localhost:7001/home?redirect=https%3a%2F%2Fb.com/q%3Fa%3D1&n=1&tag=a+b&&n=2&k=v=w&10=x&9#top"
  = Return "http://localhost:7001/home?9=&10=x&redirect=https://b.com/q?a=1&n=1,2&tag=a b&k=v=w".
Proof.
  refine (proj1 (proj2 normalizeUrl_strips_fragment_and_decodes_query)
            "http://" "localhost:7001" "/home"
            "?redirect=https%3a%2F%2Fb.com/q%3Fa%3D1&n=1&tag=a+b&&n=2&k=v=w&10=x&9" "#top"
            [("redirect", "https://b.com/q?a=1"); ("n", "1"); ("tag", "a b");
             ("n", "2"); ("k", "v=w"); ("10", "x"); ("9", "")] _ _).
  - reflexivity.
  - reflexivity.
Defined.

(** ** Normalizing twice, in general *)








(** Why the condition is there: each of the characters set apart is read
    anew by a second pass.  A decoded ['&'] separates two pairs, a decoded
    ['%'] starts an escape, a decoded ['+'] is a space, and a decoded ['=']
    in a key ends the key.  (A decoded space at the very end is trimmed
    before the second pass parses the URL; URLs with white space are
    outside what [Url.parse] describes here.) *)
Lemma normalizeUrl_reads_decoded_text_anew :
  (Client._normalizeUrl "https://a.com/p?x=a%26b" = Return "https://a.com/p?x=a&b" /\
   Client._normalizeUrl "https://a.com/p?x=a&b" = Return "https://a.com/p?x=a&b=") /\
  (Client._normalizeUrl "https://a.com/p?x=%2541" = Return "https://a.com/p?x=%41" /\
   Client._normalizeUrl "https://a.com/p?x=%41" = Return "https://a.com/p?x=A") /\
  (Client._normalizeUrl "https://a.com/p?x=%2B" = Return "https://a.com/p?x=+" /\
   Client._normalizeUrl "https://a.com/p?x=+" = Return "https://a.com/p?x= ") /\
  (Client._normalizeUrl "https://a.com/p?a%3Db=c&a=d" = Return "https://a.com/p?a=b=c&a=d" /\
   Client._normalizeUrl "https://a.com/p?a=b=c&a=d" = Return "https://a.com/p?a=b=c,d").
Proof. repeat split; reflexivity. Qed.

(** ** The request primitive, step by step *)

Lemma update_keys_In {A} (k k0 : string) (v : A) (l : list (string * A)) :
  In k0 (map fst (Js.update k v l)) -> k0 = k \/ In k0 (map fst l).
Proof.
  induction l as [|[k' v'] r IH]; simpl.
  - intros [<-|[]]. now left.
  - destruct (String.eqb k k'); simpl; intros [<-|H]; auto.
    destruct (IH H); auto.
Qed.

Lemma update_keys_NoDup {A} (k : string) (v : A) (l : list (string * A)) :
  NoDup (map fst l) -> NoDup (map fst (Js.update k v l)).
Proof.
  induction l as [|[k' v'] r IH]; simpl; intros Hnd.
  - repeat constructor. intros [].
  - inversion Hnd as [|? ? Hnot Hr]; subst.
    destruct (String.eqb_spec k k') as [->|Hne]; simpl.
    + now constructor.
    + constructor; [|now apply IH].
      intros Hin. apply update_keys_In in Hin as [->|Hin]; [now apply Hne | now apply Hnot].
Qed.

Lemma assign_props_NoDup (ks : list string) (src : list (string * JsVal)) :
  forall p p', Js.assign_props (VObj p) ks src = Return (VObj p') ->
               NoDup (map fst p) -> NoDup (map fst p').
Proof.
  induction ks as [|k r IH]; intros p p' H Hnd; cbn [Js.assign_props] in H.
  - injection H as <-. exact Hnd.
  - destruct (Js.lookup k src) as [x|]; [|eapply IH; eassumption].
    unfold Js.set in H. destruct (String.eqb k "__proto__"); [discriminate|].
    cbn [obind] in H. eapply IH; [exact H|]. now apply update_keys_NoDup.
Qed.

Lemma assign1_NoDup (p p' : list (string * JsVal)) (source : JsVal) :
  Js.assign1 (VObj p) source = Return (VObj p') ->
  NoDup (map fst p) -> NoDup (map fst p').
Proof.
  destruct source; simpl; intros H Hnd; try (injection H as <-; exact Hnd);
    try discriminate.
  - destruct (String.eqb s ""); [injection H as <-; exact Hnd | discriminate].
  - eapply assign_props_NoDup; eassumption.
Qed.

Lemma assign_NoDup (sources : list JsVal) :
  forall p p', Js.assign (VObj p) sources = Return (VObj p') ->
               NoDup (map fst p) -> NoDup (map fst p').
Proof.
  induction sources as [|s r IH]; intros p p' H Hnd; cbn [Js.assign] in H.
  - injection H as <-. exact Hnd.
  - destruct (Js.assign1 (VObj p) s) as [t| |] eqn:E; cbn [obind] in H; try discriminate.
    destruct (assign1_object _ _ _ E) as [p1 ->].
    eapply IH; [exact H|]. eapply assign1_NoDup; eassumption.
Qed.

Lemma remove_keys_In {A} (k k0 : string) (l : list (string * A)) :
  In k0 (map fst (Js.remove k l)) -> In k0 (map fst l).
Proof.
  induction l as [|[k' v'] r IH]; simpl; [auto|].
  destruct (String.eqb k k'); simpl; [auto|]. intros [<-|H]; auto.
Qed.

Lemma remove_keys_NoDup {A} (k : string) (l : list (string * A)) :
  NoDup (map fst l) -> NoDup (map fst (Js.remove k l)).
Proof.
  induction l as [|[k' v'] r IH]; simpl; intros Hnd; [constructor|].
  inversion Hnd as [|? ? Hnot Hr]; subst.
  destruct (String.eqb k k'); simpl; [exact Hr|].
  constructor; [|now apply IH]. intros Hin. apply Hnot. eapply remove_keys_In; eassumption.
Qed.

(** [delete o.k]: the property is gone, the others stay. *)
Lemma lookup_remove {A} (k k0 : string) (l : list (string * A)) :
  NoDup (map fst l) ->
  Js.lookup k0 (Js.remove k l) = if String.eqb k0 k then None else Js.lookup k0 l.
Proof.
  induction l as [|[k' v'] r IH]; simpl; intros Hnd.
  - now destruct (String.eqb k0 k).
  - inversion Hnd as [|? ? Hnot Hr]; subst.
    destruct (String.eqb_spec k k') as [->|Hne].
    + destruct (String.eqb_spec k0 k') as [->|Hne0]; [|reflexivity].
      destruct (Js.lookup k' r) eqn:E; [|reflexivity].
      elim Hnot. eapply lookup_In. exact E.
    + simpl. destruct (String.eqb_spec k0 k') as [->|Hne0].
      * destruct (String.eqb_spec k' k); [congruence | reflexivity].
      * now apply IH.
Qed.

Lemma transport_opts_lookup (merged : list (string * JsVal)) (k : string) :
  NoDup (map fst merged) ->
  exists p, transport_opts merged = VObj p /\
            Js.lookup k p = if existsb (String.eqb k) bookkeeping then None
                            else Js.lookup k merged.
Proof.
  intros Hnd. unfold transport_opts. cbn [Js.delete]. eexists. split; [reflexivity|].
  rewrite !lookup_remove by (repeat apply remove_keys_NoDup; exact Hnd).
  unfold bookkeeping. cbn [existsb].
  destruct (String.eqb k "params"), (String.eqb k "ignoreAccessToken"),
    (String.eqb k "accessToken"); reflexivity.
Qed.

(** The first part of [request], once the merged options are known:
    the token is the one passed in, or else the one [getAccessToken]
    yields; [ignoreAccessToken] is taken to be unset. *)
Lemma prepare_token {Store} (options : Options) (g : M Store JsVal)
  (url : string) (opts : JsVal) (merged : list (string * JsVal)) (w : World Store) :
  Js.assign (VObj [("dataType", VStr "json")]) [requestOpts options; opts]
    = Return (VObj merged) ->
  blank merged "ignoreAccessToken" ->
  Client.prepare options g url opts w =
  let r := match Js.lookup "accessToken" merged with
           | Some a => if Js.truthy a then (Return a, w) else g w
           | None => g w
           end in
  (obind (fst r) (fun token =>
   obind (target options url (params_of merged) token) (fun u =>
   Return (u, transport_opts merged))), snd r).
Proof.
  intros Hm Hb.
  assert (Hi : Js.truthy (match Js.lookup "ignoreAccessToken" merged with
                          | Some x => x | None => VUndef end) = false).
  { unfold blank in Hb. destruct (Js.lookup "ignoreAccessToken" merged); auto. }
  unfold Client.prepare, target, proxied, transport_opts, params_of, bind, lift, ret.
  rewrite Hm. rewrite !get_plain by reflexivity. rewrite Hi. cbn [negb].
  destruct (Js.lookup "params" merged) as [P|];
    destruct (Js.lookup "accessToken" merged) as [a|]; cbn [Js.truthy];
    repeat match goal with
           | |- context [Js.truthy ?v] => destruct (Js.truthy v)
           end;
    try destruct (g w) as [[token|e|] w1]; cbn [fst snd obind]; try reflexivity;
    repeat match goal with
           | |- context [Js.set ?p ?k ?v] => destruct (Js.set p k v) as [?| |]; cbn [obind]
           | |- context [querystring.stringify ?p] =>
               destruct (querystring.stringify p) as [?| |]; cbn [obind]
           | |- context [proxy options] => destruct (proxy options) as [?|]
           | |- context [String.eqb ?a ""] => destruct (String.eqb a "")
           | |- context [Str.any ?f ?a] => destruct (Str.any f a)
           end; reflexivity.
Qed.

Lemma prepare_Return_inv {Store} (options : Options)
  (g : M Store JsVal) (url : string) (opts : JsVal) (w w1 : World Store)
  (u : string) (ro : JsVal) :
  Client.prepare options g url opts w = (Return (u, ro), w1) ->
  exists merged,
    Js.assign (VObj [("dataType", VStr "json")]) [requestOpts options; opts]
      = Return (VObj merged) /\
    ro = transport_opts merged.
Proof.
  unfold Client.prepare. intros H.
  apply bind_Return_inv in H as (r0 & w2 & H0 & H).
  apply lift_Return_inv in H0 as [H0 ->].
  destruct (assign_object _ _ _ H0) as [p0 ->].
  apply bind_Return_inv in H as (? & ? & _ & H).
  apply bind_Return_inv in H as (? & ? & _ & H).
  apply bind_Return_inv in H as (? & ? & _ & H).
  apply bind_Return_inv in H as (? & ? & _ & H).
  apply bind_Return_inv in H as (? & ? & _ & H).
  apply ret_inv in H as [H _]. injection H as _ <-.
  exists p0. split; [exact H0 | reflexivity].
Qed.

(** The world after [prepare] is the one it started in, or the one the
    token source left. *)
Lemma prepare_world {Store} (options : Options) (g : M Store JsVal)
  (url : string) (opts : JsVal) (w w1 : World Store)
  (o : Outcome (string * JsVal)) :
  Client.prepare options g url opts w = (o, w1) ->
  w1 = w \/ exists o', g w = (o', w1).
Proof.
  unfold Client.prepare.
  unfold bind at 1. unfold lift at 1.
  destruct (Js.assign _ _) as [ro| |]; [|intros H; inversion H; subst; auto..].
  unfold bind at 1. unfold lift at 1.
  destruct (Js.get ro "params") as [p| |]; [|intros H; inversion H; subst; auto..].
  unfold bind at 1. unfold lift at 1.
  destruct (Js.get ro "ignoreAccessToken") as [ig| |]; [|intros H; inversion H; subst; auto..].
  unfold bind at 1.
  destruct (negb (Js.truthy ig)).
  - unfold bind at 1. unfold lift at 1.
    destruct (Js.get ro "accessToken") as [a| |]; [|intros H; inversion H; subst; auto..].
    unfold bind at 1.
    destruct (Js.truthy a).
    + unfold ret at 1. unfold bind, lift, ret. intros H.
      run_cases; pair_inv; auto.
    + destruct (g w) as [o1 w2] eqn:Hgw.
      unfold bind, lift, ret. intros H.
      run_cases; pair_inv; right; eauto.
  - unfold bind, lift, ret. intros H.
    run_cases; pair_inv; auto.
Qed.

(** [getAccessToken] sends nothing, or one request. *)
Lemma getAccessToken_sends_one {Store} {hooks : Hooks Store} (options : Options)
  (env : Env) (w w' : World Store) (o : Outcome JsVal) :
  Client.getAccessToken options env w = (o, w') ->
  sent w' = sent w \/ exists rq, sent w' = sent w ++ [rq].
Proof.
  unfold Client.getAccessToken. unfold bind at 1. unfold Client.load at 1.
  destruct (getToken (backing w)) as [[tok|]| |].
  - unfold bind at 1. unfold bind at 1. unfold Client.Date_now at 1. unfold ret at 1.
    destruct (AccessToken.isValid _ _).
    + unfold ret. intros H. inversion H; subst. now left.
    + intros H. apply fetchAccessToken_frame in H as [[_ Hs] | (rq & _ & Hs & _)];
        [left | right; exists rq]; exact Hs.
  - unfold bind at 1. unfold ret at 1.
    intros H. apply fetchAccessToken_frame in H as [[_ Hs] | (rq & _ & Hs & _)];
      [left | right; exists rq]; exact Hs.
  - intros H. inversion H; subst. now left.
  - intros H. inversion H; subst. now left.
Qed.

(** X1: the transport never sees [params], [ignoreAccessToken] or
    [accessToken]: the options of the request that was answered are the
    merged options [Object.assign({ dataType: 'json' },
    this.options.requestOpts, opts)] without these three, and every other
    option reaches the transport as merged. *)
Theorem request_hides_bookkeeping {Store} {hooks : Hooks Store}
  (options : Options) (env : Env) (url : string) (opts v : JsVal)
  (w w' : World Store) :
  Client.request options env url opts w = (Return v, w') ->
  exists merged earlier rq p response,
    Js.assign (VObj [("dataType", VStr "json")]) [requestOpts options; opts]
      = Return (VObj merged) /\
    sent w' = earlier ++ [rq] /\
    remote env (List.length earlier) rq = HttpOk response /\
    v = payload response /\
    req_opts rq = VObj p /\
    forall k, Js.lookup k p = if existsb (String.eqb k) bookkeeping then None
                              else Js.lookup k merged.
Proof.
  intros H. apply request_with_frame in H as [(o1 & Hp & Hf) | (u & ro & w1 & Hp & Hs & _ & _ & Hv)].
  - destruct o1; contradiction.
  - destruct (Hv v eq_refl) as (response & Hr & ->).
    apply prepare_Return_inv in Hp as (merged & Hm & ->).
    assert (Hnd : NoDup (map fst merged)).
    { eapply assign_NoDup; [exact Hm|]. repeat constructor. intros []. }
    exists merged, (sent w1), {| req_url := u; req_opts := transport_opts merged |}.
    destruct (transport_opts_lookup merged "" Hnd) as (p & Hp & _).
    exists p, response.
    split; [exact Hm|]. split; [exact Hs|]. split; [exact Hr|].
    split; [reflexivity|]. split; [exact Hp|].
    intros k. destruct (transport_opts_lookup merged k Hnd) as (p' & Hp' & Hk).
    rewrite Hp in Hp'. injection Hp' as ->. exact Hk.
Qed.

Lemma request_hides_bookkeeping_witness :
  exists merged earlier rq p response,
    Js.assign (VObj [("dataType", VStr "json")])
      [requestOpts Example.options;
       VObj [("params", VObj [("id", VNum (Num 7))]); ("timeout", VNum (Num 5000));
             ("accessToken", VStr "TOK")]]
      = Return (VObj merged) /\
    sent (after (Client.request Example.options
                   (Example.env [Example.response Example.token_body])
                   "https://oapi.dingtalk.com/user/get"
                   (VObj [("params", VObj [("id", VNum (Num 7))]);
                          ("timeout", VNum (Num 5000));
                          ("accessToken", VStr "TOK")]) Example.fresh))
      = earlier ++ [rq] /\
    remote (Example.env [Example.response Example.token_body]) (List.length earlier) rq
      = HttpOk response /\
    Example.token_body = payload response /\
    req_opts rq = VObj p /\
    forall k, Js.lookup k p = if existsb (String.eqb k) bookkeeping then None
                              else Js.lookup k merged.
Proof.
  refine (request_hides_bookkeeping (hooks := memory_hooks) Example.options
            (Example.env [Example.response Example.token_body])
            "https://oapi.dingtalk.com/user/get"
            (VObj [("params", VObj [("id", VNum (Num 7))]); ("timeout", VNum (Num 5000));
                   ("accessToken", VStr "TOK")])
            Example.token_body Example.fresh _ _).
  reflexivity.
Defined.

(** X2: a failure of the transport reaches the caller as it is; the
    request counts as sent, the backing store is not touched, and the
    failure is logged, once, exactly when a logger is configured. *)
Theorem request_transport_failure {Store} {hooks : Hooks Store}
  (options : Options) (env : Env) (url : string) (opts : JsVal)
  (w w1 : World Store) (u : string) (ro err : JsVal) :
  Client.prepare options (Client.getAccessToken options env) url opts w
    = (Return (u, ro), w1) ->
  remote env (List.length (sent w1)) {| req_url := u; req_opts := ro |}
    = HttpFail err ->
  let r := Client.request options env url opts w in
  let rq := {| req_url := u; req_opts := ro |} in
  (logger options = false ->
   r = (Throw (TransportError err),
        {| ticks := ticks w1; sent := sent w1 ++ [rq]; logged := logged w1;
           backing := backing w1 |})) /\
  (logger options = true ->
   forall status headers,
     Js.get err "status" = Return status ->
     Js.get err "headers" = Return headers ->
     exists method,
       Js.get ro "method" = Return method /\
       r = (Throw (TransportError err),
            {| ticks := ticks w1; sent := sent w1 ++ [rq];
               logged := logged w1 ++ [LogWarn (Client.or_GET method) u status headers err];
               backing := backing w1 |})).
Proof.
  intros Hp Hr r rq. subst r.
  assert (Hrun : Client.request options env url opts w =
                 Client.exchange options env u ro w1).
  { unfold Client.request, Client.request_with. unfold bind at 1. rewrite Hp.
    cbn [fst snd]. unfold bind at 1.
    destruct (Client.exchange options env u ro w1) as [[resp|e|] w2] eqn:He;
      try reflexivity.
    apply exchange_frame in He as (_ & _ & _ & Hv).
    specialize (Hv resp eq_refl). congruence. }
  rewrite Hrun. unfold Client.exchange, try_catch, Client.urllib_request. rewrite Hr.
  split.
  - intros Hl. rewrite Hl. reflexivity.
  - intros Hl status headers Hst Hhd. rewrite Hl.
    destruct (prepare_object _ _ _ _ _ _ _ _ Hp) as [p ->].
    exists (match Js.lookup "method" p with Some x => x | None => VUndef end).
    split; [apply get_plain; reflexivity|].
    unfold bind at 1. unfold bind at 1. unfold lift at 1.
    rewrite get_plain by reflexivity.
    unfold bind at 1. unfold lift at 1. rewrite Hst.
    unfold bind at 1. unfold lift at 1. rewrite Hhd.
    reflexivity.
Qed.

Lemma request_transport_failure_witness :
  Client.request Example.options
    (Example.env [HttpFail (VObj [("code", VStr "ECONNRESET")])])
    "https://oapi.dingtalk.com/user/get" (VObj [("accessToken", VStr "TOK")])
    Example.fresh
  = (Throw (TransportError (VObj [("code", VStr "ECONNRESET")])),
     {| ticks := 0;
        sent := [{| req_url := "https://oapi.dingtalk.com/user/get?access_token=TOK";
                    req_opts := VObj [("dataType", VStr "json")] |}];
        logged := []; backing := backing Example.fresh |}).
Proof.
  refine (proj1 (request_transport_failure (hooks := memory_hooks) Example.options
                   (Example.env [HttpFail (VObj [("code", VStr "ECONNRESET")])])
                   "https://oapi.dingtalk.com/user/get" (VObj [("accessToken", VStr "TOK")])
                   Example.fresh Example.fresh
                   "https://oapi.dingtalk.com/user/get?access_token=TOK"
                   (VObj [("dataType", VStr "json")])
                   (VObj [("code", VStr "ECONNRESET")]) _ _) _).
  - reflexivity.
  - reflexivity.
  - reflexivity.
Defined.

(** X3: a call that brings its own [accessToken] leaves the credential
    cache alone: the backing store is neither read into a new state nor
    written, the clock is not read, no token is fetched.  The one request
    that leaves carries the caller's token; when the query cannot be
    built, nothing leaves. *)
Theorem explicit_token_bypasses_cache {Store} {hooks : Hooks Store}
  (options : Options) (env : Env) (url : string) (opts : JsVal)
  (merged : list (string * JsVal)) (a : JsVal) (w : World Store) :
  Js.assign (VObj [("dataType", VStr "json")]) [requestOpts options; opts]
    = Return (VObj merged) ->
  blank merged "ignoreAccessToken" ->
  Js.lookup "accessToken" merged = Some a ->
  Js.truthy a = true ->
  let r := Client.request options env url opts w in
  backing (after r) = backing w /\ ticks (after r) = ticks w /\
  match target options url (params_of merged) a with
  | Return u =>
      sent (after r) = sent w ++ [{| req_url := u; req_opts := transport_opts merged |}]
  | _ => sent (after r) = sent w
  end.
Proof.
  intros Hm Hb Ha Ht r.
  pose proof (prepare_token options (Client.getAccessToken options env) url opts
                merged w Hm Hb) as Hp.
  rewrite Ha, Ht in Hp. cbn [fst snd obind] in Hp.
  subst r. destruct (Client.request options env url opts w) as [o w'] eqn:Hrun.
  cbn [after snd].
  apply request_with_frame in Hrun
    as [(o1 & Hp1 & Hf) | (u & ro & w1 & Hp1 & Hs & Hti & Hba & _)];
    rewrite Hp in Hp1.
  - destruct (target options url (params_of merged) a) as [u0| |];
      cbn [obind] in Hp1; inversion Hp1; subst; auto.
    destruct o; contradiction.
  - destruct (target options url (params_of merged) a) as [u0| |];
      cbn [obind] in Hp1; inversion Hp1; subst; auto.
Qed.

Lemma explicit_token_bypasses_cache_witness :
  let r := Client.request Example.options (Example.env [Example.response Example.error_body])
             "https://oapi.dingtalk.com/user/get"
             (VObj [("params", VObj [("userid", VStr "u 1")]); ("accessToken", VStr "A+B")])
             (Example.holding 500000) in
  backing (after r) = backing (Example.holding 500000) /\ ticks (after r) = 0%nat /\
  sent (after r) =
  [{| req_url := "https://oapi.dingtalk.com/user/get?userid=u%201&access_token=A%2BB";
      req_opts := VObj [("dataType", VStr "json")] |}].
Proof.
  refine (explicit_token_bypasses_cache (hooks := memory_hooks) Example.options
            (Example.env [Example.response Example.error_body])
            "https://oapi.dingtalk.com/user/get"
            (VObj [("params", VObj [("userid", VStr "u 1")]); ("accessToken", VStr "A+B")])
            [("dataType", VStr "json"); ("params", VObj [("userid", VStr "u 1")]);
             ("accessToken", VStr "A+B")]
            (VStr "A+B") (Example.holding 500000) _ _ _ _).
  - reflexivity.
  - exact I.
  - reflexivity.
  - reflexivity.
Defined.

(** X4: when the access token cannot be obtained, the call fails with
    the very error of [getAccessToken] and its own request is never
    sent. *)
Theorem failed_token_fetch_aborts {Store} {hooks : Hooks Store}
  (options : Options) (env : Env) (url : string) (opts : JsVal)
  (merged : list (string * JsVal)) (e : JsError) (w w1 : World Store) :
  Js.assign (VObj [("dataType", VStr "json")]) [requestOpts options; opts]
    = Return (VObj merged) ->
  blank merged "ignoreAccessToken" ->
  blank merged "accessToken" ->
  Client.getAccessToken options env w = (Throw e, w1) ->
  Client.request options env url opts w = (Throw e, w1).
Proof.
  intros Hm Hb Ha Hg.
  pose proof (prepare_token options (Client.getAccessToken options env) url opts
                merged w Hm Hb) as Hp.
  assert (Hr : match Js.lookup "accessToken" merged with
               | Some a => if Js.truthy a then (Return a, w)
                           else Client.getAccessToken options env w
               | None => Client.getAccessToken options env w
               end = (Throw e, w1)).
  { unfold blank in Ha. destruct (Js.lookup "accessToken" merged) as [a|]; [|exact Hg].
    rewrite Ha. exact Hg. }
  rewrite Hr in Hp. cbn [fst snd obind] in Hp.
  unfold Client.request, Client.request_with. unfold bind at 1. rewrite Hp. reflexivity.
Qed.

Lemma failed_token_fetch_aborts_witness :
  Client.request Example.options (Example.env [Example.response Example.error_body])
    "https://oapi.dingtalk.com/user/get" (VObj [("params", VObj [("userid", VStr "u1")])])
    Example.fresh
  = (Throw (DingTalkClientResponseError
              "https://oapi.dingtalk.com/gettoken?appkey=KEY&appsecret=SECRET"
              (VNum (Num 1)) Example.error_body),
     {| ticks := 0;
        sent := [{| req_url := "https://oapi.dingtalk.com/gettoken?appkey=KEY&appsecret=SECRET";
                    req_opts := VObj [("dataType", VStr "json")] |}];
        logged := []; backing := backing Example.fresh |}).
Proof.
  refine (failed_token_fetch_aborts (hooks := memory_hooks) Example.options
            (Example.env [Example.response Example.error_body])
            "https://oapi.dingtalk.com/user/get"
            (VObj [("params", VObj [("userid", VStr "u1")])])
            [("dataType", VStr "json"); ("params", VObj [("userid", VStr "u1")])]
            _ Example.fresh _ _ _ _ _).
  - reflexivity.
  - exact I.
  - exact I.
  - reflexivity.
Defined.

(** X5: there are no retries: one call of [request] hands at most two
    requests to the transport, the fetch of an access token and the
    request itself, whatever the answers. *)
Theorem request_sends_at_most_two {Store} {hooks : Hooks Store}
  (options : Options) (env : Env) (url : string) (opts : JsVal)
  (w w' : World Store) (o : Outcome JsVal) :
  Client.request options env url opts w = (o, w') ->
  exists pre, sent w' = sent w ++ pre /\ (List.length pre <= 2)%nat.
Proof.
  intros H.
  assert (Hprep : forall o1 w1,
            Client.prepare options (Client.getAccessToken options env) url opts w = (o1, w1) ->
            exists pre, sent w1 = sent w ++ pre /\ (List.length pre <= 1)%nat).
  { intros o1 w1 Hp. apply prepare_world in Hp as [-> | [o' Hg]].
    - exists []. rewrite app_nil_r. auto.
    - apply getAccessToken_sends_one in Hg as [Hs | [rq Hs]].
      + exists []. rewrite app_nil_r. auto.
      + exists [rq]. auto. }
  apply request_with_frame in H as [(o1 & Hp & _) | (u & ro & w1 & Hp & Hs & _)].
  - destruct (Hprep _ _ Hp) as (pre & Hpre & Hlen). exists pre. split; [exact Hpre | lia].
  - destruct (Hprep _ _ Hp) as (pre & Hpre & Hlen).
    exists (pre ++ [{| req_url := u; req_opts := ro |}]).
    rewrite Hs, Hpre, app_assoc. split; [reflexivity|].
    rewrite length_app. simpl. lia.
Qed.

Lemma request_sends_at_most_two_witness :
  exists pre,
    sent (after (Client.request Example.options
                   (Example.env [Example.response Example.token_body;
                                 Example.response Example.error_body])
                   "https://oapi.dingtalk.com/user/get" VUndef Example.fresh))
    = sent Example.fresh ++ pre /\ (List.length pre <= 2)%nat.
Proof.
  refine (request_sends_at_most_two (hooks := memory_hooks) Example.options
            (Example.env [Example.response Example.token_body;
                          Example.response Example.error_body])
            "https://oapi.dingtalk.com/user/get" VUndef Example.fresh _ _ _).
  reflexivity.
Defined.

(** ** The token cache *)

(** The fetch of a token whose request is answered: one request has
    left, and the answer decides. *)
Lemma fetchAccessToken_answered {Store} {hooks : Hooks Store} (options : Options)
  (env : Env) (w : World Store) (u : string)
  (rprops bprops : list (string * JsVal)) :
  plain_requestOpts options ->
  proxied options (gettoken_url options) = Return u ->
  (forall ro, remote env (List.length (sent w)) {| req_url := u; req_opts := ro |}
              = HttpOk (VObj rprops)) ->
  Js.lookup "data" rprops = Some (VObj bprops) ->
  exists w1 ro,
    sent w1 = sent w ++ [{| req_url := u; req_opts := ro |}] /\
    backing w1 = backing w /\ ticks w1 = ticks w /\
    Client.fetchAccessToken options env w =
    if Js.strict_ne_zero (field "errcode" bprops)
    then (Throw (DingTalkClientResponseError u (field "errcode" bprops) (VObj bprops)), w1)
    else
      match Js.to_number (field "expires_in" bprops) with
      | Return n =>
          match saveToken (AccessToken.new (field "access_token" bprops)
                             (expiry (clock env (ticks w)) n)) (backing w) with
          | Return s' =>
              (Return (field "access_token" bprops),
               {| ticks := S (ticks w); sent := sent w1; logged := logged w1;
                  backing := s' |})
          | Throw e =>
              (Throw e, {| ticks := S (ticks w); sent := sent w1; logged := logged w1;
                           backing := backing w |})
          | Unmodelled =>
              (Unmodelled, {| ticks := S (ticks w); sent := sent w1; logged := logged w1;
                              backing := backing w |})
          end
      | Throw e =>
          (Throw e, {| ticks := S (ticks w); sent := sent w1; logged := logged w1;
                       backing := backing w |})
      | Unmodelled =>
          (Unmodelled, {| ticks := S (ticks w); sent := sent w1; logged := logged w1;
                          backing := backing w |})
      end.
Proof.
  intros [p Hp] Hpx Hr Hd.
  rewrite fetchAccessToken_unfold. unfold bind at 1.
  rewrite get_with_gettoken by apply gettoken_api_nonempty.
  pose proof (gettoken_request_needs_no_token options
                (Client.nested_getAccessToken (Store := Store)) w
                (gettoken_api options) (gettoken_data options) p
                (gettoken_query options) Hp (gettoken_stringify options)) as Hprep.
  rewrite gettoken_url_eq, Hpx in Hprep.
  destruct (request_with_answered options env _ _ _ w w u _ rprops (VObj bprops)
              Hprep (Hr _) (get_own _ _ _ Hd)) as (w1 & Hs1 & Hb1 & Ht1 & Hrun).
  cbn [Js.truthy] in Hrun. rewrite get_plain in Hrun by reflexivity.
  fold (field "errcode" bprops) in Hrun.
  exists w1. eexists. split; [exact Hs1|]. split; [exact Hb1|]. split; [exact Ht1|].
  rewrite Hrun.
  destruct (Js.strict_ne_zero (field "errcode" bprops)); [reflexivity|].
  unfold bind at 1. unfold lift at 1. rewrite get_plain by reflexivity.
  unfold bind at 1. unfold lift at 1. rewrite get_plain by reflexivity.
  fold (field "access_token" bprops). fold (field "expires_in" bprops).
  unfold bind at 1. unfold Client.Date_now at 1.
  unfold bind at 1. unfold lift at 1. rewrite Ht1.
  destruct (Js.to_number (field "expires_in" bprops)) as [n| |];
    [|rewrite Hb1; reflexivity..].
  unfold bind at 1. unfold Client.save. cbn [backing]. rewrite Hb1.
  fold (expiry (clock env (ticks w)) n).
  destruct (saveToken _ _) as [s'| |]; reflexivity.
Qed.

(** The fetch writes the store in its last step. *)
Lemma fetchAccessToken_backing {Store} {hooks : Hooks Store} (options : Options)
  (env : Env) (w w' : World Store) (o : Outcome JsVal) :
  Client.fetchAccessToken options env w = (o, w') ->
  backing w' = backing w \/
  exists tk, o = Return (AccessToken.accessToken tk) /\
             saveToken tk (backing w) = Return (backing w').
Proof.
  rewrite fetchAccessToken_unfold. unfold bind at 1.
  destruct (Client.get_with _ _ _ _ _ _ w) as [o1 w1] eqn:Hget.
  apply (gettoken_get options env _ w w1 _ _ _ o1 (gettoken_api_nonempty options)
           (gettoken_stringify options)) in Hget.
  destruct Hget as [[-> ->] | (u & ro & _ & _ & _ & Hb & _)].
  - intros H. inversion H; subst. now left.
  - destruct o1 as [resp|e|]; [|intros H; inversion H; subst; now left..].
    unfold bind at 1. unfold lift at 1.
    destruct (Js.get resp "access_token") as [t| |];
      [|intros H; inversion H; subst; now left..].
    unfold bind at 1. unfold lift at 1.
    destruct (Js.get resp "expires_in") as [x| |];
      [|intros H; inversion H; subst; now left..].
    unfold bind at 1. unfold Client.Date_now at 1.
    unfold bind at 1. unfold lift at 1.
    destruct (Js.to_number x) as [n| |];
      [|intros H; inversion H; subst; now left..].
    unfold bind at 1. unfold Client.save. cbn [backing].
    destruct (saveToken _ (backing w1)) as [s'| |] eqn:Hs;
      unfold ret; intros H; inversion H; subst; cbn [backing]; auto.
    right. eexists. split; [|rewrite <- Hb; exact Hs]. reflexivity.
Qed.

Lemma getAccessToken_backing {Store} {hooks : Hooks Store} (options : Options)
  (env : Env) (w w' : World Store) (o : Outcome JsVal) :
  Client.getAccessToken options env w = (o, w') ->
  backing w' = backing w \/
  exists tk, o = Return (AccessToken.accessToken tk) /\
             saveToken tk (backing w) = Return (backing w').
Proof.
  unfold Client.getAccessToken. unfold bind at 1. unfold Client.load at 1.
  destruct (getToken (backing w)) as [[tok|]| |].
  - unfold bind at 1. unfold bind at 1. unfold Client.Date_now at 1. unfold ret at 1.
    destruct (AccessToken.isValid _ _).
    + unfold ret. intros H. inversion H; subst. now left.
    + intros H. apply fetchAccessToken_backing in H. exact H.
  - unfold bind at 1. unfold ret at 1. apply fetchAccessToken_backing.
  - intros H. inversion H; subst. now left.
  - intros H. inversion H; subst. now left.
Qed.

(** X6: the cache is written on success only, and then with the value
    that is returned: a call of [getAccessToken] that fails leaves the
    backing store as it was; one that returns has either not touched the
    store, or has saved a token record holding the value it returns. *)
Theorem getAccessToken_saves_what_it_returns {Store} {hooks : Hooks Store}
  (options : Options) (env : Env) (w w' : World Store) (o : Outcome JsVal) :
  Client.getAccessToken options env w = (o, w') ->
  ((forall v, o <> Return v) -> backing w' = backing w) /\
  (forall v, o = Return v ->
     backing w' = backing w \/
     exists tk, AccessToken.accessToken tk = v /\
                saveToken tk (backing w) = Return (backing w')).
Proof.
  intros H. apply getAccessToken_backing in H as [Hb | (tk & -> & Hs)]; split; auto.
  - intros Hn. elim (Hn _ eq_refl).
  - intros v Hv. injection Hv as <-. right. eauto.
Qed.

Lemma getAccessToken_saves_what_it_returns_witness :
  let r := Client.getAccessToken Example.options
             (Example.env [Example.response Example.error_body]) Example.fresh in
  ((forall v, outcome r <> Return v) -> backing (after r) = backing Example.fresh) /\
  (forall v, outcome r = Return v ->
     backing (after r) = backing Example.fresh \/
     exists tk, AccessToken.accessToken tk = v /\
                saveToken tk (backing Example.fresh) = Return (backing (after r))).
Proof.
  refine (getAccessToken_saves_what_it_returns (hooks := memory_hooks) Example.options
            (Example.env [Example.response Example.error_body]) Example.fresh _ _ _).
  reflexivity.
Defined.

(** X7: when the token service answers with a status other than zero,
    [getAccessToken] fails with the tagged error carrying that status and
    the answer; one request has been sent, none is repeated, and nothing
    is saved. *)
Theorem getAccessToken_remote_error {Store} {hooks : Hooks Store}
  (options : Options) (env : Env) (w : World Store)
  (token : option AccessToken.t) (u : string)
  (rprops bprops : list (string * JsVal)) :
  getToken (backing w) = Return token ->
  stale_token token (clock env (ticks w)) ->
  plain_requestOpts options ->
  proxied options (gettoken_url options) = Return u ->
  (forall ro, remote env (List.length (sent w)) {| req_url := u; req_opts := ro |}
              = HttpOk (VObj rprops)) ->
  Js.lookup "data" rprops = Some (VObj bprops) ->
  Js.strict_ne_zero (field "errcode" bprops) = true ->
  let r := Client.getAccessToken options env w in
  outcome r = Throw (DingTalkClientResponseError u (field "errcode" bprops) (VObj bprops)) /\
  backing (after r) = backing w /\
  exists rq, sent (after r) = sent w ++ [rq] /\ req_url rq = u.
Proof.
  intros Hload Hstale Hplain Hpx Hr Hd He r. subst r.
  rewrite (getAccessToken_stale options env w token Hload Hstale).
  assert (Hsent : sent (checked token w) = sent w) by (destruct token; reflexivity).
  assert (Hback : backing (checked token w) = backing w) by (destruct token; reflexivity).
  rewrite <- Hsent in Hr.
  destruct (fetchAccessToken_answered options env (checked token w) u rprops bprops
              Hplain Hpx Hr Hd) as (w1 & ro & Hs & Hb & _ & Hrun).
  rewrite Hrun, He. cbn [outcome after fst snd].
  split; [reflexivity|]. split; [congruence|].
  eexists. rewrite Hs, Hsent. split; reflexivity.
Qed.

Lemma getAccessToken_remote_error_witness :
  let r := Client.getAccessToken Example.options
             (Example.env [Example.response Example.error_body])
             (Example.holding 500000) in
  outcome r = Throw (DingTalkClientResponseError
                       "https://oapi.dingtalk.com/gettoken?appkey=KEY&appsecret=SECRET"
                       (VNum (Num 1)) Example.error_body) /\
  backing (after r) = backing (Example.holding 500000) /\
  exists rq, sent (after r) = [rq] /\
             req_url rq = "https://oapi.dingtalk.com/gettoken?appkey=KEY&appsecret=SECRET".
Proof.
  refine (getAccessToken_remote_error (hooks := memory_hooks) Example.options
            (Example.env [Example.response Example.error_body])
            (Example.holding 500000)
            (Some (AccessToken.new (VStr "TOK") (Num 500000)))
            "https://oapi.dingtalk.com/gettoken?appkey=KEY&appsecret=SECRET"
            [("data", Example.error_body); ("status", VNum (Num 200)); ("headers", VObj [])]
            [("errcode", VNum (Num 1)); ("errmsg", VStr "bad")]
            _ _ _ _ _ _ _).
  - reflexivity.
  - intros e H. injection H as <-. simpl. lia.
  - eexists. reflexivity.
  - reflexivity.
  - reflexivity.
  - reflexivity.
  - reflexivity.
Defined.

(** X8: with the default in-memory hooks, what a refresh saves is what
    later calls are served: after a fetch answered with status 0, a token
    and a lifetime of [n] seconds, every call made while the store is as
    the fetch left it and the clock reads less than the fetch time plus
    [(n - 10) * 1000] returns the same token without a request. *)
Theorem token_round_trip (options : Options) (env : Env) (w : World Memory)
  (u : string) (rprops bprops : list (string * JsVal)) (n : Z) :
  stale_token (store (backing w)) (clock env (ticks w)) ->
  plain_requestOpts options ->
  proxied options (gettoken_url options) = Return u ->
  (forall ro, remote env (List.length (sent w)) {| req_url := u; req_opts := ro |}
              = HttpOk (VObj rprops)) ->
  Js.lookup "data" rprops = Some (VObj bprops) ->
  Js.lookup "errcode" bprops = Some (VNum (Num 0)) ->
  Js.lookup "expires_in" bprops = Some (VNum (Num n)) ->
  let t := field "access_token" bprops in
  let fetched := clock env (ticks (checked (store (backing w)) w)) in
  exists w1,
    Client.getAccessToken options env w = (Return t, w1) /\
    List.length (sent w1) = S (List.length (sent w)) /\
    forall w2 : World Memory,
      backing w2 = backing w1 ->
      clock env (ticks w2) < fetched + (n - 10) * 1000 ->
      Client.getAccessToken options env w2 =
      (Return t, {| ticks := S (ticks w2); sent := sent w2; logged := logged w2;
                    backing := backing w2 |}).
Proof.
  intros Hstale Hplain Hpx Hr Hd He Hn t fetched.
  rewrite (getAccessToken_stale (hooks := memory_hooks) options env w
             (store (backing w)) eq_refl Hstale).
  assert (Hsent : sent (checked (store (backing w)) w) = sent w)
    by (destruct (store (backing w)); reflexivity).
  assert (Hback : backing (checked (store (backing w)) w) = backing w)
    by (destruct (store (backing w)); reflexivity).
  rewrite <- Hsent in Hr.
  destruct (fetchAccessToken_answered (hooks := memory_hooks) options env
              (checked (store (backing w)) w) u rprops bprops
              Hplain Hpx Hr Hd) as (w1 & ro & Hs & Hb & _ & Hrun).
  rewrite Hrun. unfold field at 1 2. rewrite He. cbn [Js.strict_ne_zero].
  unfold field at 1. rewrite Hn. cbn [Js.to_number saveToken memory_hooks].
  eexists. split; [reflexivity|]. cbn [sent backing].
  split; [rewrite Hs, length_app, Hsent; simpl; lia|].
  intros w2 Hb2 Hlt.
  unfold Client.getAccessToken. unfold bind at 1. unfold Client.load at 1.
  rewrite Hb2. cbn [getToken memory_hooks store].
  unfold bind at 1. unfold bind at 1. unfold Client.Date_now at 1. unfold ret at 1.
  unfold AccessToken.isValid. cbn [AccessToken.expireTime AccessToken.accessToken].
  unfold expiry. cbn [Js.num_add Js.num_sub Js.num_mul Js.num_binop Js.num_lt].
  fold fetched.
  destruct (Z.ltb_spec (clock env (ticks w2)) (fetched + (n - 10) * 1000)); [|lia].
  unfold ret. cbn [ticks sent logged backing]. rewrite Hb2. reflexivity.
Qed.

Lemma token_round_trip_witness :
  exists w1,
    Client.getAccessToken Example.options
      (Example.env [Example.response Example.token_body]) Example.fresh
    = (Return (VStr "TOK"), w1) /\
    List.length (sent w1) = 1%nat /\
    forall w2 : World Memory,
      backing w2 = backing w1 ->
      clock (Example.env [Example.response Example.token_body]) (ticks w2)
        < 1000000 + (7200 - 10) * 1000 ->
      Client.getAccessToken Example.options
        (Example.env [Example.response Example.token_body]) w2 =
      (Return (VStr "TOK"),
       {| ticks := S (ticks w2); sent := sent w2; logged := logged w2;
          backing := backing w2 |}).
Proof.
  refine (token_round_trip Example.options
            (Example.env [Example.response Example.token_body]) Example.fresh
            "https://oapi.dingtalk.com/gettoken?appkey=KEY&appsecret=SECRET"
            [("data", Example.token_body); ("status", VNum (Num 200)); ("headers", VObj [])]
            [("errcode", VNum (Num 0)); ("access_token", VStr "TOK");
             ("expires_in", VNum (Num 7200))]
            7200 _ _ _ _ _ _ _).
  - exact I.
  - eexists. reflexivity.
  - reflexivity.
  - reflexivity.
  - reflexivity.
  - reflexivity.
  - reflexivity.
Defined.

(** X9: an answer that declares no [expires_in] still yields its token,
    but the token is saved with the expiry time [NaN], which no clock
    reading precedes: with the default in-memory hooks every later call
    goes to the token service again. *)
Theorem token_without_lifetime (options : Options) (env : Env) (w : World Memory)
  (u : string) (rprops bprops : list (string * JsVal)) :
  stale_token (store (backing w)) (clock env (ticks w)) ->
  plain_requestOpts options ->
  proxied options (gettoken_url options) = Return u ->
  (forall ro, remote env (List.length (sent w)) {| req_url := u; req_opts := ro |}
              = HttpOk (VObj rprops)) ->
  Js.lookup "data" rprops = Some (VObj bprops) ->
  Js.lookup "errcode" bprops = Some (VNum (Num 0)) ->
  Js.lookup "expires_in" bprops = None ->
  let t := field "access_token" bprops in
  exists w1,
    Client.getAccessToken options env w = (Return t, w1) /\
    store (backing w1) = Some (AccessToken.new t NaN) /\
    forall w2 : World Memory,
      backing w2 = backing w1 ->
      Client.getAccessToken options env w2 =
      Client.fetchAccessToken options env
        {| ticks := S (ticks w2); sent := sent w2; logged := logged w2;
           backing := backing w2 |}.
Proof.
  intros Hstale Hplain Hpx Hr Hd He Hn t.
  rewrite (getAccessToken_stale (hooks := memory_hooks) options env w
             (store (backing w)) eq_refl Hstale).
  assert (Hsent : sent (checked (store (backing w)) w) = sent w)
    by (destruct (store (backing w)); reflexivity).
  rewrite <- Hsent in Hr.
  destruct (fetchAccessToken_answered (hooks := memory_hooks) options env
              (checked (store (backing w)) w) u rprops bprops
              Hplain Hpx Hr Hd) as (w1 & ro & Hs & Hb & _ & Hrun).
  rewrite Hrun. unfold field at 1 2. rewrite He. cbn [Js.strict_ne_zero].
  unfold field at 1. rewrite Hn. cbn [Js.to_number saveToken memory_hooks].
  eexists. split; [reflexivity|]. cbn [backing store].
  split; [reflexivity|].
  intros w2 Hb2.
  rewrite (getAccessToken_stale (hooks := memory_hooks) options env w2
             (Some (AccessToken.new t NaN))).
  - reflexivity.
  - rewrite Hb2. reflexivity.
  - intros e Habs. discriminate.
Qed.

Lemma token_without_lifetime_witness :
  exists w1,
    Client.getAccessToken Example.options
      (Example.env [Example.response
                      (VObj [("errcode", VNum (Num 0)); ("access_token", VStr "TOK")])])
      Example.fresh
    = (Return (VStr "TOK"), w1) /\
    store (backing w1) = Some (AccessToken.new (VStr "TOK") NaN) /\
    forall w2 : World Memory,
      backing w2 = backing w1 ->
      Client.getAccessToken Example.options
        (Example.env [Example.response
                        (VObj [("errcode", VNum (Num 0)); ("access_token", VStr "TOK")])])
        w2 =
      Client.fetchAccessToken Example.options
        (Example.env [Example.response
                        (VObj [("errcode", VNum (Num 0)); ("access_token", VStr "TOK")])])
        {| ticks := S (ticks w2); sent := sent w2; logged := logged w2;
           backing := backing w2 |}.
Proof.
  refine (token_without_lifetime Example.options
            (Example.env [Example.response
                            (VObj [("errcode", VNum (Num 0)); ("access_token", VStr "TOK")])])
            Example.fresh
            "https://oapi.dingtalk.com/gettoken?appkey=KEY&appsecret=SECRET"
            [("data", VObj [("errcode", VNum (Num 0)); ("access_token", VStr "TOK")]);
             ("status", VNum (Num 200)); ("headers", VObj [])]
            [("errcode", VNum (Num 0)); ("access_token", VStr "TOK")]
            _ _ _ _ _ _ _).
  - exact I.
  - eexists. reflexivity.
  - reflexivity.
  - reflexivity.
  - reflexivity.
  - reflexivity.
  - reflexivity.
Defined.

(** ** [get] and [post] *)

Lemma blank_update_other (p : list (string * JsVal)) (k k' : string) (v : JsVal) :
  k <> k' -> blank p k -> blank (Js.update k' v p) k.
Proof.
  intros Hne Hb. unfold blank in *. now rewrite lookup_update_other.
Qed.

Lemma prepare_cached {Store} (options : Options) (g : M Store JsVal)
  (url : string) (opts : JsVal) (merged : list (string * JsVal))
  (a : JsVal) (u : string) (w w1 : World Store) :
  Js.assign (VObj [("dataType", VStr "json")]) [requestOpts options; opts]
    = Return (VObj merged) ->
  blank merged "ignoreAccessToken" ->
  blank merged "accessToken" ->
  g w = (Return a, w1) ->
  target options url (params_of merged) a = Return u ->
  Client.prepare options g url opts w = (Return (u, transport_opts merged), w1).
Proof.
  intros Hm Hi Ha Hg Ht.
  rewrite (prepare_token options g url opts merged w Hm Hi).
  assert (Hr : match Js.lookup "accessToken" merged with
               | Some a0 => if Js.truthy a0 then (Return a0, w) else g w
               | None => g w
               end = (Return a, w1)).
  { unfold blank in Ha. destruct (Js.lookup "accessToken" merged) as [a0|]; [|exact Hg].
    rewrite Ha. exact Hg. }
  rewrite Hr. cbn [fst snd obind]. rewrite Ht. reflexivity.
Qed.

(** The options [get(api, params)] passes to [request], merged. *)
Lemma get_merged (options : Options) (p : list (string * JsVal)) (params : JsVal) :
  quiet_requestOpts options p ->
  let merged := Js.update "params" params p in
  Js.assign (VObj [("dataType", VStr "json")])
    [requestOpts options; VObj [("params", params)]] = Return (VObj merged) /\
  blank merged "ignoreAccessToken" /\ blank merged "accessToken" /\
  params_of merged = (if Js.truthy params then params else VObj []).
Proof.
  intros (Hp & _ & Hi & Ha) merged. subst merged.
  split; [cbn [Js.assign]; rewrite Hp; reflexivity|].
  split; [apply blank_update_other; [discriminate | exact Hi]|].
  split; [apply blank_update_other; [discriminate | exact Ha]|].
  unfold params_of. now rewrite lookup_update_same.
Qed.

(** The options [post(api, data)] passes to [request], merged. *)
Lemma post_merged (options : Options) (p : list (string * JsVal)) (data : JsVal) :
  quiet_requestOpts options p ->
  let merged := Js.update "data" data
                  (Js.update "contentType" (VStr "json")
                     (Js.update "method" (VStr "POST") p)) in
  Js.assign (VObj [("dataType", VStr "json")])
    [requestOpts options;
     VObj [("method", VStr "POST"); ("contentType", VStr "json"); ("data", data)]]
    = Return (VObj merged) /\
  blank merged "ignoreAccessToken" /\ blank merged "accessToken" /\
  params_of merged = VObj [].
Proof.
  intros (Hp & Hpa & Hi & Ha) merged. subst merged.
  split; [cbn [Js.assign]; rewrite Hp; reflexivity|].
  split; [repeat (apply blank_update_other; [discriminate|]); exact Hi|].
  split; [repeat (apply blank_update_other; [discriminate|]); exact Ha|].
  unfold params_of. rewrite !lookup_update_other by discriminate.
  unfold blank in Hpa. destruct (Js.lookup "params" p) as [x|]; [|reflexivity].
  now rewrite Hpa.
Qed.

Lemma request_with_prepared {Store} (options : Options) (env : Env)
  (g : M Store JsVal) (url : string) (opts : JsVal) (w w1 : World Store)
  (u : string) (ro : JsVal) :
  Client.prepare options g url opts w = (Return (u, ro), w1) ->
  let r := Client.request_with options env g url opts w in
  let rq := {| req_url := u; req_opts := ro |} in
  sent (after r) = sent w1 ++ [rq] /\
  backing (after r) = backing w1 /\ ticks (after r) = ticks w1 /\
  forall v, outcome r = Return v ->
    exists response,
      remote env (List.length (sent w1)) rq = HttpOk response /\ v = payload response.
Proof.
  intros Hp r rq. subst r rq.
  destruct (Client.request_with options env g url opts w) as [o w'] eqn:Hrun.
  cbn [after outcome fst snd].
  apply request_with_frame in Hrun
    as [(o1 & Hp1 & Hf) | (u' & ro' & w1' & Hp1 & Hs & Ht & Hb & Hv)];
    rewrite Hp in Hp1; inversion Hp1; subst.
  - destruct o; contradiction.
  - auto.
Qed.

(** How [get(api, params)] runs once the token is at hand. *)
Lemma get_run {Store} {hooks : Hooks Store}
  (options : Options) (env : Env) (api : string) (params : JsVal)
  (p : list (string * JsVal)) (a : JsVal) (u : string) (w w1 : World Store) :
  api <> "" ->
  quiet_requestOpts options p ->
  Client.getAccessToken options env w = (Return a, w1) ->
  target options (host options ++ "/" ++ api)
    (if Js.truthy params then params else VObj []) a = Return u ->
  let r := Client.get options env api params VUndef w in
  let rq := {| req_url := u; req_opts := transport_opts (Js.update "params" params p) |} in
  sent (after r) = sent w1 ++ [rq] /\
  backing (after r) = backing w1 /\ ticks (after r) = ticks w1 /\
  Js.get (req_opts rq) "params" = Return VUndef /\
  forall v, outcome r = Return v ->
    exists response,
      remote env (List.length (sent w1)) rq = HttpOk response /\ v = payload response.
Proof.
  intros Hapi Hq Hg Ht r rq.
  destruct (get_merged options p params Hq) as (Hm & Hi & Ha & Hpar).
  rewrite <- Hpar in Ht.
  pose proof (prepare_cached options _ _ _ _ a u w w1 Hm Hi Ha Hg Ht) as Hp.
  assert (Hrun : r = Client.request_with options env (Client.getAccessToken options env)
                       (host options ++ "/" ++ api) (VObj [("params", params)]) w).
  { subst r. unfold Client.get, Client.get_with, assert.
    assert (Js.truthy (VStr api) = true) as ->.
    { simpl. destruct (String.eqb_spec api ""); [contradiction | reflexivity]. }
    unfold bind at 1. unfold ret at 1. unfold bind at 1. unfold lift at 1.
    reflexivity. }
  rewrite Hrun.
  destruct (request_with_prepared options env _ _ _ w w1 u _ Hp) as (Hs & Hb & Hti & Hv).
  split; [exact Hs|]. split; [exact Hb|]. split; [exact Hti|]. split; [|exact Hv].
  assert (Hnd : NoDup (map fst (Js.update "params" params p))).
  { apply update_keys_NoDup. destruct Hq as (Hp0 & _).
    eapply assign1_NoDup; [exact Hp0|]. repeat constructor. intros []. }
  destruct (transport_opts_lookup _ "params" Hnd) as (q & Hq1 & Hq2).
  subst rq. cbn [req_opts]. rewrite Hq1. rewrite get_plain by reflexivity.
  rewrite Hq2. reflexivity.
Qed.

(** X10: [get(api, params)] sends [params] as the query string, with
    [access_token] set to the token [getAccessToken] yields (an
    [access_token] the caller put into [params] is replaced), and hands
    the transport no [params]; apart from obtaining the token it leaves
    clock and store alone, and what it returns is the payload of the
    answer to that request. *)
Theorem get_request_shape {Store} {hooks : Hooks Store}
  (options : Options) (env : Env) (api : string) (params : JsVal)
  (p : list (string * JsVal)) (a : JsVal) (u : string) (w w1 : World Store) :
  api <> "" ->
  quiet_requestOpts options p ->
  Client.getAccessToken options env w = (Return a, w1) ->
  target options (host options ++ "/" ++ api)
    (if Js.truthy params then params else VObj []) a = Return u ->
  let r := Client.get options env api params VUndef w in
  let rq := {| req_url := u; req_opts := transport_opts (Js.update "params" params p) |} in
  sent (after r) = sent w1 ++ [rq] /\
  backing (after r) = backing w1 /\ ticks (after r) = ticks w1 /\
  Js.get (req_opts rq) "params" = Return VUndef /\
  forall v, outcome r = Return v ->
    exists response,
      remote env (List.length (sent w1)) rq = HttpOk response /\ v = payload response.
Proof. apply get_run. Qed.

Lemma get_request_shape_witness :
  let r := Client.get Example.options (Example.env [Example.response Example.token_body])
             "user/get" (VObj [("access_token", VStr "MINE"); ("userid", VStr "u 1")])
             VUndef (Example.holding 2000000) in
  let rq := {| req_url := "https://oapi.dingtalk.com/user/get?access_token=TOK&userid=u%201";
               req_opts := VObj [("dataType", VStr "json")] |} in
  sent (after r) = [rq] /\
  backing (after r) = backing (Example.holding 2000000) /\ ticks (after r) = 1%nat /\
  Js.get (req_opts rq) "params" = Return VUndef /\
  forall v, outcome r = Return v ->
    exists response,
      remote (Example.env [Example.response Example.token_body]) 0 rq = HttpOk response /\
      v = payload response.
Proof.
  refine (get_request_shape (hooks := memory_hooks) Example.options
            (Example.env [Example.response Example.token_body]) "user/get"
            (VObj [("access_token", VStr "MINE"); ("userid", VStr "u 1")])
            [("dataType", VStr "json")] (VStr "TOK")
            "https://oapi.dingtalk.com/user/get?access_token=TOK&userid=u%201"
            (Example.holding 2000000)
            {| ticks := 1; sent := []; logged := [];
               backing := backing (Example.holding 2000000) |} _ _ _ _).
  - discriminate.
  - repeat split.
  - reflexivity.
  - reflexivity.
Defined.

(** X11: [post(api, data)] sends [data] as the JSON body: the transport
    gets [method: 'POST'], [contentType: 'json'] and [data], and the query
    string holds the access token and nothing else. *)
Theorem post_request_shape {Store} {hooks : Hooks Store}
  (options : Options) (env : Env) (api : string) (data : JsVal)
  (p : list (string * JsVal)) (a : JsVal) (u : string) (w w1 : World Store) :
  api <> "" ->
  quiet_requestOpts options p ->
  Client.getAccessToken options env w = (Return a, w1) ->
  target options (host options ++ "/" ++ api) (VObj []) a = Return u ->
  let r := Client.post options env api data VUndef w in
  exists ropts,
    sent (after r) = sent w1 ++ [{| req_url := u; req_opts := VObj ropts |}] /\
    backing (after r) = backing w1 /\ ticks (after r) = ticks w1 /\
    Js.lookup "method" ropts = Some (VStr "POST") /\
    Js.lookup "contentType" ropts = Some (VStr "json") /\
    Js.lookup "data" ropts = Some data /\
    Js.lookup "params" ropts = None /\
    forall v, outcome r = Return v ->
      exists response,
        remote env (List.length (sent w1)) {| req_url := u; req_opts := VObj ropts |}
          = HttpOk response /\ v = payload response.
Proof.
  intros Hapi Hq Hg Ht r.
  destruct (post_merged options p data Hq) as (Hm & Hi & Ha & Hpar).
  rewrite <- Hpar in Ht.
  pose proof (prepare_cached options _ _ _ _ a u w w1 Hm Hi Ha Hg Ht) as Hp.
  assert (Hrun : r = Client.request_with options env (Client.getAccessToken options env)
                       (host options ++ "/" ++ api)
                       (VObj [("method", VStr "POST"); ("contentType", VStr "json");
                              ("data", data)]) w).
  { subst r. unfold Client.post, Client.post_with, assert.
    assert (Js.truthy (VStr api) = true) as ->.
    { simpl. destruct (String.eqb_spec api ""); [contradiction | reflexivity]. }
    unfold bind at 1. unfold ret at 1. unfold bind at 1. unfold lift at 1.
    reflexivity. }
  rewrite Hrun.
  destruct (request_with_prepared options env _ _ _ w w1 u _ Hp) as (Hs & Hb & Hti & Hv).
  set (merged := Js.update "data" data
                   (Js.update "contentType" (VStr "json")
                      (Js.update "method" (VStr "POST") p))) in *.
  assert (Hnd : NoDup (map fst merged)).
  { subst merged. repeat apply update_keys_NoDup. destruct Hq as (Hp0 & _).
    eapply assign1_NoDup; [exact Hp0|]. repeat constructor. intros []. }
  destruct (transport_opts_lookup merged "" Hnd) as (q & Hq1 & _).
  assert (Hk : forall k, Js.lookup k q = if existsb (String.eqb k) bookkeeping then None
                                         else Js.lookup k merged).
  { intros k. destruct (transport_opts_lookup merged k Hnd) as (q' & Hq1' & Hq2).
    rewrite Hq1 in Hq1'. injection Hq1' as ->. exact Hq2. }
  rewrite Hq1 in *. exists q.
  split; [exact Hs|]. split; [exact Hb|]. split; [exact Hti|].
  rewrite !Hk. cbn [existsb bookkeeping String.eqb Ascii.eqb Bool.eqb orb].
  subst merged.
  rewrite !lookup_update_other by discriminate. rewrite !lookup_update_same.
  rewrite lookup_update_other by discriminate. rewrite lookup_update_same.
  auto.
Qed.

Lemma post_request_shape_witness :
  let r := Client.post Example.options (Example.env [Example.response Example.token_body])
             "message/send" (VObj [("agentid", VNum (Num 1))]) VUndef
             (Example.holding 2000000) in
  exists ropts,
    sent (after r) =
      [{| req_url := "https://oapi.dingtalk.com/message/send?access_token=TOK";
          req_opts := VObj ropts |}] /\
    backing (after r) = backing (Example.holding 2000000) /\ ticks (after r) = 1%nat /\
    Js.lookup "method" ropts = Some (VStr "POST") /\
    Js.lookup "contentType" ropts = Some (VStr "json") /\
    Js.lookup "data" ropts = Some (VObj [("agentid", VNum (Num 1))]) /\
    Js.lookup "params" ropts = None /\
    forall v, outcome r = Return v ->
      exists response,
        remote (Example.env [Example.response Example.token_body]) 0
          {| req_url := "https://oapi.dingtalk.com/message/send?access_token=TOK";
             req_opts := VObj ropts |} = HttpOk response /\
        v = payload response.
Proof.
  refine (post_request_shape (hooks := memory_hooks) Example.options
            (Example.env [Example.response Example.token_body]) "message/send"
            (VObj [("agentid", VNum (Num 1))])
            [("dataType", VStr "json")] (VStr "TOK")
            "https://oapi.dingtalk.com/message/send?access_token=TOK"
            (Example.holding 2000000)
            {| ticks := 1; sent := []; logged := [];
               backing := backing (Example.holding 2000000) |} _ _ _ _).
  - discriminate.
  - repeat split.
  - reflexivity.
  - reflexivity.
Defined.

(** ** The ticket cache *)

(** X12: a stored ticket of the requested type whose [expireTime] lies
    after the current reading of the clock is returned as it is: no
    request, no log entry, no change of the store; a missing [type] means
    [jsapi]. *)
Theorem getJSApiTicket_cached {Store} {hooks : Hooks Store}
  (options : Options) (env : Env) (type : JsVal) (ty : string)
  (w : World Store) (tk : Ticket.t) (e : Z) :
  (if Js.truthy type then type else VStr "jsapi") = VStr ty ->
  getTicketToken ty (backing w) = Return (Some tk) ->
  Ticket.expireTime tk = Num e ->
  clock env (ticks w) < e ->
  Client.getJSApiTicket options env type w =
  (Return (Ticket.ticket tk),
   {| ticks := S (ticks w); sent := sent w; logged := logged w;
      backing := backing w |}).
Proof.
  intros Hty Hload He Hlt. unfold Client.getJSApiTicket. rewrite Hty.
  unfold bind at 1. unfold Client.load at 1. rewrite Hload.
  unfold bind at 1. unfold bind at 1. unfold Client.Date_now at 1. unfold ret at 1.
  unfold Ticket.isValid. cbn [Ticket.expireTime]. rewrite He. cbn [Js.num_lt].
  destruct (Z.ltb_spec (clock env (ticks w)) e); [reflexivity | lia].
Qed.

Lemma getJSApiTicket_cached_witness :
  Client.getJSApiTicket Example.options (Example.env []) VUndef Example.ready =
  (Return (VStr "T"),
   {| ticks := 6; sent := []; logged := []; backing := backing Example.ready |}).
Proof.
  refine (getJSApiTicket_cached (hooks := memory_hooks) Example.options (Example.env [])
            VUndef "jsapi" Example.ready (Ticket.new (VStr "T") (Num 9000000)) 9000000
            _ _ _ _).
  - reflexivity.
  - reflexivity.
  - reflexivity.
  - reflexivity.
Defined.

(** X13: when the stored ticket is absent or expired, [getJSApiTicket]
    first obtains an access token through [getAccessToken] (from the cache
    or by a fetch of its own), then sends one request to
    [get_jsapi_ticket] with the type and that token in the query string;
    on an answer with status 0 and a lifetime of [n] seconds the ticket is
    saved under its type with the expiry time [arrival + (n - 10) * 1000]
    and returned.  The expiry time is stated where JavaScript computes it
    without rounding: the clock reading, the lifetime and the results are
    integers of at most 2^53 in absolute value. *)
Theorem getJSApiTicket_refresh {Store} {hooks : Hooks Store}
  (options : Options) (env : Env) (type : JsVal) (ty : string)
  (w w1 : World Store) (ticketToken : option Ticket.t)
  (p : list (string * JsVal)) (a : JsVal) (u : string)
  (rprops bprops : list (string * JsVal)) (n : Z) (s' : Store) :
  (if Js.truthy type then type else VStr "jsapi") = VStr ty ->
  getTicketToken ty (backing w) = Return ticketToken ->
  stale_ticket ticketToken (clock env (ticks w)) ->
  quiet_requestOpts options p ->
  Client.getAccessToken options env (checked ticketToken w) = (Return a, w1) ->
  target options (host options ++ "/get_jsapi_ticket") (VObj [("type", VStr ty)]) a
    = Return u ->
  (forall ro, remote env (List.length (sent w1)) {| req_url := u; req_opts := ro |}
              = HttpOk (VObj rprops)) ->
  Js.lookup "data" rprops = Some (VObj bprops) ->
  Js.lookup "errcode" bprops = Some (VNum (Num 0)) ->
  Js.lookup "expires_in" bprops = Some (VNum (Num n)) ->
  exact_expiry (clock env (ticks w1)) n = true ->
  saveTicketToken ty (Ticket.new (field "ticket" bprops)
                        (Num (clock env (ticks w1) + (n - 10) * 1000)))
    (backing w1) = Return s' ->
  let r := Client.getJSApiTicket options env type w in
  outcome r = Return (field "ticket" bprops) /\
  backing (after r) = s' /\
  exists rq, sent (after r) = sent w1 ++ [rq] /\ req_url rq = u.
Proof.
  intros Hty Hload Hstale Hq Hg Ht Hr Hd He Hn _ Hsave r. subst r.
  rewrite (getJSApiTicket_stale options env w type ty ticketToken Hty Hload Hstale).
  destruct (get_merged options p (VObj [("type", VStr ty)]) Hq) as (Hm & Hi & Ha & Hpar).
  assert (Htp : target options (host options ++ "/" ++ "get_jsapi_ticket")
                  (params_of (Js.update "params" (VObj [("type", VStr ty)]) p)) a
                = Return u).
  { rewrite Hpar. exact Ht. }
  pose proof (prepare_cached options (Client.getAccessToken options env)
                (host options ++ "/" ++ "get_jsapi_ticket") _ _ a u
                (checked ticketToken w) w1 Hm Hi Ha Hg Htp) as Hp.
  destruct (request_with_answered options env _ _ _ _ w1 u _ rprops (VObj bprops)
              Hp (Hr _) (get_own _ _ _ Hd)) as (w2 & Hs2 & Hb2 & Ht2 & Hrun).
  cbn [Js.truthy] in Hrun. rewrite (get_own _ _ _ He) in Hrun.
  cbn [Js.strict_ne_zero] in Hrun.
  assert (Hget : Client.get options env "get_jsapi_ticket" (VObj [("type", VStr ty)]) VUndef
                   (checked ticketToken w) = (Return (VObj bprops), w2)).
  { rewrite <- Hrun. reflexivity. }
  assert (Hfetch : Client.fetchJSApiTicket options env ty (checked ticketToken w) =
                   (Return (field "ticket" bprops),
                    {| ticks := S (ticks w1); sent := sent w2; logged := logged w2;
                       backing := s' |})).
  { unfold Client.fetchJSApiTicket. unfold bind at 1. rewrite Hget.
    unfold bind at 1. unfold lift at 1. rewrite get_plain by reflexivity.
    fold (field "ticket" bprops).
    unfold bind at 1. unfold lift at 1. rewrite (get_own _ _ _ Hn).
    unfold bind at 1. unfold Client.Date_now at 1.
    unfold bind at 1. unfold lift at 1. cbn [Js.to_number].
    cbn [Js.num_sub Js.num_mul Js.num_add Js.num_binop].
    unfold bind at 1. unfold Client.save. cbn [backing].
    rewrite Hb2, Ht2, Hsave. reflexivity. }
  rewrite Hfetch. cbn [outcome after fst snd backing sent].
  split; [reflexivity|]. split; [reflexivity|].
  eexists. split; [exact Hs2 | reflexivity].
Qed.

Lemma getJSApiTicket_refresh_witness :
  let r := Client.getJSApiTicket Example.options
             (Example.env [Example.response Example.token_body;
                           Example.response Example.ticket_body])
             VUndef Example.fresh in
  outcome r = Return (VStr "T") /\
  backing (after r) =
    {| store := Some (AccessToken.new (VStr "TOK") (Num 8190000));
       ticketStore := [("jsapi", Ticket.new (VStr "T") (Num 8190001))] |} /\
  exists rq,
    sent (after r) =
      [{| req_url := "https://oapi.dingtalk.com/gettoken?appkey=KEY&appsecret=SECRET";
          req_opts := VObj [("dataType", VStr "json")] |}] ++ [rq] /\
    req_url rq = "https://oapi.dingtalk.com/get_jsapi_ticket?type=jsapi&access_token=TOK".
Proof.
  refine (getJSApiTicket_refresh (hooks := memory_hooks) Example.options
            (Example.env [Example.response Example.token_body;
                          Example.response Example.ticket_body])
            VUndef "jsapi" Example.fresh
            {| ticks := 1;
               sent := [{| req_url := "https://oapi.dingtalk.com/gettoken?appkey=KEY&appsecret=SECRET";
                           req_opts := VObj [("dataType", VStr "json")] |}];
               logged := [];
               backing := {| store := Some (AccessToken.new (VStr "TOK") (Num 8190000));
                             ticketStore := [] |} |}
            None [("dataType", VStr "json")] (VStr "TOK")
            "https://oapi.dingtalk.com/get_jsapi_ticket?type=jsapi&access_token=TOK"
            [("data", Example.ticket_body); ("status", VNum (Num 200)); ("headers", VObj [])]
            [("errcode", VNum (Num 0)); ("ticket", VStr "T"); ("expires_in", VNum (Num 7200))]
            7200 _ _ _ _ _ _ _ _ _ _ _ _ _).
  - reflexivity.
  - reflexivity.
  - exact I.
  - repeat split.
  - reflexivity.
  - reflexivity.
  - reflexivity.
  - reflexivity.
  - reflexivity.
  - reflexivity.
  - reflexivity.
  - reflexivity.
Defined.

(** Where the store can have gone during a request: nowhere, or through
    one [saveToken]. *)
Lemma request_backing {Store} {hooks : Hooks Store} (options : Options)
  (env : Env) (url : string) (opts : JsVal) (w w' : World Store) (o : Outcome JsVal) :
  Client.request options env url opts w = (o, w') ->
  backing w' = backing w \/
  exists tk, saveToken tk (backing w) = Return (backing w').
Proof.
  intros H.
  assert (Hprep : forall o1 w1,
            Client.prepare options (Client.getAccessToken options env) url opts w = (o1, w1) ->
            backing w1 = backing w \/
            exists tk, saveToken tk (backing w) = Return (backing w1)).
  { intros o1 w1 Hp. apply prepare_world in Hp as [-> | [o' Hg]]; [now left|].
    apply getAccessToken_backing in Hg as [Hb | (tk & _ & Hs)]; eauto. }
  apply request_with_frame in H as [(o1 & Hp & _) | (u & ro & w1 & Hp & _ & _ & Hb & _)].
  - eapply Hprep; eassumption.
  - rewrite Hb. eapply Hprep; eassumption.
Qed.

Lemma get_backing {Store} {hooks : Hooks Store} (options : Options)
  (env : Env) (api : string) (params opts : JsVal) (w w' : World Store)
  (o : Outcome JsVal) :
  Client.get options env api params opts w = (o, w') ->
  backing w' = backing w \/
  exists tk, saveToken tk (backing w) = Return (backing w').
Proof.
  unfold Client.get, Client.get_with, assert.
  destruct (Js.truthy (VStr api)).
  - unfold bind at 1. unfold ret at 1. unfold bind at 1. unfold lift at 1.
    destruct (Js.assign _ _) as [o0| |]; [|intros H; inversion H; subst; now left..].
    apply request_backing.
  - unfold bind at 1. unfold throw at 1. intros H; inversion H; subst; now left.
Qed.

Lemma getJSApiTicket_backing {Store} {hooks : Hooks Store} (options : Options)
  (env : Env) (type : JsVal) (ty : string) (w w' : World Store) (o : Outcome JsVal) :
  (if Js.truthy type then type else VStr "jsapi") = VStr ty ->
  Client.getJSApiTicket options env type w = (o, w') ->
  exists b,
    (b = backing w \/ exists tk, saveToken tk (backing w) = Return b) /\
    (backing w' = b \/ exists t, saveTicketToken ty t b = Return (backing w')).
Proof.
  intros Hty. unfold Client.getJSApiTicket. rewrite Hty.
  assert (Hfetch : forall w0, backing w0 = backing w ->
            Client.fetchJSApiTicket options env ty w0 = (o, w') ->
            exists b,
              (b = backing w \/ exists tk, saveToken tk (backing w) = Return b) /\
              (backing w' = b \/ exists t, saveTicketToken ty t b = Return (backing w'))).
  { intros w0 Hw0. unfold Client.fetchJSApiTicket. unfold bind at 1.
    destruct (Client.get options env _ _ _ w0) as [o1 w1] eqn:Hget.
    apply get_backing in Hget. rewrite Hw0 in Hget.
    assert (Hb1 : backing w1 = backing w \/
                  exists tk, saveToken tk (backing w) = Return (backing w1)).
    { destruct Hget as [Hb | [tk Hs]]; eauto. }
    clear Hget.
    destruct o1 as [resp|e|];
      [|intros H; inversion H; subst; exists (backing w'); split; auto;
        destruct Hb1 as [->|]; auto..].
    unfold bind at 1. unfold lift at 1.
    destruct (Js.get resp "ticket") as [t| |];
      [|intros H; inversion H; subst; exists (backing w'); split; auto;
        destruct Hb1 as [->|]; auto..].
    unfold bind at 1. unfold lift at 1.
    destruct (Js.get resp "expires_in") as [x| |];
      [|intros H; inversion H; subst; exists (backing w'); split; auto;
        destruct Hb1 as [->|]; auto..].
    unfold bind at 1. unfold Client.Date_now at 1.
    unfold bind at 1. unfold lift at 1.
    destruct (Js.to_number x) as [n| |];
      [|intros H; inversion H; subst; cbn [backing]; exists (backing w1); split; auto;
        destruct Hb1 as [->|]; auto..].
    unfold bind at 1. unfold Client.save. cbn [backing].
    destruct (saveTicketToken ty _ (backing w1)) as [s'| |] eqn:Hs;
      unfold ret; intros H; inversion H; subst; cbn [backing];
      exists (backing w1); (split; [destruct Hb1 as [->|]; auto|]); eauto. }
  unfold bind at 1. unfold Client.load at 1.
  destruct (getTicketToken ty (backing w)) as [[tk|]| |].
  - unfold bind at 1. unfold bind at 1. unfold Client.Date_now at 1. unfold ret at 1.
    destruct (Ticket.isValid _ _).
    + unfold ret. intros H. inversion H; subst. exists (backing w). auto.
    + apply Hfetch. reflexivity.
  - unfold bind at 1. unfold ret at 1. apply Hfetch. reflexivity.
  - intros H. inversion H; subst. eexists. split; left; reflexivity.
  - intros H. inversion H; subst. eexists. split; left; reflexivity.
Qed.

(** X14: with the default in-memory hooks the cached credentials do not
    disturb each other: [getAccessToken] never changes a stored ticket,
    and [getJSApiTicket(type)], for a type other than ['__proto__'], never
    changes the ticket stored for another type.  (The type ['__proto__']
    is set apart: saving under that name replaces the prototype of
    [this.ticketStore], and with it what every absent type reads.) *)
Theorem cached_credentials_are_independent (options : Options) (env : Env)
  (w w' : World Memory) (o : Outcome JsVal) :
  (Client.getAccessToken options env w = (o, w') ->
   ticketStore (backing w') = ticketStore (backing w)) /\
  (forall type ty other,
     (if Js.truthy type then type else VStr "jsapi") = VStr ty ->
     ty <> "__proto__" ->
     Client.getJSApiTicket options env type w = (o, w') ->
     other <> ty ->
     getTicketToken other (backing w') = getTicketToken other (backing w)).
Proof.
  assert (Htok : forall (tk : AccessToken.t) (m m' : Memory),
            saveToken tk m = Return m' -> ticketStore m' = ticketStore m).
  { intros tk m m' H. cbn in H. injection H as <-. reflexivity. }
  split.
  - intros H. apply getAccessToken_backing in H as [-> | (tk & _ & Hs)]; [reflexivity|].
    eapply Htok; eassumption.
  - intros type ty other Hty _ H Hne.
    apply (getJSApiTicket_backing options env type ty w w' o Hty) in H
      as (b & Hb & Hb').
    assert (Hb1 : ticketStore b = ticketStore (backing w)).
    { destruct Hb as [-> | [tk Hs]]; [reflexivity | eapply Htok; eassumption]. }
    cbn [getTicketToken memory_hooks]. rewrite <- Hb1.
    destruct Hb' as [-> | [t Hs]]; [reflexivity|].
    cbn in Hs. destruct (String.eqb ty "__proto__"); [discriminate|].
    injection Hs as <-. cbn [ticketStore].
    now rewrite lookup_update_other.
Qed.

Lemma cached_credentials_are_independent_witness :
  getTicketToken "jsapi"
    (backing (after (Client.getJSApiTicket Example.options
                       (Example.env [Example.response Example.ticket_body])
                       (VStr "wx") Example.ready)))
  = getTicketToken "jsapi" (backing Example.ready).
Proof.
  refine (proj2 (cached_credentials_are_independent Example.options
                   (Example.env [Example.response Example.ticket_body])
                   Example.ready _ (Return (VStr "T"))) (VStr "wx") "wx" "jsapi" _ _ _ _).
  - reflexivity.
  - discriminate.
  - reflexivity.
  - discriminate.
Defined.

(** ** Login URLs *)

Lemma stringify_fields_pairs (props : list (string * JsVal))
  (tail : list (string * string)) :
  (forall e, In e tail -> Js.lookup (fst e) props = Some (VStr (snd e))) ->
  querystring.stringify_fields props (map fst tail) = Return (encoded_query tail).
Proof.
  unfold encoded_query.
  induction tail as [|e r IH]; intros H; [reflexivity|].
  cbn [map querystring.stringify_fields].
  rewrite (H e) by now left.
  rewrite IH by (intros x Hx; apply H; now right).
  cbn [querystring.stringify_field querystring.stringifyPrimitive obind].
  destruct r as [|e' r']; cbn [map Str.join].
  - now rewrite !append_assoc, !append_empty_r.
  - now rewrite !append_assoc.
Qed.

(** [querystring.stringify] of an object of strings. *)
Lemma stringify_strings (l : list (string * string)) :
  NoDup (map fst l) -> Js.ordered_keys (map fst l) = map fst l ->
  querystring.stringify (VObj (string_params l)) = Return (encoded_query l).
Proof.
  intros Hnd Hord. unfold querystring.stringify, Js.own_keys, string_params.
  replace (map fst (map (fun e : string * string => (fst e, VStr (snd e))) l))
    with (map fst l) by (rewrite map_map; apply map_ext; reflexivity).
  rewrite Hord. apply stringify_fields_pairs.
  intros e He. now apply lookup_pairs.
Qed.

Lemma parse_query_eq (search : string) :
  match Url.autoEscapeStr search with
  | EmptyString => Return (VObj [])
  | String _ qs => querystring.parse qs
  end = obind (parsed_query search) (fun props => Return (VObj props)).
Proof.
  unfold parsed_query, querystring.parse.
  destruct (Url.autoEscapeStr search) as [|c qs]; [reflexivity|].
  destruct (String.eqb qs ""); reflexivity.
Qed.

(** A well-formed origin followed by a fixed path and a query string of
    percent-encoded pairs is a well-formed URL. *)
Lemma well_formed_login (sch hp path : string) (l : list (string * string)) :
  well_formed sch hp "" "" "" = true ->
  Str.all Str.is_graphic path = true ->
  Str.any Url.query_or_hash path = false ->
  Str.any (Str.is_char "\") path = false ->
  Url.first_is "/" path = true ->
  well_formed sch hp path ("?" ++ encoded_query l) "" = true.
Proof.
  intros Hwf Hg Hq Hb Hf.
  destruct (well_formed_parts _ _ _ _ _ Hwf) as (Hhead & _).
  destruct (encoded_query_facts l) as [Lg Lh].
  unfold well_formed. rewrite !andb_true_iff in Hhead.
  destruct Hhead as [[Hs Hh] Hp]. rewrite Hs, Hh, Hp.
  rewrite append_empty_r, all_app, Hg, Hq, Hb, Hf.
  change (Str.all Str.is_graphic ("?" ++ encoded_query l))
    with (Str.all Str.is_graphic (encoded_query l)).
  change (Str.any (Str.is_char "#") ("?" ++ encoded_query l))
    with (Str.any (Str.is_char "#") (encoded_query l)).
  rewrite Lg, Lh. cbn. now rewrite orb_true_r.
Qed.

Lemma login_url_parses_back (options : Options) (sch hp : string)
  (redirect_uri query : JsVal) (scope path : string) (l : list (string * string)) :
  host options = (sch ++ hp)%string ->
  well_formed sch hp "" "" "" = true ->
  Str.all Str.is_graphic path = true ->
  Str.any Url.query_or_hash path = false ->
  Str.any (Str.is_char "\") path = false ->
  Js.assign (Client.login_params options redirect_uri scope) [query]
    = Return (VObj (string_params l)) ->
  Forall ascii_entry l ->
  Js.ordered_keys (map fst l) = map fst l ->
  (List.length l <= querystring.maxKeys)%nat ->
  exists o,
    Client.login_url options redirect_uri scope path query
      = Return (host options ++ "/" ++ path ++ "?" ++ encoded_query l)%string /\
    Url.parse (host options ++ "/" ++ path ++ "?" ++ encoded_query l) = Return o /\
    Url.query o = Some (VObj (string_params l)) /\
    Url.host o = Some hp /\ Url.hash o = None.
Proof.
  intros Hhost Hwf Hg Hq Hb Ha Hall Hord Hlen.
  assert (Hnd : NoDup (map fst l)).
  { assert (Hk : map fst (string_params l) = map fst l)
      by (unfold string_params; rewrite map_map; apply map_ext; reflexivity).
    rewrite <- Hk. eapply assign_NoDup; [exact Ha|].
    cbn. repeat constructor; cbn; intuition discriminate. }
  assert (Hwf' : well_formed sch hp ("/" ++ path) ("?" ++ encoded_query l) "" = true).
  { apply well_formed_login; auto. }
  assert (Hurl : (host options ++ "/" ++ path ++ "?" ++ encoded_query l
                  = sch ++ hp ++ ("/" ++ path) ++ ("?" ++ encoded_query l) ++ "")%string).
  { rewrite Hhost, append_empty_r, !append_assoc. reflexivity. }
  pose proof (parse_well_formed _ _ _ _ _ Hwf') as Hparse.
  rewrite <- Hurl in Hparse.
  rewrite parse_query_eq, (parsed_query_encoded l Hall Hnd Hlen) in Hparse.
  cbn [obind] in Hparse.
  eexists. split; [|split; [exact Hparse|]].
  - unfold Client.login_url. rewrite Ha. cbn [obind].
    rewrite (stringify_strings l Hnd Hord). reflexivity.
  - cbn [Url.query Url.host Url.hash]. auto.
Qed.

(** X15: the login URLs carry their parameters so that they can be read
    back: when all parameters are ASCII strings and the host is a
    well-formed origin, parsing the URL that [getQRConnectUrl],
    [getIframeQRGotoUrl], [getWebAuthUrl] or [getWebLoginUrl] returns
    yields exactly the merged parameters, [redirect_uri] included, and no
    fragment. *)
Theorem login_urls_parse_back (options : Options) (sch hp : string)
  (redirect_uri query : JsVal) :
  host options = (sch ++ hp)%string ->
  well_formed sch hp "" "" "" = true ->
  forall (build : Options -> JsVal -> JsVal -> Outcome string) (scope : string)
         (l : list (string * string)),
    In (build, scope)
       [(Client.getQRConnectUrl, "snsapi_login"); (Client.getIframeQRGotoUrl, "snsapi_login");
        (Client.getWebAuthUrl, "snsapi_auth"); (Client.getWebLoginUrl, "snsapi_login")] ->
    Js.assign (Client.login_params options redirect_uri scope) [query]
      = Return (VObj (string_params l)) ->
    Forall ascii_entry l ->
    Js.ordered_keys (map fst l) = map fst l ->
    (List.length l <= querystring.maxKeys)%nat ->
    exists url o,
      build options redirect_uri query = Return url /\
      Url.parse url = Return o /\
      Url.query o = Some (VObj (string_params l)) /\
      Url.host o = Some hp /\ Url.hash o = None.
Proof.
  intros Hhost Hwf build scope l Hin Ha Hall Hord Hlen.
  assert (Hgen : forall path,
            Str.all Str.is_graphic path = true ->
            Str.any Url.query_or_hash path = false ->
            Str.any (Str.is_char "\") path = false ->
            exists url o,
              Client.login_url options redirect_uri scope path query = Return url /\
              Url.parse url = Return o /\
              Url.query o = Some (VObj (string_params l)) /\
              Url.host o = Some hp /\ Url.hash o = None).
  { intros path Hg Hq Hb.
    destruct (login_url_parses_back options sch hp redirect_uri query scope path l
                Hhost Hwf Hg Hq Hb Ha Hall Hord Hlen) as (o & H1 & H2 & H3).
    eauto. }
  cbn [In] in Hin.
  destruct Hin as [E | [E | [E | [E | []]]]]; injection E as <- <-;
    apply Hgen; reflexivity.
Qed.

Lemma login_urls_parse_back_witness :
  exists url o,
    Client.getQRConnectUrl Example.options (VStr "https://my.app/cb?next=/home")
      (VObj [("state", VStr "a b")]) = Return url /\
    Url.parse url = Return o /\
    Url.query o = Some (VObj (string_params
                      [("response_type", "code"); ("scope", "snsapi_login");
                       ("state", "a b"); ("appid", "KEY");
                       ("redirect_uri", "https://my.app/cb?next=/home")])) /\
    Url.host o = Some "oapi.dingtalk.com" /\ Url.hash o = None.
Proof.
  refine (login_urls_parse_back Example.options "https://" "oapi.dingtalk.com"
            (VStr "https://my.app/cb?next=/home") (VObj [("state", VStr "a b")])
            _ _ Client.getQRConnectUrl "snsapi_login"
            [("response_type", "code"); ("scope", "snsapi_login");
             ("state", "a b"); ("appid", "KEY");
             ("redirect_uri", "https://my.app/cb?next=/home")] _ _ _ _ _).
  - reflexivity.
  - reflexivity.
  - left. reflexivity.
  - reflexivity.
  - repeat constructor.
  - reflexivity.
  - unfold querystring.maxKeys. simpl. lia.
Defined.

(** X16: [getSnsAuthorizeUrl] insists on [query.loginTmpCode]: without a
    query, or with one whose [loginTmpCode] is missing or falsy, it
    rejects with the assertion error (a missing query is no [TypeError]);
    with the code present it returns what [getWebLoginUrl] returns. *)
Theorem getSnsAuthorizeUrl_requires_code (options : Options)
  (redirect_uri query : JsVal) :
  (Js.truthy query = false \/ (exists q, query = VObj q /\ blank q "loginTmpCode") ->
   Client.getSnsAuthorizeUrl options redirect_uri query
   = Throw (AssertionError "loginTmpCode required")) /\
  (forall q, query = VObj q -> filled q "loginTmpCode" ->
   Client.getSnsAuthorizeUrl options redirect_uri query
   = Client.getWebLoginUrl options redirect_uri query).
Proof.
  split.
  - intros [Hf | (q & -> & Hb)]; unfold Client.getSnsAuthorizeUrl.
    + rewrite Hf. cbn [obind]. rewrite Hf. reflexivity.
    + cbn [Js.truthy]. rewrite get_plain by reflexivity. cbn [obind].
      unfold blank in Hb. destruct (Js.lookup "loginTmpCode" q) as [v|];
        [rewrite Hb|]; reflexivity.
  - intros q -> (v & Hv & Ht). unfold Client.getSnsAuthorizeUrl.
    cbn [Js.truthy]. rewrite (get_own _ _ _ Hv). cbn [obind]. rewrite Ht. reflexivity.
Qed.

Lemma getSnsAuthorizeUrl_requires_code_witness :
  Client.getSnsAuthorizeUrl Example.options (VStr "https://my.app/cb") VUndef
  = Throw (AssertionError "loginTmpCode required").
Proof.
  refine (proj1 (getSnsAuthorizeUrl_requires_code Example.options
                   (VStr "https://my.app/cb") VUndef) _).
  left. reflexivity.
Defined.

(** ** Calls that pass validation *)

Lemma filled_get (props : list (string * JsVal)) (k : string) :
  filled props k -> exists v, Js.get (VObj props) k = Return v /\ Js.truthy v = true.
Proof.
  intros (v & Hv & Ht). exists v. split; [now apply get_own | exact Ht].
Qed.

(** X17: the wrappers of [lib/api/message.js] add nothing but their
    checks: a call whose asserted fields are all present and truthy is
    exactly [client.post] of the wrapper's endpoint with the caller's
    object as the body ([listMessageStatus] wraps its argument as
    [{ messageId }]). *)
Theorem message_wrappers_pass_through {Store} {hooks : Hooks Store}
  (options : Options) (env : Env) (w : World Store) (props : list (string * JsVal)) :
  (forall name,
     filled props "touser" \/ filled props "toparty" ->
     Js.lookup "msgtype" props = Some (VStr name) -> name <> "" ->
     filled props "agentid" -> filled props name ->
     Message.send options env (VObj props) w
     = Client.post options env "message/send" (VObj props) VUndef w) /\
  (forall messageId, Js.truthy messageId = true ->
     Message.listMessageStatus options env messageId w
     = Client.post options env "message/list_message_status"
         (VObj [("messageId", messageId)]) VUndef w) /\
  (filled props "agent_id" ->
   filled props "userid_list" \/ filled props "dept_id_list" \/ filled props "to_all_user" ->
   filled props "msg" ->
   Message.sendMessage options env (VObj props) w
   = Client.post options env "topapi/message/corpconversation/asyncsend_v2"
       (VObj props) VUndef w) /\
  (filled props "agent_id" -> filled props "task_id" ->
   Message.getSendProgress options env (VObj props) w
   = Client.post options env "topapi/message/corpconversation/getsendprogress"
       (VObj props) VUndef w) /\
  (filled props "agent_id" -> filled props "task_id" ->
   Message.getSendResult options env (VObj props) w
   = Client.post options env "topapi/message/corpconversation/getsendresult"
       (VObj props) VUndef w) /\
  (filled props "agent_id" -> filled props "msg_task_id" ->
   Message.recallMessage options env (VObj props) w
   = Client.post options env "topapi/message/corpconversation/recall"
       (VObj props) VUndef w).
Proof.
  split; [|split; [|split; [|split; [|split]]]].
  - intros name Hto Hm Hne Hag Hbody.
    destruct (filled_get _ _ Hag) as (ag & Hgag & Htag).
    destruct (filled_get _ _ Hbody) as (body & Hgb & Htb).
    assert (Htn : Js.truthy (VStr name) = true).
    { simpl. destruct (String.eqb_spec name ""); [contradiction | reflexivity]. }
    unfold Message.send, Message.client_post.
    rewrite (get_own _ _ _ Hm), Hgag.
    cbv beta iota delta [bind lift ret throw assert Message.or_else].
    cbn [Js.to_string]. rewrite Hgb, Htn, Htag, Htb.
    destruct Hto as [Ht | Ht]; destruct (filled_get _ _ Ht) as (t & Hgt & Htt).
    + rewrite Hgt, Htt. cbn [fst snd]. rewrite Htt. reflexivity.
    + rewrite Hgt. rewrite (get_plain props "touser") by reflexivity.
      destruct (Js.truthy (match Js.lookup "touser" props with
                           | Some x => x | None => VUndef end)) eqn:E;
        [rewrite E | rewrite Htt]; reflexivity.
  - intros messageId Ht. unfold Message.listMessageStatus, Message.client_post.
    cbv beta iota delta [bind assert ret]. rewrite Ht. reflexivity.
  - intros Hag Hto Hmsg.
    destruct (filled_get _ _ Hag) as (ag & Hgag & Htag).
    destruct (filled_get _ _ Hmsg) as (msg & Hgm & Htm).
    unfold Message.sendMessage, Message.client_post.
    rewrite Hgag, Hgm.
    cbv beta iota delta [bind lift ret throw assert Message.or_else].
    rewrite Htag, Htm.
    rewrite (get_plain props "userid_list"), (get_plain props "dept_id_list"),
      (get_plain props "to_all_user") by reflexivity.
    assert (Hone : Js.truthy
                     (let a := match Js.lookup "userid_list" props with
                               | Some x => x | None => VUndef end in
                      let b := match Js.lookup "dept_id_list" props with
                               | Some x => x | None => VUndef end in
                      let c := match Js.lookup "to_all_user" props with
                               | Some x => x | None => VUndef end in
                      if Js.truthy a then a else if Js.truthy b then b else c) = true).
    { cbv zeta.
      destruct Hto as [(v & Hv & Ht) | [(v & Hv & Ht) | (v & Hv & Ht)]];
        rewrite ?Hv; repeat match goal with
                            | |- context [if Js.truthy ?x then _ else _] =>
                                destruct (Js.truthy x) eqn:?
                            end; congruence. }
    cbv zeta in Hone.
    destruct (Js.truthy (match Js.lookup "userid_list" props with
                         | Some x => x | None => VUndef end)) eqn:E1.
    + cbn [fst snd]. rewrite E1. reflexivity.
    + destruct (Js.truthy (match Js.lookup "dept_id_list" props with
                           | Some x => x | None => VUndef end)) eqn:E2.
      * cbn [fst snd]. rewrite E2. reflexivity.
      * cbn [fst snd]. rewrite Hone. reflexivity.
  - intros H1 H2. destruct (filled_get _ _ H1) as (a & Ha & Hta).
    destruct (filled_get _ _ H2) as (b & Hb & Htb).
    unfold Message.getSendProgress, Message.client_post. rewrite Ha, Hb.
    cbv beta iota delta [bind lift ret throw assert]. rewrite Hta, Htb. reflexivity.
  - intros H1 H2. destruct (filled_get _ _ H1) as (a & Ha & Hta).
    destruct (filled_get _ _ H2) as (b & Hb & Htb).
    unfold Message.getSendResult, Message.client_post. rewrite Ha, Hb.
    cbv beta iota delta [bind lift ret throw assert]. rewrite Hta, Htb. reflexivity.
  - intros H1 H2. destruct (filled_get _ _ H1) as (a & Ha & Hta).
    destruct (filled_get _ _ H2) as (b & Hb & Htb).
    unfold Message.recallMessage, Message.client_post. rewrite Ha, Hb.
    cbv beta iota delta [bind lift ret throw assert]. rewrite Hta, Htb. reflexivity.
Qed.

Lemma message_wrappers_pass_through_witness :
  Message.send Example.options (Example.env [])
    (VObj [("touser", VStr "manager01"); ("msgtype", VStr "text");
           ("agentid", VNum (Num 1)); ("text", VObj [("content", VStr "hi")])])
    Example.fresh
  = Client.post Example.options (Example.env []) "message/send"
      (VObj [("touser", VStr "manager01"); ("msgtype", VStr "text");
             ("agentid", VNum (Num 1)); ("text", VObj [("content", VStr "hi")])])
      VUndef Example.fresh.
Proof.
  refine (proj1 (message_wrappers_pass_through (hooks := memory_hooks) Example.options
                   (Example.env []) Example.fresh
                   [("touser", VStr "manager01"); ("msgtype", VStr "text");
                    ("agentid", VNum (Num 1)); ("text", VObj [("content", VStr "hi")])])
            "text" _ _ _ _ _).
  - left. eexists. split; reflexivity.
  - reflexivity.
  - discriminate.
  - eexists. split; reflexivity.
  - eexists. split; reflexivity.
Defined.

(** ** Fragments *)

Lemma well_formed_without_hash (sch hp path search hash : string) :
  well_formed sch hp path search hash = true ->
  well_formed sch hp path search "" = true.
Proof.
  unfold well_formed. rewrite !andb_true_iff.
  intros [[[[[[[[[H1 H2] H3] H4] H5] H6] H7] H8] H9] H10].
  rewrite !all_app, !andb_true_iff in H4. destruct H4 as (Hp & Hs & _).
  rewrite append_empty_r, all_app, Hp, Hs. auto 12.
Qed.

Lemma normalizeUrl_drops_hash (sch hp path search hash : string) :
  well_formed sch hp path search hash = true ->
  Client._normalizeUrl (sch ++ hp ++ path ++ search ++ hash) =
  Client._normalizeUrl (sch ++ hp ++ path ++ search).
Proof.
  intros Hwf.
  rewrite (normalizeUrl_well_formed _ _ _ _ _ Hwf).
  pose proof (normalizeUrl_well_formed _ _ _ _ _ (well_formed_without_hash _ _ _ _ _ Hwf))
    as H0.
  rewrite append_empty_r in H0. now rewrite H0.
Qed.

(** X18: the fragment plays no part in normalization: a URL and the
    same URL without its fragment are normalized alike, so two URLs that
    differ only in their fragments are. *)
Theorem normalizeUrl_ignores_fragment (sch hp path search hash : string) :
  well_formed sch hp path search hash = true ->
  Client._normalizeUrl (sch ++ hp ++ path ++ search ++ hash) =
  Client._normalizeUrl (sch ++ hp ++ path ++ search).
Proof. apply normalizeUrl_drops_hash. Qed.

Lemma normalizeUrl_ignores_fragment_witness :
  Client._normalizeUrl "https://a.com/p?x=1&y=%20z#section-2" =
  Client._normalizeUrl "https://a.com/p?x=1&y=%20z".
Proof.
  refine (normalizeUrl_ignores_fragment "https://" "a.com" "/p" "?x=1&y=%20z" "#section-2" _).
  reflexivity.
Defined.

(** X19: the signature does not depend on the fragment of the page's
    URL: two calls of [getJSApiConfig] that obtain the same ticket, with
    options that fix [noncestr] and [timestamp], for URLs that differ only
    in their fragments, return the same signature. *)
Theorem signature_ignores_fragment
  {Store1 Store2} {hooks1 : Hooks Store1} {hooks2 : Hooks Store2}
  (options1 options2 : Options) (env1 env2 : Env)
  (sch hp path search hash1 hash2 : string)
  (oprops : list (string * JsVal)) (ticket : JsVal)
  (w1 w1' w1'' : World Store1) (w2 w2' w2'' : World Store2)
  (cfg1 cfg2 : Client.JSApiConfig) :
  well_formed sch hp path search hash1 = true ->
  well_formed sch hp path search hash2 = true ->
  Js.has_own "noncestr" oprops = true ->
  Js.has_own "timestamp" oprops = true ->
  Client.getJSApiTicket options1 env1 VUndef w1 = (Return ticket, w1') ->
  Client.getJSApiTicket options2 env2 VUndef w2 = (Return ticket, w2') ->
  Client.getJSApiConfig options1 env1 (sch ++ hp ++ path ++ search ++ hash1)
    (VObj oprops) w1 = (Return cfg1, w1'') ->
  Client.getJSApiConfig options2 env2 (sch ++ hp ++ path ++ search ++ hash2)
    (VObj oprops) w2 = (Return cfg2, w2'') ->
  Client.signature cfg1 = Client.signature cfg2.
Proof.
  intros Hwf1 Hwf2 Hn Ht Ht1 Ht2 Hr1 Hr2.
  destruct (getJSApiConfig_Return_inv _ _ _ _ _ _ _ _ _ Ht1 Hr1)
    as (s1 & t1 & nurl & p1 & c1 & Hu1 & Ha1 & Hc1 & Hs1 & _ & _).
  destruct (getJSApiConfig_Return_inv _ _ _ _ _ _ _ _ _ Ht2 Hr2)
    as (s2 & t2 & nurl' & p2 & c2 & Hu2 & Ha2 & Hc2 & Hs2 & _ & _).
  rewrite (normalizeUrl_drops_hash _ _ _ _ _ Hwf1) in Hu1.
  rewrite (normalizeUrl_drops_hash _ _ _ _ _ Hwf2) in Hu2.
  rewrite Hu1 in Hu2. injection Hu2 as <-.
  assert (Hl : forall k, Js.lookup k p1 = Js.lookup k p2).
  { intros k. rewrite (assign1_lookup _ _ _ k Ha1), (assign1_lookup _ _ _ k Ha2).
    unfold spread. destruct (Js.lookup k oprops) eqn:E; [reflexivity|].
    unfold Js.has_own in Hn, Ht. simpl.
    destruct (String.eqb_spec k "jsapi_ticket"); [reflexivity|].
    destruct (String.eqb_spec k "noncestr") as [->|]; [now rewrite E in Hn|].
    destruct (String.eqb_spec k "timestamp") as [->|]; [now rewrite E in Ht|].
    reflexivity. }
  assert (Hk : map fst p1 = map fst p2).
  { eapply assign1_keys; [|exact Ha1|exact Ha2]. reflexivity. }
  rewrite (signContent_ext p1 p2 Hk Hl) in Hc1. rewrite Hc1 in Hc2. injection Hc2 as <-.
  congruence.
Qed.

Lemma signature_ignores_fragment_witness :
  Client.signature
    match outcome (Client.getJSApiConfig Example.options (Example.later [])
                     "https://a.com/p?x=1#top" (VObj Example.pinned) Example.ready) with
    | Return cfg => cfg
    | _ => {| Client.corpId := VUndef; Client.timeStamp := VUndef;
              Client.nonceStr := VUndef; Client.signature := "" |}
    end
  = Client.signature
      match outcome (Client.getJSApiConfig Example.options (Example.later [])
                       "https://a.com/p?x=1#bottom" (VObj Example.pinned) Example.ready) with
      | Return cfg => cfg
      | _ => {| Client.corpId := VUndef; Client.timeStamp := VUndef;
                Client.nonceStr := VUndef; Client.signature := "" |}
      end.
Proof.
  refine (signature_ignores_fragment (hooks1 := memory_hooks) (hooks2 := memory_hooks)
            Example.options Example.options (Example.later []) (Example.later [])
            "https://" "a.com" "/p" "?x=1" "#top" "#bottom"
            Example.pinned (VStr "T")
            Example.ready
            (after (Client.getJSApiTicket Example.options (Example.later [])
                      VUndef Example.ready))
            (after (Client.getJSApiConfig Example.options (Example.later [])
                      "https://a.com/p?x=1#top" (VObj Example.pinned) Example.ready))
            Example.ready
            (after (Client.getJSApiTicket Example.options (Example.later [])
                      VUndef Example.ready))
            (after (Client.getJSApiConfig Example.options (Example.later [])
                      "https://a.com/p?x=1#bottom" (VObj Example.pinned) Example.ready))
            _ _ _ _ _ _ _ _ _ _).
  - reflexivity.
  - reflexivity.
  - reflexivity.
  - reflexivity.
  - reflexivity.
  - reflexivity.
  - vm_compute. reflexivity.
  - vm_compute. reflexivity.
Defined.

(** ** The calls of the login flow *)

Lemma request_with_explicit_token {Store} (options : Options) (env : Env)
  (g : M Store JsVal) (url : string) (opts : JsVal)
  (merged : list (string * JsVal)) (a : JsVal) (w : World Store) :
  Js.assign (VObj [("dataType", VStr "json")]) [requestOpts options; opts]
    = Return (VObj merged) ->
  blank merged "ignoreAccessToken" ->
  Js.lookup "accessToken" merged = Some a ->
  Js.truthy a = true ->
  let r := Client.request_with options env g url opts w in
  backing (after r) = backing w /\ ticks (after r) = ticks w /\
  forall u, target options url (params_of merged) a = Return u ->
    sent (after r) = sent w ++ [{| req_url := u; req_opts := transport_opts merged |}].
Proof.
  intros Hm Hb Ha Ht r.
  pose proof (prepare_token options g url opts merged w Hm Hb) as Hp.
  rewrite Ha, Ht in Hp. cbn [fst snd obind] in Hp.
  subst r. destruct (Client.request_with options env g url opts w) as [o w'] eqn:Hrun.
  cbn [after snd].
  apply request_with_frame in Hrun
    as [(o1 & Hp1 & Hf) | (u & ro & w1 & Hp1 & Hs & Hti & Hba & _)];
    rewrite Hp in Hp1.
  - destruct (target options url (params_of merged) a) as [u0| |];
      cbn [obind] in Hp1; inversion Hp1; subst;
      try (repeat split; discriminate); destruct o; try contradiction.
  - destruct (target options url (params_of merged) a) as [u0| |];
      cbn [obind] in Hp1; inversion Hp1; subst.
    repeat split; congruence.
Qed.

(** X20: the calls of the login flow use the token they are given:
    [getPersistentCode], [getSnsToken], [getSnsUserInfo], [getUserInfo]
    and [getSSOUserInfo], called with a truthy [accessToken], neither read
    nor write the credential cache and do not read the clock; the one
    request each sends carries that token in its query string. *)
Theorem login_calls_use_the_given_token {Store} {hooks : Hooks Store}
  (options : Options) (env : Env) (a x y : JsVal)
  (p : list (string * JsVal)) (w : World Store) :
  Js.truthy a = true ->
  quiet_requestOpts options p ->
  forall (call : M Store JsVal) (api : string) (params : JsVal),
    In (call, api, params)
      [(Client.getPersistentCode options env a x, "sns/get_persistent_code", VObj []);
       (Client.getSnsToken options env a x y, "sns/get_sns_token", VObj []);
       (Client.getSnsUserInfo options env a x, "sns/getuserinfo", VObj [("sns_token", x)]);
       (Client.getUserInfo options env a x, "user/get", VObj [("userid", x)]);
       (Client.getSSOUserInfo options env a x, "sso/getuserinfo", VObj [("code", x)])] ->
    backing (after (call w)) = backing w /\ ticks (after (call w)) = ticks w /\
    forall u, target options (host options ++ "/" ++ api) params a = Return u ->
      exists ro, sent (after (call w)) = sent w ++ [{| req_url := u; req_opts := ro |}].
Proof.
  intros Ht (Hp & Hpa & Hi & Ha) call api params Hin.
  assert (Hget : forall api0 params0,
    let merged := Js.update "accessToken" a (Js.update "params" (VObj params0) p) in
    let r := Client.request_with options env (Client.getAccessToken options env)
               (host options ++ "/" ++ api0)
               (VObj [("params", VObj params0); ("accessToken", a)]) w in
    backing (after r) = backing w /\ ticks (after r) = ticks w /\
    forall u, target options (host options ++ "/" ++ api0) (VObj params0) a = Return u ->
      exists ro, sent (after r) = sent w ++ [{| req_url := u; req_opts := ro |}]).
  { intros api0 params0 merged r.
    assert (Hm : Js.assign (VObj [("dataType", VStr "json")])
                   [requestOpts options; VObj [("params", VObj params0); ("accessToken", a)]]
                 = Return (VObj merged)).
    { cbn [Js.assign]. rewrite Hp. reflexivity. }
    destruct (request_with_explicit_token options env (Client.getAccessToken options env)
                (host options ++ "/" ++ api0) _ merged a w Hm) as (Hb & Hti & Hs).
    - subst merged. repeat (apply blank_update_other; [discriminate|]). exact Hi.
    - subst merged. apply lookup_update_same.
    - exact Ht.
    - split; [exact Hb|]. split; [exact Hti|]. intros u Hu. eexists. apply Hs.
      unfold params_of. subst merged.
      rewrite lookup_update_other by discriminate. rewrite lookup_update_same. exact Hu. }
  assert (Hpost : forall api0 data0,
    let r := Client.request_with options env (Client.getAccessToken options env)
               (host options ++ "/" ++ api0)
               (VObj [("method", VStr "POST"); ("contentType", VStr "json");
                      ("data", data0); ("accessToken", a)]) w in
    backing (after r) = backing w /\ ticks (after r) = ticks w /\
    forall u, target options (host options ++ "/" ++ api0) (VObj []) a = Return u ->
      exists ro, sent (after r) = sent w ++ [{| req_url := u; req_opts := ro |}]).
  { intros api0 data0 r.
    set (merged := Js.update "accessToken" a
                     (Js.update "data" data0
                        (Js.update "contentType" (VStr "json")
                           (Js.update "method" (VStr "POST") p)))).
    assert (Hm : Js.assign (VObj [("dataType", VStr "json")])
                   [requestOpts options;
                    VObj [("method", VStr "POST"); ("contentType", VStr "json");
                          ("data", data0); ("accessToken", a)]]
                 = Return (VObj merged)).
    { cbn [Js.assign]. rewrite Hp. reflexivity. }
    destruct (request_with_explicit_token options env (Client.getAccessToken options env)
                (host options ++ "/" ++ api0) _ merged a w Hm) as (Hb & Hti & Hs).
    - subst merged. repeat (apply blank_update_other; [discriminate|]). exact Hi.
    - subst merged. apply lookup_update_same.
    - exact Ht.
    - split; [exact Hb|]. split; [exact Hti|]. intros u Hu. eexists. apply Hs.
      unfold params_of. subst merged.
      rewrite !lookup_update_other by discriminate.
      unfold blank in Hpa. destruct (Js.lookup "params" p) as [v|]; [|exact Hu].
      rewrite Hpa. exact Hu. }
  cbn [In] in Hin.
  destruct Hin as [E | [E | [E | [E | [E | []]]]]]; injection E as <- <- <-.
  - exact (Hpost "sns/get_persistent_code" (VObj [("tmp_auth_code", x)])).
  - exact (Hpost "sns/get_sns_token" (VObj [("openid", x); ("persistent_code", y)])).
  - exact (Hget "sns/getuserinfo" [("sns_token", x)]).
  - exact (Hget "user/get" [("userid", x)]).
  - exact (Hget "sso/getuserinfo" [("code", x)]).
Qed.

Lemma login_calls_use_the_given_token_witness :
  let call := Client.getUserInfo Example.options
                (Example.env [Example.response Example.error_body])
                (VStr "USERTOKEN") (VStr "u1") in
  backing (after (call (Example.holding 500000))) = backing (Example.holding 500000) /\
  ticks (after (call (Example.holding 500000))) = 0%nat /\
  forall u,
    Return "https://oapi.dingtalk.com/user/get?userid=u1&access_token=USERTOKEN" = Return u ->
    exists ro, sent (after (call (Example.holding 500000)))
               = sent (Example.holding 500000) ++ [{| req_url := u; req_opts := ro |}].
Proof.
  refine (login_calls_use_the_given_token (hooks := memory_hooks) Example.options
            (Example.env [Example.response Example.error_body])
            (VStr "USERTOKEN") (VStr "u1") VUndef [("dataType", VStr "json")]
            (Example.holding 500000) _ _ _ "user/get" (VObj [("userid", VStr "u1")]) _).
  - reflexivity.
  - repeat split.
  - right. right. right. left. reflexivity.
Defined.

(** The first part of [request] under [ignoreAccessToken]: no token is
    looked for, the query object goes out as it is. *)
Lemma prepare_ignoring {Store} (options : Options) (g : M Store JsVal)
  (url : string) (opts : JsVal) (merged : list (string * JsVal)) (w : World Store) :
  Js.assign (VObj [("dataType", VStr "json")]) [requestOpts options; opts]
    = Return (VObj merged) ->
  filled merged "ignoreAccessToken" ->
  Client.prepare options g url opts w =
  (obind (querystring.stringify (params_of merged)) (fun qs =>
   obind (proxied options (url ++ "?" ++ qs)) (fun u =>
   Return (u, transport_opts merged))), w).
Proof.
  intros Hm (v & Hv & Ht).
  unfold Client.prepare, proxied, transport_opts, params_of, bind, lift, ret.
  rewrite Hm. rewrite !get_plain by reflexivity. rewrite Hv, Ht. cbn [negb].
  destruct (Js.lookup "params" merged) as [P|]; cbn [Js.truthy];
    repeat match goal with
           | |- context [Js.truthy ?v] => destruct (Js.truthy v)
           end;
    cbn [fst snd obind];
    repeat match goal with
           | |- context [querystring.stringify ?p] =>
               destruct (querystring.stringify p) as [?| |]; cbn [obind]
           | |- context [proxy options] => destruct (proxy options) as [?|]
           | |- context [String.eqb ?a ""] => destruct (String.eqb a "")
           | |- context [Str.any ?f ?a] => destruct (Str.any f a)
           end; reflexivity.
Qed.

(** X21: [getuserinfo_bycode] signs its own request and needs no access
    token: it reads the clock once, leaves the credential cache alone and
    sends one POST to [sns/getuserinfo_bycode] whose query string holds
    the application key, the timestamp and, percent-encoded, the base64
    HMAC-SHA256 of the decimal timestamp under the application secret;
    the temporary code travels in the body. *)
Theorem getuserinfo_bycode_signs_its_own_request {Store} {hooks : Hooks Store}
  (options : Options) (env : Env) (tmp_auth_code : JsVal)
  (stamp u : string) (w : World Store) :
  plain_requestOpts options ->
  Js.num_to_string (Num (clock env (ticks w))) = Return stamp ->
  let signature :=
    crypto.base64 (crypto.hmac crypto.sha256_bytes
                     (crypto.bytes_of (appsecret options)) (crypto.bytes_of stamp)) in
  proxied options
    (host options ++ "/sns/getuserinfo_bycode?accessKey="
     ++ querystring.escape (appkey options)
     ++ "&timestamp=" ++ querystring.escape stamp
     ++ "&signature=" ++ querystring.escape signature) = Return u ->
  let r := Client.getuserinfo_bycode options env tmp_auth_code w in
  backing (after r) = backing w /\ ticks (after r) = S (ticks w) /\
  exists ropts,
    sent (after r) = sent w ++ [{| req_url := u; req_opts := VObj ropts |}] /\
    Js.lookup "method" ropts = Some (VStr "POST") /\
    Js.lookup "data" ropts = Some (VObj [("tmp_auth_code", tmp_auth_code)]) /\
    Js.lookup "params" ropts = None.
Proof.
  intros [p0 Hp] Hstamp signature Hpx r.
  set (w1 := {| ticks := S (ticks w); sent := sent w; logged := logged w;
                backing := backing w |}).
  set (params := VObj [("accessKey", VStr (appkey options));
                       ("timestamp", VNum (Num (clock env (ticks w))));
                       ("signature", VStr signature)]).
  set (opts := VObj [("method", VStr "POST"); ("contentType", VStr "json");
                     ("data", VObj [("tmp_auth_code", tmp_auth_code)]);
                     ("params", params); ("ignoreAccessToken", VBool true)]).
  set (merged := Js.update "ignoreAccessToken" (VBool true)
                   (Js.update "params" params
                      (Js.update "data" (VObj [("tmp_auth_code", tmp_auth_code)])
                         (Js.update "contentType" (VStr "json")
                            (Js.update "method" (VStr "POST") p0))))).
  assert (Hrun : r = Client.request_with options env (Client.getAccessToken options env)
                       (host options ++ "/" ++ "sns/getuserinfo_bycode") opts w1).
  { subst r. unfold Client.getuserinfo_bycode.
    unfold bind at 1. unfold Client.Date_now at 1.
    unfold bind at 1. unfold lift at 1. rewrite Hstamp.
    unfold bind at 1. unfold lift at 1.
    change (Client.signatureHmac stamp (appsecret options) "sha256" "base64")
      with (Return signature).
    reflexivity. }
  assert (Hm : Js.assign (VObj [("dataType", VStr "json")]) [requestOpts options; opts]
               = Return (VObj merged)).
  { cbn [Js.assign]. rewrite Hp. reflexivity. }
  assert (Hf : filled merged "ignoreAccessToken").
  { exists (VBool true). split; [apply lookup_update_same | reflexivity]. }
  assert (Hpar : params_of merged = params).
  { unfold params_of. subst merged. rewrite lookup_update_other by discriminate.
    now rewrite lookup_update_same. }
  pose proof (prepare_ignoring options (Client.getAccessToken options env)
                (host options ++ "/" ++ "sns/getuserinfo_bycode") opts merged w1 Hm Hf)
    as Hprep.
  rewrite Hpar in Hprep.
  assert (Hqs : querystring.stringify params =
                Return ("accessKey=" ++ querystring.escape (appkey options)
                        ++ "&timestamp=" ++ querystring.escape stamp
                        ++ "&signature=" ++ querystring.escape signature)%string).
  { subst params. unfold querystring.stringify.
    change (Js.own_keys _) with ["accessKey"; "timestamp"; "signature"].
    cbn [querystring.stringify_fields Js.lookup String.eqb Ascii.eqb Bool.eqb
         querystring.stringify_field querystring.stringifyPrimitive obind].
    rewrite Hstamp. cbn [obind].
    rewrite !append_assoc, !append_empty_r. reflexivity. }
  rewrite Hqs in Hprep. cbn [obind] in Hprep.
  replace ((host options ++ "/" ++ "sns/getuserinfo_bycode") ++ "?" ++
           "accessKey=" ++ querystring.escape (appkey options) ++ "&timestamp=" ++
           querystring.escape stamp ++ "&signature=" ++ querystring.escape signature)%string
    with (host options ++ "/sns/getuserinfo_bycode?accessKey="
          ++ querystring.escape (appkey options)
          ++ "&timestamp=" ++ querystring.escape stamp
          ++ "&signature=" ++ querystring.escape signature)%string in Hprep
    by (rewrite !append_assoc; reflexivity).
  rewrite Hpx in Hprep. cbn [obind] in Hprep.
  destruct (request_with_prepared options env _ _ _ w1 w1 u _ Hprep) as (Hs & Hb & Hti & _).
  rewrite Hrun.
  split; [exact Hb|]. split; [exact Hti|].
  assert (Hnd : NoDup (map fst merged)).
  { subst merged. repeat apply update_keys_NoDup.
    eapply assign1_NoDup; [exact Hp|]. repeat constructor. intros []. }
  destruct (transport_opts_lookup merged "" Hnd) as (q & Hq1 & _).
  assert (Hk : forall k, Js.lookup k q = if existsb (String.eqb k) bookkeeping then None
                                         else Js.lookup k merged).
  { intros k. destruct (transport_opts_lookup merged k Hnd) as (q' & Hq1' & Hq2).
    rewrite Hq1 in Hq1'. injection Hq1' as ->. exact Hq2. }
  rewrite Hq1 in Hs. exists q. split; [exact Hs|].
  rewrite !Hk. cbn [existsb bookkeeping String.eqb Ascii.eqb Bool.eqb orb].
  subst merged. split; [|split; [|reflexivity]].
  - rewrite !lookup_update_other by discriminate. apply lookup_update_same.
  - rewrite !lookup_update_other by discriminate. apply lookup_update_same.
Qed.

Lemma getuserinfo_bycode_signs_its_own_request_witness :
  let r := Client.getuserinfo_bycode Example.options
             (Example.env [Example.response (VObj [("errcode", VNum (Num 0))])])
             (VStr "CODE") (Example.holding 500000) in
  backing (after r) = backing (Example.holding 500000) /\ ticks (after r) = 1%nat /\
  exists ropts,
    sent (after r) =
      sent (Example.holding 500000) ++
      [{| req_url := "https://oapi.dingtalk.com/sns/getuserinfo_bycode?accessKey=KEY&timestamp=1000000&signature=%2FrcOhmRQgkXhBtKRQ5535Xaq7Irpyr7DvwRfHQtIAEE%3D";
          req_opts := VObj ropts |}] /\
    Js.lookup "method" ropts = Some (VStr "POST") /\
    Js.lookup "data" ropts = Some (VObj [("tmp_auth_code", VStr "CODE")]) /\
    Js.lookup "params" ropts = None.
Proof.
  refine (getuserinfo_bycode_signs_its_own_request (hooks := memory_hooks) Example.options
            (Example.env [Example.response (VObj [("errcode", VNum (Num 0))])])
            (VStr "CODE") "1000000"
            "https://oapi.dingtalk.com/sns/getuserinfo_bycode?accessKey=KEY&timestamp=1000000&signature=%2FrcOhmRQgkXhBtKRQ5535Xaq7Irpyr7DvwRfHQtIAEE%3D"
            (Example.holding 500000) _ _ _).
  - eexists. reflexivity.
  - reflexivity.
  - vm_compute. reflexivity.
Defined.

(** The HMAC of RFC 4231, test case 2, in both encodings, and that of
    RFC 2202 for SHA-1. *)
Lemma hmac_known_answers :
  crypto.createHmac "sha256" "Jefe" "what do ya want for nothing?" "hex"
  = Return "5bdcc146bf60754e6a042426089575c75a003f089d2739839dec58b964ec3843" /\
  crypto.createHmac "sha256" "Jefe" "what do ya want for nothing?" "base64"
  = Return "W9zBRr9gdU5qBCQmCJV1x1oAPwidJzmDnexYuWTsOEM=" /\
  crypto.createHmac "sha1" "Jefe" "what do ya want for nothing?" "hex"
  = Return "effcdf6ae5eb2fa2d27416d5f184df9c259a7c79".
Proof. repeat split; vm_compute; reflexivity. Qed.

(** ** A new client *)

(** X22: [new Client(options)] checks [appkey], [appsecret] and [host]
    in this order and names the first that is missing; the client it
    builds has sent nothing and holds no credentials, so that its first
    [getAccessToken] and its first [getJSApiTicket] go to the remote
    service. *)
Theorem constructor_checks_and_starts_empty (options : Options) :
  (appkey options = "" ->
   Client.constructor options = Throw (AssertionError "options.appkey required")) /\
  (appkey options <> "" -> appsecret options = "" ->
   Client.constructor options = Throw (AssertionError "options.appsecret required")) /\
  (appkey options <> "" -> appsecret options <> "" -> host options = "" ->
   Client.constructor options = Throw (AssertionError "options.host required")) /\
  (forall w0, Client.constructor options = Return w0 ->
     appkey options <> "" /\ appsecret options <> "" /\ host options <> "" /\
     sent w0 = [] /\
     forall env,
       Client.getAccessToken options env w0 = Client.fetchAccessToken options env w0 /\
       forall type ty,
         (if Js.truthy type then type else VStr "jsapi") = VStr ty ->
         Js.inherited ty = false ->
         Client.getJSApiTicket options env type w0
         = Client.fetchJSApiTicket options env ty w0).
Proof.
  unfold Client.constructor.
  destruct (String.eqb_spec (appkey options) "") as [Ek|Ek];
    [|destruct (String.eqb_spec (appsecret options) "") as [Es|Es];
      [|destruct (String.eqb_spec (host options) "") as [Eh|Eh]]].
  - repeat split; try congruence; discriminate.
  - repeat split; try congruence; discriminate.
  - repeat split; try congruence; discriminate.
  - split; [congruence|]. split; [congruence|]. split; [congruence|].
    intros w0 H. injection H as <-.
    split; [assumption|]. split; [assumption|]. split; [assumption|].
    split; [reflexivity|].
    intros env. split; [reflexivity|].
    intros type ty Hty Hin.
    unfold Client.getJSApiTicket. rewrite Hty.
    unfold bind at 1. unfold Client.load at 1.
    cbn [backing getTicketToken memory_hooks ticketStore Js.lookup]. rewrite Hin.
    reflexivity.
Qed.

Lemma constructor_checks_and_starts_empty_witness :
  Client.constructor
    {| appkey := "KEY"; appsecret := ""; host := ""; proxy := None; sso := false;
       corpid := VUndef; requestOpts := VUndef; logger := false |}
  = Throw (AssertionError "options.appsecret required").
Proof.
  refine (proj1 (proj2 (constructor_checks_and_starts_empty
            {| appkey := "KEY"; appsecret := ""; host := ""; proxy := None; sso := false;
               corpid := VUndef; requestOpts := VUndef; logger := false |})) _ _).
  - discriminate.
  - reflexivity.
Defined.

(** ** Signing without the network *)

(** X23: with a valid ticket in the cache [getJSApiConfig] works
    offline: whatever the URL and the options, and whether it returns or
    fails, it sends no request, logs nothing and leaves the backing store
    as it was. *)
Theorem getJSApiConfig_offline {Store} {hooks : Hooks Store}
  (options : Options) (env : Env) (url : string) (opts : JsVal)
  (w : World Store) (tk : Ticket.t) (e : Z) :
  getTicketToken "jsapi" (backing w) = Return (Some tk) ->
  Ticket.expireTime tk = Num e ->
  clock env (ticks w) < e ->
  let r := Client.getJSApiConfig options env url opts w in
  sent (after r) = sent w /\ logged (after r) = logged w /\
  backing (after r) = backing w.
Proof.
  intros Hload He Hlt r.
  assert (Hticket : Client.getJSApiTicket options env VUndef w =
                    (Return (Ticket.ticket tk),
                     {| ticks := S (ticks w); sent := sent w; logged := logged w;
                        backing := backing w |})).
  { unfold Client.getJSApiTicket. cbn [Js.truthy].
    unfold bind at 1. unfold Client.load at 1. rewrite Hload.
    unfold bind at 1. unfold bind at 1. unfold Client.Date_now at 1. unfold ret at 1.
    unfold Ticket.isValid. cbn [Ticket.expireTime]. rewrite He. cbn [Js.num_lt].
    destruct (Z.ltb_spec (clock env (ticks w)) e); [reflexivity | lia]. }
  subst r. unfold Client.getJSApiConfig.
  rewrite (bind_Return _ _ _ _ _ Hticket).
  unfold bind, lift, ret, Client.Date_now.
  cbn [ticks sent logged backing].
  repeat match goal with
         | |- context [match ?x with _ => _ end] => destruct x
         end; cbn [after snd sent logged backing]; auto.
Qed.

Lemma getJSApiConfig_offline_witness :
  let r := Client.getJSApiConfig Example.options (Example.env []) "not a url" VUndef
             Example.ready in
  sent (after r) = sent Example.ready /\ logged (after r) = logged Example.ready /\
  backing (after r) = backing Example.ready.
Proof.
  refine (getJSApiConfig_offline (hooks := memory_hooks) Example.options (Example.env [])
            "not a url" VUndef Example.ready (Ticket.new (VStr "T") (Num 9000000))
            9000000 _ _ _).
  - reflexivity.
  - reflexivity.
  - reflexivity.
Defined.

(** ** The callback wrappers *)

(** X24: the four wrappers of [lib/api/callback.js] send the caller's
    options as the query string of a request to the endpoint of the same
    name, together with the access token; the transport gets the
    configured default options and no [params]. *)
Theorem callback_wrappers_send_a_query {Store} {hooks : Hooks Store}
  (options : Options) (env : Env) (opts : JsVal)
  (p : list (string * JsVal)) (a : JsVal) (w w1 : World Store) :
  quiet_requestOpts options p ->
  Client.getAccessToken options env w = (Return a, w1) ->
  forall (call : M Store JsVal) (api u : string),
    In (call, api)
      [(Callback.register_call_back options env opts, "call_back/register_call_back");
       (Callback.get_call_back options env opts, "call_back/get_call_back");
       (Callback.update_call_back options env opts, "call_back/update_call_back");
       (Callback.delete_call_back options env opts, "call_back/delete_call_back")] ->
    target options (host options ++ "/" ++ api)
      (if Js.truthy opts then opts else VObj []) a = Return u ->
    let rq := {| req_url := u; req_opts := transport_opts (Js.update "params" opts p) |} in
    sent (after (call w)) = sent w1 ++ [rq] /\
    backing (after (call w)) = backing w1 /\
    Js.get (req_opts rq) "params" = Return VUndef /\
    forall v, outcome (call w) = Return v ->
      exists response,
        remote env (List.length (sent w1)) rq = HttpOk response /\ v = payload response.
Proof.
  intros Hq Hg call api u Hin Ht rq.
  assert (Hne : api <> "").
  { cbn [In] in Hin. destruct Hin as [E | [E | [E | [E | []]]]];
      injection E as _ <-; discriminate. }
  destruct (get_run options env api opts p a u w w1 Hne Hq Hg Ht)
    as (Hs & Hb & _ & Hp & Hv).
  cbn [In] in Hin.
  destruct Hin as [E | [E | [E | [E | []]]]]; injection E as <- <-; auto.
Qed.

Lemma callback_wrappers_send_a_query_witness :
  let call := Callback.register_call_back Example.options
                (Example.env [Example.response (VObj [("errcode", VNum (Num 0))])])
                (VObj [("url", VStr "http://my.app/cb"); ("token", VStr "123")]) in
  let rq :=
    {| req_url := "https://oapi.dingtalk.com/call_back/register_call_back?url=http%3A%2F%2Fmy.app%2Fcb&token=123&access_token=TOK";
       req_opts := VObj [("dataType", VStr "json")] |} in
  sent (after (call (Example.holding 2000000))) = [rq] /\
  backing (after (call (Example.holding 2000000))) = backing (Example.holding 2000000) /\
  Js.get (req_opts rq) "params" = Return VUndef /\
  forall v, outcome (call (Example.holding 2000000)) = Return v ->
    exists response,
      remote (Example.env [Example.response (VObj [("errcode", VNum (Num 0))])]) 0 rq
        = HttpOk response /\ v = payload response.
Proof.
  refine (callback_wrappers_send_a_query (hooks := memory_hooks) Example.options
            (Example.env [Example.response (VObj [("errcode", VNum (Num 0))])])
            (VObj [("url", VStr "http://my.app/cb"); ("token", VStr "123")])
            [("dataType", VStr "json")] (VStr "TOK") (Example.holding 2000000)
            {| ticks := 1; sent := []; logged := [];
               backing := backing (Example.holding 2000000) |} _ _ _
            "call_back/register_call_back"
            "https://oapi.dingtalk.com/call_back/register_call_back?url=http%3A%2F%2Fmy.app%2Fcb&token=123&access_token=TOK"
            _ _).
  - repeat split.
  - reflexivity.
  - left. reflexivity.
  - reflexivity.
Defined.

(** ** Proxy and logger *)

(** X25: with a proxy configured, a request to a URL under the
    configured host goes to the same path under the proxy: the host at the
    start of the URL is replaced, the rest, query string included, is
    kept. *)
Theorem proxy_replaces_host {Store} {hooks : Hooks Store}
  (options : Options) (env : Env) (rest : string) (opts : JsVal)
  (merged : list (string * JsVal)) (a pobj : JsVal) (qs px : string)
  (w : World Store) :
  Js.assign (VObj [("dataType", VStr "json")]) [requestOpts options; opts]
    = Return (VObj merged) ->
  blank merged "ignoreAccessToken" ->
  Js.lookup "accessToken" merged = Some a ->
  Js.truthy a = true ->
  Js.set (params_of merged) "access_token" a = Return pobj ->
  querystring.stringify pobj = Return qs ->
  proxy options = Some px ->
  px <> "" ->
  Str.any (Str.is_char "$") px = false ->
  sent (after (Client.request options env (host options ++ rest) opts w))
  = sent w ++ [{| req_url := px ++ rest ++ "?" ++ qs;
                  req_opts := transport_opts merged |}].
Proof.
  intros Hm Hb Ha Ht Hset Hqs Hpx Hne Hd.
  destruct (request_with_explicit_token options env (Client.getAccessToken options env)
              (host options ++ rest) opts merged a w Hm Hb Ha Ht) as (_ & _ & Hs).
  apply Hs. unfold target. rewrite Hset. cbn [obind]. rewrite Hqs. cbn [obind].
  unfold proxied. rewrite Hpx.
  destruct (String.eqb_spec px ""); [contradiction|]. rewrite Hd.
  rewrite append_assoc, replace_first_prefix. reflexivity.
Qed.

Lemma proxy_replaces_host_witness :
  sent (after (Client.request
                 {| appkey := "KEY"; appsecret := "SECRET";
                    host := "https://oapi.dingtalk.com";
                    proxy := Some "http://10.0.0.1:8080"; sso := false;
                    corpid := VUndef; requestOpts := VUndef; logger := false |}
                 (Example.env [])
                 ("https://oapi.dingtalk.com" ++ "/user/get")
                 (VObj [("accessToken", VStr "TOK");
                        ("params", VObj [("from", VStr "https://oapi.dingtalk.com")])])
                 Example.fresh))
  = sent Example.fresh ++
    [{| req_url := "http://10.0.0.1:8080" ++ "/user/get" ++ "?"
                   ++ "from=https%3A%2F%2Foapi.dingtalk.com&access_token=TOK";
        req_opts := transport_opts
                      [("dataType", VStr "json"); ("accessToken", VStr "TOK");
                       ("params", VObj [("from", VStr "https://oapi.dingtalk.com")])] |}].
Proof.
  refine (proxy_replaces_host (hooks := memory_hooks)
            {| appkey := "KEY"; appsecret := "SECRET";
               host := "https://oapi.dingtalk.com";
               proxy := Some "http://10.0.0.1:8080"; sso := false;
               corpid := VUndef; requestOpts := VUndef; logger := false |}
            (Example.env []) "/user/get"
            (VObj [("accessToken", VStr "TOK");
                   ("params", VObj [("from", VStr "https://oapi.dingtalk.com")])])
            [("dataType", VStr "json"); ("accessToken", VStr "TOK");
             ("params", VObj [("from", VStr "https://oapi.dingtalk.com")])]
            (VStr "TOK")
            (VObj [("from", VStr "https://oapi.dingtalk.com"); ("access_token", VStr "TOK")])
            "from=https%3A%2F%2Foapi.dingtalk.com&access_token=TOK"
            "http://10.0.0.1:8080" Example.fresh _ _ _ _ _ _ _ _ _).
  - reflexivity.
  - exact I.
  - reflexivity.
  - reflexivity.
  - reflexivity.
  - reflexivity.
  - reflexivity.
  - discriminate.
  - reflexivity.
Defined.

(** X26: with a logger configured every answered request is logged
    once, with its method ([GET] when none is set), its URL, the status
    and headers of the answer and the body, whether the body then counts
    as a success or as an error; without a logger nothing is logged. *)
Theorem request_logs_each_answer {Store} {hooks : Hooks Store}
  (options : Options) (env : Env) (url : string) (opts : JsVal)
  (w w1 : World Store) (u : string) (ro : JsVal)
  (rprops : list (string * JsVal)) (body : JsVal) :
  Client.prepare options (Client.getAccessToken options env) url opts w
    = (Return (u, ro), w1) ->
  remote env (List.length (sent w1)) {| req_url := u; req_opts := ro |}
    = HttpOk (VObj rprops) ->
  Js.get (VObj rprops) "data" = Return body ->
  let r := Client.request options env url opts w in
  (logger options = false -> logged (after r) = logged w1) /\
  (logger options = true ->
   exists method,
     Js.get ro "method" = Return method /\
     logged (after r) =
     logged w1 ++ [LogInfo (Client.or_GET method) u (field "status" rprops)
                     (field "headers" rprops) body]).
Proof.
  intros Hp Hr Hd r.
  destruct (prepare_object _ _ _ _ _ _ _ _ Hp) as [roprops ->].
  assert (Hrun : r = Client.unwrap options u (VObj roprops) (VObj rprops)
                       {| ticks := ticks w1;
                          sent := sent w1 ++ [{| req_url := u; req_opts := VObj roprops |}];
                          logged := logged w1; backing := backing w1 |}).
  { subst r. unfold Client.request, Client.request_with. unfold bind at 1. rewrite Hp.
    cbn [fst snd]. unfold bind at 1.
    unfold Client.exchange, try_catch, Client.urllib_request. rewrite Hr. reflexivity. }
  rewrite Hrun. unfold Client.unwrap.
  unfold bind at 1. unfold lift at 1. rewrite Hd.
  split; intros Hl; rewrite Hl.
  - unfold bind at 1. unfold ret at 1.
    destruct (Js.truthy body); [|reflexivity].
    unfold bind, lift, throw, ret. destruct (Js.get body "errcode") as [c| |];
      try reflexivity.
    destruct (Js.strict_ne_zero c); reflexivity.
  - exists (field "method" roprops). split; [apply get_plain; reflexivity|].
    unfold bind at 1. unfold bind at 1. unfold lift at 1.
    rewrite get_plain by reflexivity.
    unfold bind at 1. unfold lift at 1. rewrite get_plain by reflexivity.
    unfold bind at 1. unfold lift at 1. rewrite get_plain by reflexivity.
    unfold Client.log.
    destruct (Js.truthy body); [|reflexivity].
    unfold bind, lift, throw, ret. destruct (Js.get body "errcode") as [c| |];
      try reflexivity.
    destruct (Js.strict_ne_zero c); reflexivity.
Qed.

Lemma request_logs_each_answer_witness :
  exists method,
    Js.get (VObj [("dataType", VStr "json")]) "method" = Return method /\
    logged (after (Client.request
                     {| appkey := "KEY"; appsecret := "SECRET";
                        host := "https://oapi.dingtalk.com"; proxy := None; sso := false;
                        corpid := VUndef; requestOpts := VUndef; logger := true |}
                     (Example.env [Example.response Example.error_body])
                     "https://oapi.dingtalk.com/user/get"
                     (VObj [("accessToken", VStr "TOK")]) Example.fresh))
    = logged Example.fresh ++
      [LogInfo (Client.or_GET method)
         "https://oapi.dingtalk.com/user/get?access_token=TOK"
         (VNum (Num 200)) (VObj []) Example.error_body].
Proof.
  refine (proj2 (request_logs_each_answer (hooks := memory_hooks)
            {| appkey := "KEY"; appsecret := "SECRET";
               host := "https://oapi.dingtalk.com"; proxy := None; sso := false;
               corpid := VUndef; requestOpts := VUndef; logger := true |}
            (Example.env [Example.response Example.error_body])
            "https://oapi.dingtalk.com/user/get"
            (VObj [("accessToken", VStr "TOK")]) Example.fresh Example.fresh
            "https://oapi.dingtalk.com/user/get?access_token=TOK"
            (VObj [("dataType", VStr "json")])
            [("data", Example.error_body); ("status", VNum (Num 200));
             ("headers", VObj [])]
            Example.error_body _ _ _) _).
  - reflexivity.
  - reflexivity.
  - reflexivity.
  - reflexivity.
Defined.
